(** * extract_logs.py: a shallow embedding and its verified properties

    The script extracts from a log file every line whose leading date equals a
    target date.  It samples the file to infer a date range
    ([find_date_boundaries]), interpolates a byte offset ([estimate_position]),
    cuts the file into byte ranges (the planning part of [process_file]),
    scans every range ([find_lines_for_date]) and writes the normalised
    matches ([format_line_for_output]) to the output file.

    Python values are modelled as follows.
    - [int] is [Z]; byte offsets are [Z] as well, since the estimated offset
      may be negative or lie beyond the end of the file.
    - [bytes] is [list Byte.byte]; [str] is a list of Unicode code points.
    - A raised exception is the [Raise] result of a small error monad.
    - A [while] loop without a static bound runs on fuel: [None] means that
      the fuel ran out, and a loop that returns [None] for every amount of
      fuel does not terminate.
    - The outside world is an argument: the bytes of the log file, and for
      the output step the part of the file system that decides whether the
      output directory can be made, the output file opened and the lines
      written ([disk]).
    - The decimal digits that [strptime] accepts are those of the Unicode
      database of CPython 3.11 (Unicode 14.0).

    The file has three parts: the embedding of the script, function by
    function and under the names of the source; the reference notions that
    the properties are stated with; and the properties. *)

From Stdlib Require Import ZArith NArith List Bool Lia String Ascii.
From Stdlib Require Strings.Byte.
From Stdlib Require Import Sorted Permutation SpecFloat.
Import ListNotations.

Open Scope Z_scope.

(** ** Exceptions *)

Inductive exn : Type :=
| IndexError
| ValueError
| OverflowError
| ZeroDivisionError
| OSError.

Inductive result (A : Type) : Type :=
| Ok (a : A)
| Raise (e : exn).

Arguments Ok {A} a.
Arguments Raise {A} e.

Definition bind {A B : Type} (c : result A) (k : A -> result B) : result B :=
  match c with
  | Ok a => k a
  | Raise e => Raise e
  end.

Notation "x <- c ;; k" := (bind c (fun x => k))
  (at level 61, c at next level, right associativity).

(** ** Strings *)

Definition codepoint : Type := N.
Definition str : Type := list codepoint.

Definition chr (a : ascii) : codepoint := N_of_ascii a.
Definition str_of (lit : string) : str :=
  List.map chr (list_ascii_of_string lit).

Definition str_eqb (a b : str) : bool :=
  if list_eq_dec N.eq_dec a b then true else false.

(** [len(x)] as a Python int. *)
Definition len {A : Type} (l : list A) : Z := Z.of_nat (List.length l).

(** [x[i]] for a non-negative literal index. *)
Definition index {A : Type} (l : list A) (i : nat) : result A :=
  match nth_error l i with
  | Some x => Ok x
  | None => Raise IndexError
  end.

Fixpoint starts_with (p x : str) : bool :=
  match p, x with
  | [], _ => true
  | _ :: _, [] => false
  | a :: p', b :: x' => (a =? b)%N && starts_with p' x'
  end.

(** The leftmost occurrence of [sub] in [x]: the text before it and the text
    after it ([str.partition] without the separator). *)
Fixpoint find_sub (sub x : str) {struct x} : option (str * str) :=
  if starts_with sub x then Some ([], skipn (List.length sub) x)
  else match x with
       | [] => None
       | c :: x' =>
           match find_sub sub x' with
           | Some (before, after) => Some (c :: before, after)
           | None => None
           end
       end.

(** [sub in x] *)
Definition contains (sub x : str) : bool :=
  match find_sub sub x with
  | Some _ => true
  | None => false
  end.

Fixpoint split_loop (fuel : nat) (sep : str) (maxsplit : Z) (x : str) : list str :=
  match fuel with
  | O => [x]
  | S fuel' =>
      if maxsplit =? 0 then [x]
      else match find_sub sep x with
           | None => [x]
           | Some (before, after) =>
               before :: split_loop fuel' sep (maxsplit - 1) after
           end
  end.

(** [x.split(sep, maxsplit)]; [maxsplit = -1] is Python's default (no limit).
    Every split consumes at least one character, so [S (length x)] rounds
    are enough (lemma [split_loop_fuel]). *)
Definition split (sep : str) (maxsplit : Z) (x : str) : result (list str) :=
  match sep with
  | [] => Raise ValueError
  | _ :: _ => Ok (split_loop (S (List.length x)) sep maxsplit x)
  end.

Fixpoint replace_loop (fuel : nat) (old new x : str) : str :=
  match fuel with
  | O => x
  | S fuel' =>
      match find_sub old x with
      | None => x
      | Some (before, after) => before ++ new ++ replace_loop fuel' old new after
      end
  end.

(** [x.replace(old, new)]: every non-overlapping occurrence, left to right. *)
Definition replace (old new x : str) : str :=
  match old with
  | [] => new ++ flat_map (fun c => c :: new) x
  | _ :: _ => replace_loop (S (List.length x)) old new x
  end.

(** [str.isspace] per character (CPython's [_PyUnicode_IsWhitespace]). *)
Definition is_space (c : codepoint) : bool :=
  ((9 <=? c) && (c <=? 13) || (28 <=? c) && (c <=? 32)
   || (c =? 133) || (c =? 160) || (c =? 5760)
   || (8192 <=? c) && (c <=? 8202)
   || (c =? 8232) || (c =? 8233) || (c =? 8239) || (c =? 8287)
   || (c =? 12288))%N.

Fixpoint lstrip (x : str) : str :=
  match x with
  | [] => []
  | c :: x' => if is_space c then lstrip x' else x
  end.

(** [x.strip()] *)
Definition strip (x : str) : str := rev (lstrip (rev (lstrip x))).

(** ** extract_date_from_line *)

Definition no_date : str := Eval cbv in str_of "0000-00-00".
Definition no_last_date : str := Eval cbv in str_of "9999-99-99".
Definition chr_dash : codepoint := Eval cbv in chr "-".
Definition chr_T : codepoint := Eval cbv in chr "T".
Definition chr_space : codepoint := Eval cbv in chr " ".

Definition is_empty {A : Type} (l : list A) : bool :=
  match l with
  | [] => true
  | _ :: _ => false
  end.

Definition extract_date_from_line (line : str) : result str :=
  if is_empty line then Ok no_date
  else
    shaped <- (if 10 <=? len line then
                 c4 <- index line 4 ;;
                 if (c4 =? chr_dash)%N then
                   c7 <- index line 7 ;; Ok (c7 =? chr_dash)%N
                 else Ok false
               else Ok false) ;;
    if (shaped : bool) then
      if contains [chr_T] (firstn 19 line) then
        parts <- split [chr_T] (-1) line ;;
        index parts 0
      else Ok (firstn 10 line)
    else Ok no_date.

(** ** format_line_for_output *)

Definition field_sep : str := Eval cbv in str_of " - ".
Definition zero_fraction : str := Eval cbv in str_of ".0000".

Definition format_line_for_output (line : str) : result str :=
  if contains [chr_T] line then
    parts <- split field_sep 2 line ;;
    if 3 <=? len parts then
      part0 <- index parts 0 ;;
      let timestamp := replace [chr_T] [chr_space] part0 in
      let timestamp :=
        if contains zero_fraction timestamp
        then replace zero_fraction [] timestamp
        else timestamp in
      part1 <- index parts 1 ;;
      part2 <- index parts 2 ;;
      Ok (timestamp ++ [chr_space] ++ part1 ++ [chr_space] ++ part2)
    else Ok line
  else Ok line.

(** ** Bytes, decoding and line reads *)

Definition bytes : Type := list Byte.byte.

Definition bytes_of (lit : string) : bytes := list_byte_of_string lit.

Definition is_cont (b : N) : bool := ((128 <=? b) && (b <=? 191))%N.

(** Second byte of a three-byte sequence: E0 needs A0..BF, ED needs 80..9F. *)
Definition second_of_3 (b0 b1 : N) : bool :=
  (is_cont b1 && negb (if b1 <? 160 then b0 =? 224 else b0 =? 237))%N.

(** Second byte of a four-byte sequence: F0 needs 90..BF, F4 needs 80..8F. *)
Definition second_of_4 (b0 b1 : N) : bool :=
  (is_cont b1 && negb (if b1 <? 144 then b0 =? 240 else b0 =? 244))%N.

(** UTF-8 decoding with [errors='ignore']: an invalid start byte is dropped;
    when a continuation byte is invalid the bytes accepted so far are dropped
    and decoding resumes at the offending byte; a sequence cut short by the
    end of the input is dropped. *)
Fixpoint decode_ignore (bs : list N) : str :=
  match bs with
  | [] => []
  | b0 :: r1 =>
      if (b0 <? 128)%N then b0 :: decode_ignore r1
      else if (b0 <? 194)%N then decode_ignore r1
      else if (b0 <? 224)%N then
        match r1 with
        | [] => []
        | b1 :: r2 =>
            if is_cont b1
            then ((b0 - 192) * 64 + (b1 - 128))%N :: decode_ignore r2
            else decode_ignore r1
        end
      else if (b0 <? 240)%N then
        match r1 with
        | [] => []
        | b1 :: r2 =>
            if second_of_3 b0 b1 then
              match r2 with
              | [] => []
              | b2 :: r3 =>
                  if is_cont b2
                  then ((b0 - 224) * 4096 + (b1 - 128) * 64 + (b2 - 128))%N
                         :: decode_ignore r3
                  else decode_ignore r2
              end
            else decode_ignore r1
        end
      else if (b0 <? 245)%N then
        match r1 with
        | [] => []
        | b1 :: r2 =>
            if second_of_4 b0 b1 then
              match r2 with
              | [] => []
              | b2 :: r3 =>
                  if is_cont b2 then
                    match r3 with
                    | [] => []
                    | b3 :: r4 =>
                        if is_cont b3
                        then ((b0 - 240) * 262144 + (b1 - 128) * 4096
                              + (b2 - 128) * 64 + (b3 - 128))%N
                               :: decode_ignore r4
                        else decode_ignore r3
                    end
                  else decode_ignore r2
              end
            else decode_ignore r1
        end
      else decode_ignore r1
  end.

(** [raw.decode('utf-8', errors='ignore')] *)
Definition decode (raw : bytes) : str := decode_ignore (List.map Byte.to_N raw).

(** [raw.decode('utf-8', errors='ignore').strip()] *)
Definition text_of (raw : bytes) : str := strip (decode raw).

Definition is_newline (b : Byte.byte) : bool := (Byte.to_N b =? 10)%N.

(** The bytes up to and including the first newline, or all of them. *)
Fixpoint take_line (bs : bytes) : bytes :=
  match bs with
  | [] => []
  | b :: r => if is_newline b then [b] else b :: take_line r
  end.

(** [readline()] at offset [pos]: the line read and the offset after it.  At
    or beyond the end of the data the line is empty and the offset stays. *)
Definition readline (content : bytes) (pos : Z) : bytes * Z :=
  let line := take_line (skipn (Z.to_nat pos) content) in
  (line, pos + len line).

(** ** find_date_boundaries *)

(** [mm.seek(pos)] on a memory map: offsets outside the map are refused. *)
Definition mm_seek (mm : bytes) (pos : Z) : result Z :=
  if (0 <=? pos) && (pos <=? len mm) then Ok pos else Raise ValueError.

(** The [for _ in range(100)] loop over the tail of the file. *)
Fixpoint tail_dates (n : nat) (mm : bytes) (pos : Z) (last_date : str)
  : result str :=
  match n with
  | O => Ok last_date
  | S n' =>
      let '(raw, pos') := readline mm pos in
      let line := text_of raw in
      if is_empty line then Ok last_date
      else
        date <- extract_date_from_line line ;;
        tail_dates n' mm pos' (if is_empty date then last_date else date)
  end.

Definition find_date_boundaries (mm : bytes) (file_size : Z)
  : result (str * str) :=
  p0 <- mm_seek mm 0 ;;
  let first_line := text_of (fst (readline mm p0)) in
  first_date <- extract_date_from_line first_line ;;
  let pos := Z.max 0 (file_size - 100000) in
  p <- mm_seek mm pos ;;
  let p' := snd (readline mm p) in
  last_date <- tail_dates 100 mm p' no_last_date ;;
  Ok (first_date, last_date).

(** ** Dates: [datetime.datetime.strptime(x, '%Y-%m-%d')] *)

Record date : Type := { year : Z; month : Z; day : Z }.

Definition is_leap (y : Z) : bool :=
  (y mod 4 =? 0) && (negb (y mod 100 =? 0) || (y mod 400 =? 0)).

Definition days_in_month (y m : Z) : Z :=
  if m =? 2 then (if is_leap y then 29 else 28)
  else if (m =? 4) || (m =? 6) || (m =? 9) || (m =? 11) then 30
  else 31.

Definition days_before_year (y : Z) : Z :=
  let p := y - 1 in p * 365 + p / 4 - p / 100 + p / 400.

Definition days_before_month (y m : Z) : Z :=
  fold_left Z.add
    (List.map (days_in_month y) (List.map Z.of_nat (seq 1 (Z.to_nat (m - 1))))) 0.

(** [d.toordinal()]: day 1 is 0001-01-01. *)
Definition toordinal (d : date) : Z :=
  days_before_year (year d) + days_before_month (year d) (month d) + day d.

(** [(b - a).days] for two datetimes at midnight. *)
Definition days_between (a b : date) : Z := toordinal b - toordinal a.

(** The zero digit of every run of decimal digits of the Unicode database
    (general category Nd, Unicode 14.0 as CPython 3.11 carries it): the
    digits 0 to 9 of a script follow each other, so a run is the ten code
    points from its zero on. *)
Definition decimal_zeros : list codepoint :=
  [0x30; 0x660; 0x6F0; 0x7C0; 0x966; 0x9E6; 0xA66; 0xAE6; 0xB66; 0xBE6;
   0xC66; 0xCE6; 0xD66; 0xDE6; 0xE50; 0xED0; 0xF20; 0x1040; 0x1090; 0x17E0;
   0x1810; 0x1946; 0x19D0; 0x1A80; 0x1A90; 0x1B50; 0x1BB0; 0x1C40; 0x1C50;
   0xA620; 0xA8D0; 0xA900; 0xA9D0; 0xA9F0; 0xAA50; 0xABF0; 0xFF10; 0x104A0;
   0x10D30; 0x11066; 0x110F0; 0x11136; 0x111D0; 0x112F0; 0x11450; 0x114D0;
   0x11650; 0x116C0; 0x11730; 0x118E0; 0x11950; 0x11C50; 0x11D50; 0x11DA0;
   0x16A60; 0x16AC0; 0x16B50; 0x1D7CE; 0x1D7D8; 0x1D7E2; 0x1D7EC; 0x1D7F6;
   0x1E140; 0x1E2F0; 0x1E950; 0x1FBF0]%N.

(** [\d] of a str pattern: a decimal digit of any script, with the value
    that [int] gives it. *)
Definition digit (c : codepoint) : option Z :=
  match find (fun zero => (zero <=? c) && (c <? zero + 10))%N decimal_zeros with
  | Some zero => Some (Z.of_N (c - zero))
  | None => None
  end.

(** A bracket class such as [[0-2]]: the ASCII digits from [lo] to [hi],
    for 0 <= lo <= hi <= 9. *)
Definition digit_in (lo hi : Z) (c : codepoint) : option Z :=
  let v := Z.of_N c - 48 in
  if (lo <=? v) && (v <=? hi) then Some v else None.

(** [%m-]: the alternatives [1[0-2]], [0[1-9]], [[1-9]] in that order, then
    the literal dash.  Returns the month and the text after the dash. *)
Definition parse_month (x : str) : option (Z * str) :=
  match x with
  | a :: b :: rest =>
      let two :=
        match rest with
        | c :: rest' =>
            if (c =? chr_dash)%N then
              match digit_in 1 1 a, digit_in 0 2 b with
              | Some _, Some v => Some (10 + v, rest')
              | _, _ =>
                  match digit_in 0 0 a, digit_in 1 9 b with
                  | Some _, Some v => Some (v, rest')
                  | _, _ => None
                  end
              end
            else None
        | [] => None
        end in
      match two with
      | Some r => Some r
      | None =>
          match digit_in 1 9 a with
          | Some v => if (b =? chr_dash)%N then Some (v, rest) else None
          | None => None
          end
      end
  | _ => None
  end.

(** [%d] up to the end of the text: [3[0-1]], [[1-2]\d], [0[1-9]], [[1-9]],
    or a space and [[1-9]]; text left over is refused.  Only the second
    digit of [[1-2]\d] may come from another script. *)
Definition parse_day (x : str) : option Z :=
  match x with
  | [a] => digit_in 1 9 a
  | [a; b] =>
      match digit_in 3 3 a, digit_in 0 1 b with
      | Some _, Some v => Some (30 + v)
      | _, _ =>
          match digit_in 1 2 a, digit b with
          | Some u, Some v => Some (10 * u + v)
          | _, _ =>
              match digit_in 1 9 b with
              | Some v =>
                  if (a =? 48)%N || (a =? chr_space)%N then Some v else None
              | None => None
              end
          end
      end
  | _ => None
  end.

(** [%Y] is [\d\d\d\d]; a year 0 and a day beyond the end of the month are
    refused when the date is built. *)
Definition strptime (x : str) : result date :=
  match x with
  | y1 :: y2 :: y3 :: y4 :: dash :: rest =>
      match digit y1, digit y2, digit y3, digit y4, parse_month rest with
      | Some a, Some b, Some c, Some d, Some (m, rest') =>
          match parse_day rest' with
          | Some dd =>
              let y := 1000 * a + 100 * b + 10 * c + d in
              if (dash =? chr_dash)%N && (1 <=? y) && (dd <=? days_in_month y m)
              then Ok {| year := y; month := m; day := dd |}
              else Raise ValueError
          | None => Raise ValueError
          end
      | _, _, _, _, _ => Raise ValueError
      end
  | _ => Raise ValueError
  end.

Definition is_ok {A : Type} (r : result A) : bool :=
  match r with
  | Ok _ => true
  | Raise _ => false
  end.

Definition validate_date (date_str : str) : bool := is_ok (strptime date_str).

(** ** Floats: IEEE 754 binary64, round to nearest even *)

Definition float : Type := spec_float.

Definition fprec : Z := 53.
Definition femax : Z := 1024.

(** Conversion of an int operand to float; too large an int overflows. *)
Definition float_of_int (z : Z) : result float :=
  match binary_normalize fprec femax z 0 false with
  | S754_infinity _ => Raise OverflowError
  | f => Ok f
  end.

(** [a / b] on ints.  Both operands of the one call site are day counts,
    which binary64 holds exactly, so dividing the converted operands is the
    correctly rounded quotient. *)
Definition int_truediv (a b : Z) : result float :=
  if b =? 0 then Raise ZeroDivisionError
  else
    fa <- float_of_int a ;;
    fb <- float_of_int b ;;
    Ok (SFdiv fprec femax fa fb).

(** [n * x] for an int [n] and a float [x]. *)
Definition int_mul_float (n : Z) (x : float) : result float :=
  fn <- float_of_int n ;;
  Ok (SFmul fprec femax fn x).

(** [int(x)]: truncation toward zero. *)
Definition int_of_float (x : float) : result Z :=
  match x with
  | S754_zero _ => Ok 0
  | S754_infinity _ => Raise OverflowError
  | S754_nan => Raise ValueError
  | S754_finite sign m e =>
      let magnitude := if 0 <=? e then Z.pos m * 2 ^ e else Z.pos m / 2 ^ (- e) in
      Ok (if sign then - magnitude else magnitude)
  end.

(** ** estimate_position *)

Definition estimate_position (file_size : Z) (target_date min_date max_date : str)
  : Z :=
  let attempt :=
    target <- strptime target_date ;;
    min_d <- strptime min_date ;;
    max_d <- strptime max_date ;;
    let total_days := days_between min_d max_d in
    if total_days =? 0 then Ok 0
    else
      let target_days := days_between min_d target in
      ratio <- int_truediv target_days total_days ;;
      product <- int_mul_float file_size ratio ;;
      int_of_float product in
  match attempt with
  | Ok pos => pos
  | Raise _ => 0
  end.

(** ** The chunk plan of process_file *)

Definition chunk : Type := (Z * Z)%type.

Definition chunk_size : Z := 100 * 1024 * 1024.

(** [while start < limit: end = min(start + size, limit);
     chunks.append((start, end)); start = end] *)
Fixpoint cover (fuel : nat) (size start limit : Z) : option (list chunk) :=
  if start <? limit then
    match fuel with
    | O => None
    | S fuel' =>
        let end_ := Z.min (start + size) limit in
        match cover fuel' size end_ limit with
        | Some more => Some ((start, end_) :: more)
        | None => None
        end
    end
  else Some [].

Definition primary_chunk_size (size file_size : Z) : Z :=
  Z.min (size * 2) (file_size / 2).

Definition primary_start (size file_size estimated_pos : Z) : Z :=
  Z.max 0 (estimated_pos - primary_chunk_size size file_size / 2).

Definition primary_end (size file_size estimated_pos : Z) : Z :=
  Z.min file_size
    (primary_start size file_size estimated_pos + primary_chunk_size size file_size).

(** The list [chunks] that process_file builds, for a coverage step [size]
    (the script uses [chunk_size]). *)
Definition plan_chunks (fuel : nat) (size file_size estimated_pos : Z)
  : option (list chunk) :=
  let p_start := primary_start size file_size estimated_pos in
  let p_end := primary_end size file_size estimated_pos in
  match cover fuel size 0 p_start with
  | Some before =>
      match cover fuel size p_end file_size with
      | Some after => Some ((p_start, p_end) :: before ++ after)
      | None => None
      end
  | None => None
  end.

(** ** find_lines_for_date *)

(** One pass through the body of the [while] loop, after the line was read:
    the new [results], or the exception that the [except] clause drops. *)
Definition scan_line (target_date : str) (line : str) (results : list str)
  : result (list str) :=
  if is_empty line then Ok results
  else
    date <- extract_date_from_line line ;;
    if str_eqb date target_date then
      formatted_line <- format_line_for_output line ;;
      Ok (results ++ [formatted_line])
    else Ok results.

Fixpoint scan_loop (fuel : nat) (content : bytes) (target_date : str)
  (end_ current_pos : Z) (results : list str) : option (list str) :=
  if current_pos <? end_ then
    match fuel with
    | O => None
    | S fuel' =>
        let '(raw, pos') := readline content current_pos in
        match scan_line target_date (text_of raw) results with
        | Ok results' => scan_loop fuel' content target_date end_ pos' results'
        | Raise _ => scan_loop fuel' content target_date end_ pos' results
        end
    end
  else Some results.

(** [f.seek(start)] on a file opened for reading: any non-negative offset is
    accepted, also one beyond the end of the file. *)
Definition file_seek (pos : Z) : result Z :=
  if 0 <=? pos then Ok pos else Raise OSError.

Definition find_lines_for_date (fuel : nat) (c : chunk) (content : bytes)
  (target_date : str) : option (result (list str)) :=
  let '(start, end_) := c in
  match file_seek start with
  | Raise e => Some (Raise e)
  | Ok pos =>
      let pos := if 0 <? start then snd (readline content pos) else pos in
      match scan_loop fuel content target_date end_ pos [] with
      | Some results => Some (Ok results)
      | None => None
      end
  end.

(** ** process_file *)

Definition chr_newline : codepoint := Eval cbv in chr "010".

(** The nested [for] loops that write the output: the text written and the
    running count. *)
Definition write_results (chunk_results : list (list str)) : str * Z :=
  fold_left
    (fun acc result_set =>
       fold_left
         (fun acc line => (fst acc ++ line ++ [chr_newline], snd acc + 1))
         result_set acc)
    chunk_results ([], 0).

(** [mmap.mmap(f.fileno(), 0, access=mmap.ACCESS_READ)]: an empty file cannot
    be mapped. *)
Definition mmap (content : bytes) : result bytes :=
  if is_empty content then Raise ValueError else Ok content.

(** [pool.starmap] on a pool that starts its workers: the results in the
    order of the chunks; the call returns once every worker has returned,
    and a worker's exception is re-raised. *)
Fixpoint starmap (fuel : nat) (chunks : list chunk) (content : bytes)
  (target_date : str) : option (result (list (list str))) :=
  match chunks with
  | [] => Some (Ok [])
  | c :: chunks' =>
      match find_lines_for_date fuel c content target_date,
            starmap fuel chunks' content target_date with
      | Some r, Some rs => Some (x <- r ;; xs <- rs ;; Ok (x :: xs))
      | _, _ => None
      end
  end.

(** What a call of process_file leaves behind: its return value, the text of
    the output file if the call wrote to one, and the count it printed. *)
Record run : Type := {
  returned : bool;
  output : option str;
  count : option Z
}.

Definition failed : run :=
  {| returned := false; output := None; count := None |}.

(** The planning phase: everything inside [with open(file_path, 'rb')]. *)
Definition plan (fuel : nat) (content : bytes) (target_date : str)
  : option (result (list chunk)) :=
  let file_size := len content in
  match mmap content with
  | Raise e => Some (Raise e)
  | Ok mm =>
      match find_date_boundaries mm file_size with
      | Raise e => Some (Raise e)
      | Ok (first_date, last_date) =>
          let estimated_pos :=
            estimate_position file_size target_date first_date last_date in
          match plan_chunks fuel chunk_size file_size estimated_pos with
          | Some chunks => Some (Ok chunks)
          | None => None
          end
      end
  end.

(** *** The output file *)

Definition chr_slash : codepoint := Eval cbv in chr "/".

(** [x.lstrip('/')]; on a reversed text, [rstrip('/')]. *)
Fixpoint drop_slashes (x : str) : str :=
  match x with
  | c :: rest => if (c =? chr_slash)%N then drop_slashes rest else x
  | [] => []
  end.

(** The reverse of [p[:p.rfind('/') + 1]], from the reverse of [p]. *)
Fixpoint upto_last_slash (rev_p : str) : str :=
  match rev_p with
  | c :: rest => if (c =? chr_slash)%N then rev_p else upto_last_slash rest
  | [] => []
  end.

(** [os.path.dirname] where paths are POSIX paths: the text up to the last
    slash, without its trailing slashes unless it holds nothing else. *)
Definition dirname (p : str) : str :=
  let rev_head := upto_last_slash (rev p) in
  if is_empty rev_head || forallb (N.eqb chr_slash) rev_head then rev rev_head
  else rev (drop_slashes rev_head).

(** The part of the file system that the output step meets: whether
    [os.makedirs(name, exist_ok=True)] succeeds for a name that is not
    empty, whether [open(path, 'w')] succeeds, and whether the writes and the
    closing flush of a text go through ([None]) or one of them raises, with
    the part of the text that had reached the file by then. *)
Record disk : Type := {
  makedirs_ok : str -> bool;
  open_ok : str -> bool;
  write_fault : str -> option str
}.

(** [os.makedirs(name, exist_ok=True)]; the empty name raises
    FileNotFoundError, an OSError, on every file system. *)
Definition makedirs (d : disk) (name : str) : result unit :=
  if is_empty name then Raise OSError
  else if makedirs_ok d name then Ok tt else Raise OSError.

(** [open(path, 'w', encoding='utf-8')] *)
Definition open_w (d : disk) (path : str) : result unit :=
  if open_ok d path then Ok tt else Raise OSError.

(** The output step of process_file, inside its [try] block: the directory
    of the output file is made, the file is opened and the lines are
    written.  An exception of any of the three ends the call with False. *)
Definition write_output (d : disk) (output_file : str)
  (chunk_results : list (list str)) : run :=
  match makedirs d (dirname output_file) with
  | Raise _ => failed
  | Ok _ =>
      match open_w d output_file with
      | Raise _ => failed
      | Ok _ =>
          let '(text, n) := write_results chunk_results in
          match write_fault d text with
          | None => {| returned := true; output := Some text; count := Some n |}
          | Some written =>
              {| returned := false; output := Some written; count := None |}
          end
      end
  end.

(** [process_file(file_path, target_date, output_file)] for a readable file
    with the bytes [content], on the file system [d]. *)
Definition process_file (d : disk) (fuel : nat) (content : bytes)
  (target_date output_file : str) : option run :=
  match plan fuel content target_date with
  | None => None
  | Some (Raise _) => Some failed
  | Some (Ok chunks) =>
      match starmap fuel chunks content target_date with
      | None => None
      | Some (Raise _) => Some failed
      | Some (Ok chunk_results) =>
          Some (write_output d output_file chunk_results)
      end
  end.

(** The output file that main names for a target date. *)
Definition output_name (target_date : str) : str :=
  str_of "output/output_" ++ target_date ++ str_of ".txt".

(** ** Reference notions for the date extractor *)

(** At least ten characters, with a dash at positions 4 and 7. *)
Definition date_shaped (line : str) : bool :=
  (10 <=? List.length line)%nat
  && match nth_error line 4, nth_error line 7 with
     | Some a, Some b => (a =? chr_dash)%N && (b =? chr_dash)%N
     | _, _ => false
     end.

Definition has_char (c : codepoint) (x : str) : bool := existsb (N.eqb c) x.

(** The text before the first occurrence of [c] (all of it if there is none). *)
Fixpoint before_first (c : codepoint) (x : str) : str :=
  match x with
  | [] => []
  | a :: x' => if (a =? c)%N then [] else a :: before_first c x'
  end.

(** ** Reference notions for the line normalizer *)

(** [sep.join(parts)] *)
Fixpoint join (sep : str) (parts : list str) : str :=
  match parts with
  | [] => []
  | [p] => p
  | p :: rest => p ++ sep ++ join sep rest
  end.

Fixpoint count_loop (fuel : nat) (sub x : str) : nat :=
  match fuel with
  | O => O
  | S fuel' =>
      match find_sub sub x with
      | None => O
      | Some (_, after) => S (count_loop fuel' sub after)
      end
  end.

(** [x.count(sub)] for a non-empty [sub]: the number of non-overlapping
    occurrences, left to right. *)
Definition count_sub (sub x : str) : nat := count_loop (S (List.length x)) sub x.

(** Every [c] replaced by [d]. *)
Definition subst_char (c d : codepoint) (x : str) : str :=
  List.map (fun a => if (a =? c)%N then d else a) x.

(** [x.removesuffix(suffix)] *)
Definition remove_suffix (suffix x : str) : str :=
  let n := (List.length x - List.length suffix)%nat in
  if str_eqb (skipn n x) suffix then firstn n x else x.

(** The normalizer as the specification words it: no test for a 'T' in the
    line, and only a trailing ".0000" is removed from the timestamp. *)
Definition normalized_as_specified (line : str) : str :=
  match split_loop (S (List.length line)) field_sep 2 line with
  | [part0; part1; part2] =>
      remove_suffix zero_fraction (subst_char chr_T chr_space part0)
        ++ [chr_space] ++ part1 ++ [chr_space] ++ part2
  | _ => line
  end.

(** Sample lines used as concrete instances. *)
Definition line_plain : str := Eval cbv in str_of "a - b - c".
Definition line_structured : str :=
  Eval cbv in str_of "2024-12-01T02:49:15.0000 - INFO - service started".
Definition line_with_T_message : str :=
  Eval cbv in str_of "2024-12-01T02:49:15.0000 - ERROR - Timeout - retry - failed".

(** ** Reference notions for the position estimator *)

(** The estimate as the specification words it: exact arithmetic and a floor,
    and 0 when a date does not parse or the range is empty. *)
Definition position_as_specified (file_size : Z)
  (target_date min_date max_date : str) : Z :=
  match strptime target_date, strptime min_date, strptime max_date with
  | Ok target, Ok min_d, Ok max_d =>
      let total_days := days_between min_d max_d in
      if total_days =? 0 then 0
      else file_size * days_between min_d target / total_days
  | _, _, _ => 0
  end.

(** The value of a finite float with sign [sign], mantissa [m] and exponent
    [e], cut toward zero. *)
Definition truncate_finite (sign : bool) (m : positive) (e : Z) : Z :=
  let signed := if sign then Z.neg m else Z.pos m in
  if 0 <=? e then signed * 2 ^ e else Z.quot signed (2 ^ (- e)).

(** The binary64 number nearest to an integer, ties to even; an infinity
    when the integer is too large. *)
Definition nearest_binary64 (z : Z) : spec_float :=
  binary_normalize 53 1024 z 0 false.

(** The integer part of a float; an infinity and a NaN have none. *)
Definition integer_part (x : spec_float) : option Z :=
  match x with
  | S754_zero _ => Some 0
  | S754_finite sign m e => Some (truncate_finite sign m e)
  | S754_infinity _ => None
  | S754_nan => None
  end.

(** The estimate in IEEE 754 terms: the integers are rounded to binary64,
    the day counts divided and the file size multiplied by the quotient,
    each with one rounding, and the product is cut toward zero; 0 when the
    product has no integer part. *)
Definition truncated_product (file_size target_days total_days : Z) : Z :=
  match integer_part
          (SFmul 53 1024 (nearest_binary64 file_size)
             (SFdiv 53 1024 (nearest_binary64 target_days)
                (nearest_binary64 total_days))) with
  | Some pos => pos
  | None => 0
  end.

(** A float that is not a NaN has the sign [sign]. *)
Definition has_sign (sign : bool) (x : spec_float) : Prop :=
  match x with
  | S754_zero s => s = sign
  | S754_infinity s => s = sign
  | S754_finite s _ _ => s = sign
  | S754_nan => True
  end.

(** "２０２４-01-01": the year in fullwidth digits. *)
Definition fullwidth_jan_1 : str :=
  [0xFF12; 0xFF10; 0xFF12; 0xFF14]%N ++ str_of "-01-01".

(** ** Reference notions for the chunk plan *)

Definition in_chunk (x : Z) (c : chunk) : bool := (fst c <=? x) && (x <? snd c).

(** Two byte ranges without a common offset. *)
Definition disjoint (a b : chunk) : Prop :=
  forall x, in_chunk x a = true -> in_chunk x b = true -> False.

(** The number of chunks of a plan that hold offset [x]. *)
Definition covering (x : Z) (chunks : list chunk) : nat :=
  List.length (filter (in_chunk x) chunks).

(** A chain of non-empty ranges that starts at [a], ends at [b] and leaves no
    gap; empty when [b <= a]. *)
Inductive tiling : Z -> Z -> list chunk -> Prop :=
| tiling_done (a b : Z) : b <= a -> tiling a b []
| tiling_step (a m b : Z) (rest : list chunk) :
    a < m -> m <= b -> tiling m b rest -> tiling a b ((a, m) :: rest).

(** The chunk invariant as the specification states it. *)
Definition chunk_as_specified (file_size : Z) (c : chunk) : Prop :=
  0 <= fst c /\ fst c < snd c /\ snd c <= file_size.

Definition ascending (chunks : list chunk) : Prop :=
  StronglySorted Z.lt (List.map fst chunks).

(** The text of an output file that holds [lines], one per line. *)
Definition lines_text (lines : list str) : str :=
  flat_map (fun line => line ++ [chr_newline]) lines.

(** The output step goes through for a text: the output file has a
    directory part, the directory can be made, the file can be opened and
    the text written. *)
Definition writable (d : disk) (output_file text : str) : bool :=
  negb (is_empty (dirname output_file))
  && makedirs_ok d (dirname output_file)
  && open_ok d output_file
  && match write_fault d text with
     | None => true
     | Some _ => false
     end.

(** ** Reference notions for whole files *)

(** The lines of a file, each with its newline; a last line without one is
    kept as it is. *)
Fixpoint lines_from (current : bytes) (bs : bytes) : list bytes :=
  match bs with
  | [] => if is_empty current then [] else [rev current]
  | b :: rest =>
      if is_newline b then rev (b :: current) :: lines_from [] rest
      else lines_from (b :: current) rest
  end.

Definition file_lines (content : bytes) : list bytes := lines_from [] content.

(** A line of the file counts for [target_date] when the scanner's test
    accepts its text. *)
Definition line_matches (target_date : str) (raw : bytes) : bool :=
  let line := text_of raw in
  negb (is_empty line)
  && match extract_date_from_line line with
     | Ok date => str_eqb date target_date
     | Raise _ => false
     end.

(** The lines a complete extraction holds: every line of the file that
    counts for the target date, once. *)
Definition matching_lines (content : bytes) (target_date : str) : list bytes :=
  filter (line_matches target_date) (file_lines content).

(** Sample files. *)
Definition newline_lit : string := String "010" EmptyString.

(** Two records of 40 bytes each, both of 2024-01-01. *)
Definition same_day_file : bytes :=
  Eval cbv in
    bytes_of ("2024-01-01T08:00:00.0000 - INFO - start" ++ newline_lit
              ++ "2024-01-01T09:00:00.0000 - INFO - ready" ++ newline_lit).

(** Two records of 40 bytes each, of 2024-01-01 and 2024-01-02. *)
Definition two_day_file : bytes :=
  Eval cbv in
    bytes_of ("2024-01-01T08:00:00.0000 - INFO - start" ++ newline_lit
              ++ "2024-01-02T09:00:00.0000 - INFO - ready" ++ newline_lit).

(** Two lines without a date. *)
Definition undated_file : bytes :=
  Eval cbv in
    bytes_of ("service starting" ++ newline_lit
              ++ "no timestamps here" ++ newline_lit).

(** A file system on which every step of the output goes through, and one
    on which the output file cannot be opened. *)
Definition sound_disk : disk :=
  {| makedirs_ok := fun _ => true;
     open_ok := fun _ => true;
     write_fault := fun _ => None |}.

Definition read_only_disk : disk :=
  {| makedirs_ok := fun _ => true;
     open_ok := fun _ => false;
     write_fault := fun _ => None |}.

Definition jan_1 : str := Eval cbv in str_of "2024-01-01".
Definition jan_2 : str := Eval cbv in str_of "2024-01-02".
Definition jan_3 : str := Eval cbv in str_of "2024-01-03".

(** ** Reference notions for the scanner *)

(** The offsets at which the scan loop reads a line, in the order of the
    reads (a ghost of [scan_loop]). *)
Fixpoint read_offsets (fuel : nat) (content : bytes) (end_ current_pos : Z)
  : list Z :=
  if current_pos <? end_ then
    match fuel with
    | O => []
    | S fuel' =>
        current_pos
          :: read_offsets fuel' content end_ (snd (readline content current_pos))
    end
  else [].

(** The offset at which the scan of a chunk starts to read. *)
Definition first_read (content : bytes) (start : Z) : Z :=
  if 0 <? start then snd (readline content start) else start.

(** What the line at offset [pos] adds to the results of a scan. *)
Definition line_result (content : bytes) (target_date : str) (pos : Z)
  : list str :=
  match scan_line target_date (text_of (fst (readline content pos))) [] with
  | Ok lines => lines
  | Raise _ => []
  end.

(** ** Reference notions for the lines of a file and the chunks that read them *)

(** The lines with the offset at which each begins, from offset [pos] on. *)
Fixpoint locate (pos : Z) (lines : list bytes) : list (Z * bytes) :=
  match lines with
  | [] => []
  | line :: rest => (pos, line) :: locate (pos + len line) rest
  end.

(** Every line of the file with the offset of its first byte. *)
Definition located_lines (content : bytes) : list (Z * bytes) :=
  locate 0 (file_lines content).

Definition line_starts (content : bytes) : list Z :=
  List.map fst (located_lines content).

(** The offsets at which the scan of chunk [c] reads a line: before the end
    of the chunk and, unless the chunk starts at 0, after its start. *)
Definition scans (c : chunk) (pos : Z) : bool :=
  (if 0 <? fst c then fst c <? pos else true) && (pos <? snd c).

(** What a line of the file adds to an extraction for [target_date]: its
    normalized text if it counts for the date, nothing otherwise. *)
Definition formatted (target_date : str) (raw : bytes) : list str :=
  if line_matches target_date raw then
    match format_line_for_output (text_of raw) with
    | Ok out => [out]
    | Raise _ => []
    end
  else [].

(** The number of chunks of a plan whose scan reads a line at [pos]. *)
Definition scan_count (chunks : list chunk) (pos : Z) : nat :=
  List.length (filter (fun c => scans c pos) chunks).

(** Offset [pos] is the start of a chunk that holds it and does not start at
    offset 0. *)
Definition begins_chunk (chunks : list chunk) (pos : Z) : bool :=
  existsb (fun c => (0 <? pos) && (fst c =? pos) && (pos <? snd c)) chunks.

(** The lines that an extraction over the chunks of a plan returns, in file
    order: the normalized lines that count for the target date, without
    those that begin at the start of a chunk. *)
Definition extracted (chunks : list chunk) (target_date : str)
  (content : bytes) : list str :=
  flat_map
    (fun pl => if begins_chunk chunks (fst pl) then []
               else formatted target_date (snd pl))
    (located_lines content).

(** ** Reference notions for the boundary detector *)

(** The last date among [lines], read up to the first blank line: the text
    the extractor gives for the last line for which that text is not empty,
    or [last_date] if there is none. *)
Fixpoint last_dated (lines : list bytes) (last_date : str) : str :=
  match lines with
  | [] => last_date
  | raw :: rest =>
      let line := text_of raw in
      if is_empty line then last_date
      else match extract_date_from_line line with
           | Ok date => last_dated rest (if is_empty date then last_date else date)
           | Raise _ => last_date
           end
  end.

(** The lines of the file that begin after offset max(0, size - 100000). *)
Definition tail_window (content : bytes) : list bytes :=
  List.map snd
    (filter (fun pl => Z.max 0 (len content - 100000) <? fst pl)
       (located_lines content)).

(** ** main *)



Definition chr_dot : codepoint := Eval cbv in chr ".".

(** A text without a space, a 'T' or a dot: a date or a time of day as the
    log writes them. *)
Definition plain (x : str) : bool :=
  negb (has_char chr_space x || has_char chr_T x || has_char chr_dot x).

(** ** Reference notions for the count of written lines *)

(** A newline somewhere before the last element. *)
Definition inner_newline (x : list N) : bool := has_char 10%N (removelast x).

(** The number of newline characters of a text: the number of lines of an
    output file. *)
Definition newlines (text : str) : Z :=
  Z.of_nat (count_occ N.eq_dec text chr_newline).

(** * Properties *)

(** ** Searching, splitting and replacing *)

Lemma starts_with_char (c : codepoint) (x : str) :
  starts_with [c] x = match x with a :: _ => (c =? a)%N | [] => false end.
Proof.
  destruct x as [|a x]; simpl; [reflexivity|].
  now rewrite andb_true_r.
Qed.

Lemma find_sub_char (c : codepoint) (x : str) :
  find_sub [c] x =
  if has_char c x
  then Some (before_first c x, skipn 1 (skipn (List.length (before_first c x)) x))
  else None.
Proof.
  induction x as [|a x IH].
  - reflexivity.
  - cbn [find_sub]. rewrite starts_with_char. cbn [has_char existsb before_first].
    rewrite (N.eqb_sym a c).
    destruct (c =? a)%N eqn:E; cbn [orb].
    + reflexivity.
    + rewrite IH. fold (has_char c x).
      destruct (has_char c x); reflexivity.
Qed.

Lemma contains_char (c : codepoint) (x : str) :
  contains [c] x = has_char c x.
Proof.
  unfold contains. rewrite find_sub_char. now destruct (has_char c x).
Qed.

Lemma before_first_absent (c : codepoint) (x : str) :
  has_char c x = false -> before_first c x = x.
Proof.
  induction x as [|a x IH]; cbn; [reflexivity|].
  rewrite (N.eqb_sym a c). destruct (c =? a)%N; cbn; [discriminate|].
  intros H. now rewrite IH.
Qed.

Lemma split_char_head (c : codepoint) (x : str) :
  exists rest, split [c] (-1) x = Ok (before_first c x :: rest).
Proof.
  unfold split. cbn [split_loop]. change (-1 =? 0) with false. cbv iota.
  rewrite find_sub_char.
  destruct (has_char c x) eqn:E.
  - eexists. reflexivity.
  - exists []. now rewrite before_first_absent.
Qed.

(** ** The date extractor *)

Lemma date_shaped_nonempty (line : str) :
  date_shaped line = true -> is_empty line = false.
Proof. destruct line; [discriminate | reflexivity]. Qed.

Lemma len_ge_10 (line : str) :
  (10 <=? len line) = (10 <=? List.length line)%nat.
Proof.
  unfold len.
  destruct (10 <=? List.length line)%nat eqn:E.
  - apply Nat.leb_le in E. apply Z.leb_le. lia.
  - apply Nat.leb_gt in E. apply Z.leb_gt. lia.
Qed.

(** The guard of the extractor, with its two index reads, never raises and
    computes [date_shaped]. *)
Lemma shape_guard (line : str) :
  (if 10 <=? len line then
     c4 <- index line 4 ;;
     if (c4 =? chr_dash)%N then
       c7 <- index line 7 ;; Ok (c7 =? chr_dash)%N
     else Ok false
   else Ok false) = Ok (date_shaped line).
Proof.
  unfold date_shaped, index. rewrite len_ge_10.
  destruct (10 <=? List.length line)%nat eqn:E; [|reflexivity].
  apply Nat.leb_le in E.
  destruct (nth_error line 4) as [a|] eqn:E4.
  2:{ apply nth_error_None in E4. lia. }
  destruct (nth_error line 7) as [b|] eqn:E7.
  2:{ apply nth_error_None in E7. lia. }
  cbn. destruct (a =? chr_dash)%N; reflexivity.
Qed.

(** C6: the date extractor never raises; it returns the text before the first
    'T' when the line is date-shaped (ten characters or more, a dash at
    positions 4 and 7) and a 'T' occurs among its first 19 characters, the
    first ten characters when the line is date-shaped without such a 'T', and
    "0000-00-00" for every other line, the empty line included. *)
Theorem extract_date_from_line_spec (line : str) :
  extract_date_from_line line =
  Ok (if date_shaped line then
        if has_char chr_T (firstn 19 line) then before_first chr_T line
        else firstn 10 line
      else no_date).
Proof.
  unfold extract_date_from_line.
  destruct (is_empty line) eqn:Hempty.
  - destruct line; [reflexivity | discriminate].
  - rewrite shape_guard. cbn [bind].
    destruct (date_shaped line); [|reflexivity].
    rewrite contains_char.
    destruct (has_char chr_T (firstn 19 line)); [|reflexivity].
    destruct (split_char_head chr_T line) as [rest ->]. reflexivity.
Qed.

(** ** More on searching, splitting and replacing *)

Lemma starts_with_app (p x : str) :
  starts_with p x = true -> x = p ++ skipn (List.length p) x.
Proof.
  revert x. induction p as [|a p IH]; intros x H; [reflexivity|].
  destruct x as [|b x]; [discriminate|].
  cbn in H. apply andb_prop in H as [Hab Hp].
  apply N.eqb_eq in Hab. subst b. cbn. f_equal. now apply IH.
Qed.

Lemma find_sub_app (sub x before after : str) :
  find_sub sub x = Some (before, after) -> x = before ++ sub ++ after.
Proof.
  revert before after. induction x as [|c x IH]; intros before after.
  - cbn. destruct (starts_with sub []) eqn:E; [|discriminate].
    intros [= <- <-]. now apply starts_with_app in E.
  - cbn [find_sub]. destruct (starts_with sub (c :: x)) eqn:E.
    + intros [= <- <-]. now apply starts_with_app in E.
    + destruct (find_sub sub x) as [[b a]|]; [|discriminate].
      intros [= <- <-]. cbn. f_equal. now apply IH.
Qed.

Lemma find_sub_shorter (sub x before after : str) :
  sub <> [] -> find_sub sub x = Some (before, after) ->
  (List.length after < List.length x)%nat.
Proof.
  intros Hsub H. apply find_sub_app in H. subst x.
  rewrite !length_app. destruct sub; [congruence|]. cbn. lia.
Qed.

(** The fuel given by [split] is never used up. *)
Lemma split_loop_fuel (sep : str) (f1 f2 : nat) (maxsplit : Z) (x : str) :
  sep <> [] -> (List.length x < f1)%nat -> (List.length x < f2)%nat ->
  split_loop f1 sep maxsplit x = split_loop f2 sep maxsplit x.
Proof.
  intros Hsep. revert f2 maxsplit x.
  induction f1 as [|f1 IH]; intros f2 maxsplit x H1 H2; [lia|].
  destruct f2 as [|f2]; [lia|]. cbn [split_loop].
  destruct (maxsplit =? 0); [reflexivity|].
  destruct (find_sub sep x) as [[b a]|] eqn:E; [|reflexivity].
  f_equal. pose proof (find_sub_shorter _ _ _ _ Hsep E). apply IH; lia.
Qed.

Lemma replace_loop_fuel (old new : str) (f1 f2 : nat) (x : str) :
  old <> [] -> (List.length x < f1)%nat -> (List.length x < f2)%nat ->
  replace_loop f1 old new x = replace_loop f2 old new x.
Proof.
  intros Hold. revert f2 x.
  induction f1 as [|f1 IH]; intros f2 x H1 H2; [lia|].
  destruct f2 as [|f2]; [lia|]. cbn [replace_loop].
  destruct (find_sub old x) as [[b a]|] eqn:E; [|reflexivity].
  do 2 f_equal. pose proof (find_sub_shorter _ _ _ _ Hold E). apply IH; lia.
Qed.

(** Splitting cuts the text at separators and loses nothing. *)
Lemma split_loop_join (fuel : nat) (sep : str) (maxsplit : Z) (x : str) :
  join sep (split_loop fuel sep maxsplit x) = x.
Proof.
  revert maxsplit x. induction fuel as [|fuel IH]; intros maxsplit x.
  - reflexivity.
  - cbn [split_loop]. destruct (maxsplit =? 0); [reflexivity|].
    destruct (find_sub sep x) as [[b a]|] eqn:E; [|reflexivity].
    apply find_sub_app in E. subst x.
    specialize (IH (maxsplit - 1) a).
    cbn [join]. destruct (split_loop fuel sep (maxsplit - 1) a) eqn:E'.
    + destruct fuel; cbn in E'; [discriminate|].
      destruct (maxsplit - 1 =? 0); [discriminate|].
      destruct (find_sub sep a) as [[? ?]|]; discriminate.
    + now rewrite IH.
Qed.

(** The number of parts is one more than the number of separators found, up
    to the limit. *)
Lemma split_loop_length (fuel : nat) (sep : str) (maxsplit : Z) (x : str) :
  0 <= maxsplit ->
  List.length (split_loop fuel sep maxsplit x) =
  S (Nat.min (count_loop fuel sep x) (Z.to_nat maxsplit)).
Proof.
  revert maxsplit x. induction fuel as [|fuel IH]; intros maxsplit x Hm.
  - reflexivity.
  - cbn [split_loop count_loop].
    destruct (maxsplit =? 0) eqn:E0.
    + apply Z.eqb_eq in E0. subst. cbn. now rewrite Nat.min_0_r.
    + apply Z.eqb_neq in E0.
      destruct (find_sub sep x) as [[b a]|]; [|reflexivity].
      cbn [List.length]. rewrite IH by lia.
      replace (Z.to_nat maxsplit) with (S (Z.to_nat (maxsplit - 1))) by lia.
      reflexivity.
Qed.

Lemma has_char_app (c : codepoint) (x y : str) :
  has_char c (x ++ y) = has_char c x || has_char c y.
Proof. apply existsb_app. Qed.

Lemma contains_absent (old x : str) :
  contains old x = false -> find_sub old x = None.
Proof. unfold contains. now destruct (find_sub old x). Qed.

Lemma replace_absent (old new x : str) :
  old <> [] -> contains old x = false -> replace old new x = x.
Proof.
  intros Hold H. destruct old; [congruence|].
  unfold replace. cbn [replace_loop]. now rewrite (contains_absent _ _ H).
Qed.

(** Replacing a one-character text replaces each of its occurrences. *)
Lemma subst_char_before_first (c d : codepoint) (x : str) :
  subst_char c d (before_first c x) = before_first c x.
Proof.
  induction x as [|a x IH]; [reflexivity|].
  cbn. destruct (a =? c)%N eqn:E; [reflexivity|].
  cbn. rewrite E. f_equal. exact IH.
Qed.

Lemma subst_char_id (c d : codepoint) (x : str) :
  has_char c x = false -> subst_char c d x = x.
Proof.
  induction x as [|a x IH]; [reflexivity|].
  cbn. rewrite (N.eqb_sym c a). destruct (a =? c)%N; [discriminate|].
  cbn. intros H. f_equal. now apply IH.
Qed.

Lemma replace_loop_char (fuel : nat) (c d : codepoint) (x : str) :
  (List.length x < fuel)%nat ->
  replace_loop fuel [c] [d] x = subst_char c d x.
Proof.
  revert x. induction fuel as [|fuel IH]; intros x Hlen; [lia|].
  cbn [replace_loop].
  destruct (find_sub [c] x) as [[b a]|] eqn:E.
  - pose proof (find_sub_app _ _ _ _ E) as Hx.
    assert (Hlt : (List.length a < List.length x)%nat)
      by (apply (find_sub_shorter [c] x b a); [discriminate | exact E]).
    rewrite find_sub_char in E.
    destruct (has_char c x); [|discriminate].
    injection E as Hb _.
    rewrite IH by lia.
    rewrite Hx.
    unfold subst_char. rewrite !map_app. cbn [List.map app].
    rewrite N.eqb_refl. f_equal.
    rewrite <- Hb. symmetry. apply subst_char_before_first.
  - rewrite find_sub_char in E.
    destruct (has_char c x) eqn:Hc; [discriminate|].
    symmetry. now apply subst_char_id.
Qed.

Lemma replace_char (c d : codepoint) (x : str) :
  replace [c] [d] x = subst_char c d x.
Proof. unfold replace. apply replace_loop_char. lia. Qed.

Lemma subst_char_absent (c d : codepoint) (x : str) :
  c <> d -> has_char c (subst_char c d x) = false.
Proof.
  intros Hcd. induction x as [|a x IH]; [reflexivity|].
  unfold subst_char, has_char in *. cbn [List.map existsb].
  rewrite IH, orb_false_r.
  destruct (a =? c)%N eqn:E.
  - now apply N.eqb_neq.
  - rewrite N.eqb_sym. exact E.
Qed.

(** Deleting occurrences of a text introduces no character. *)
Lemma replace_loop_delete_absent (fuel : nat) (c : codepoint) (old x : str) :
  has_char c x = false -> has_char c (replace_loop fuel old [] x) = false.
Proof.
  revert x. induction fuel as [|fuel IH]; intros x H; [exact H|].
  cbn [replace_loop].
  destruct (find_sub old x) as [[b a]|] eqn:E; [|exact H].
  apply find_sub_app in E. subst x.
  rewrite !has_char_app in H.
  apply orb_false_elim in H as [Hb H]. apply orb_false_elim in H as [_ Ha].
  cbn [app]. rewrite has_char_app, Hb. cbn. now apply IH.
Qed.

(** ** The line normalizer *)

Lemma format_line_without_T (line : str) :
  has_char chr_T line = false -> format_line_for_output line = Ok line.
Proof.
  intros H. unfold format_line_for_output. now rewrite contains_char, H.
Qed.

Lemma split_field_sep (line : str) :
  split field_sep 2 line =
  Ok (split_loop (S (List.length line)) field_sep 2 line).
Proof. reflexivity. Qed.

Lemma split_field_sep_length (line : str) :
  List.length (split_loop (S (List.length line)) field_sep 2 line) =
  S (Nat.min (count_sub field_sep line) 2).
Proof. unfold count_sub. now rewrite split_loop_length. Qed.

(** The membership test before the second [replace] changes nothing. *)
Lemma guarded_delete (old x : str) :
  old <> [] ->
  (if contains old x then replace old [] x else x) = replace old [] x.
Proof.
  intros Hold. destruct (contains old x) eqn:E; [reflexivity|].
  symmetry. now apply replace_absent.
Qed.

Lemma format_line_cases (line : str) :
  format_line_for_output line =
  Ok (match split_loop (S (List.length line)) field_sep 2 line with
      | [part0; part1; part2] =>
          if has_char chr_T line then
            replace zero_fraction [] (subst_char chr_T chr_space part0)
              ++ [chr_space] ++ part1 ++ [chr_space] ++ part2
          else line
      | _ => line
      end).
Proof.
  unfold format_line_for_output.
  rewrite contains_char, split_field_sep.
  pose proof (split_field_sep_length line) as Hlen.
  destruct (split_loop (S (List.length line)) field_sep 2 line)
    as [|p0 [|p1 [|p2 [|p3 rest]]]];
    destruct (has_char chr_T line); try reflexivity.
  - cbn [bind len List.length Z.of_nat Z.leb index nth_error].
    change (3 <=? Z.of_nat 3) with true. cbv iota.
    rewrite replace_char, guarded_delete by discriminate. reflexivity.
  - cbn [List.length] in Hlen. lia.
Qed.

(** C7 as stated fails: a line without a 'T' is returned as it is even when
    it splits into three parts, where the stated rule gives "a b c". *)
Lemma format_line_keeps_line_without_T :
  split field_sep 2 line_plain = Ok [str_of "a"; str_of "b"; str_of "c"]
  /\ format_line_for_output line_plain = Ok line_plain
  /\ format_line_for_output line_plain <> Ok (normalized_as_specified line_plain).
Proof.
  split; [reflexivity|]. split; [reflexivity|].
  vm_compute. discriminate.
Qed.

(** C7 (amended): the normalizer never raises.  It splits the line at the
    first two occurrences of " - " into at most three parts, which joined by
    " - " give the line back; there are fewer than three parts exactly when
    the line has fewer than two occurrences of " - ".  A line that has no 'T'
    or yields fewer than three parts is returned unchanged; a line that has a
    'T' and yields three parts becomes part 1 with every 'T' replaced by a
    space and every occurrence of ".0000" removed, then a space, part 2, a
    space and part 3. *)
Theorem format_line_for_output_spec (line : str) :
  exists parts : list str,
    split field_sep 2 line = Ok parts
    /\ join field_sep parts = line
    /\ List.length parts = S (Nat.min (count_sub field_sep line) 2)
    /\ format_line_for_output line =
       Ok (match parts with
           | [part0; part1; part2] =>
               if has_char chr_T line then
                 replace zero_fraction [] (subst_char chr_T chr_space part0)
                   ++ [chr_space] ++ part1 ++ [chr_space] ++ part2
               else line
           | _ => line
           end).
Proof.
  exists (split_loop (S (List.length line)) field_sep 2 line).
  split; [apply split_field_sep|].
  split; [apply split_loop_join|].
  split; [apply split_field_sep_length|].
  apply format_line_cases.
Qed.

(** C8 as stated fails: normalizing the result of normalizing a structured
    line changes it again when the message holds a 'T' and two " - ". *)
Lemma format_line_not_idempotent :
  exists part0 part1 part2 out,
    split field_sep 2 line_with_T_message = Ok [part0; part1; part2]
    /\ format_line_for_output line_with_T_message = Ok out
    /\ format_line_for_output out <> Ok out.
Proof.
  do 4 eexists. split; [reflexivity|]. split; [reflexivity|].
  vm_compute. discriminate.
Qed.

Lemma replace_loop_delete_length (fuel : nat) (old x : str) :
  (List.length (replace_loop fuel old [] x) <= List.length x)%nat.
Proof.
  revert x. induction fuel as [|fuel IH]; intros x; [reflexivity|].
  cbn [replace_loop].
  destruct (find_sub old x) as [[b a]|] eqn:E; [|reflexivity].
  apply find_sub_app in E. subst x. specialize (IH a).
  cbn [app]. rewrite !length_app. lia.
Qed.

(** The lines that the normalizer returns as they are: those without a 'T'
    and those with fewer than two " - ".  Every other line gets shorter. *)
Lemma format_line_fixed_point (line : str) :
  format_line_for_output line = Ok line
  <-> has_char chr_T line = false \/ (count_sub field_sep line < 2)%nat.
Proof.
  rewrite format_line_cases.
  pose proof (split_field_sep_length line) as Hlen.
  pose proof (split_loop_join (S (List.length line)) field_sep 2 line) as Hjoin.
  destruct (split_loop (S (List.length line)) field_sep 2 line)
    as [|p0 [|p1 [|p2 [|p3 rest]]]]; cbn [List.length] in Hlen.
  1-3,5: split; [intros _; right; lia | reflexivity].
  destruct (has_char chr_T line) eqn:HT.
  - split.
    + intros H. exfalso.
      assert (Hle : (List.length
                       (replace zero_fraction []
                          (subst_char chr_T chr_space p0))
                     <= List.length p0)%nat).
      { unfold replace, zero_fraction.
        etransitivity; [apply replace_loop_delete_length|].
        unfold subst_char. now rewrite length_map. }
      remember (replace zero_fraction [] (subst_char chr_T chr_space p0))
        as ts eqn:Ets.
      clear Ets. injection H as H.
      apply (f_equal (@List.length codepoint)) in H.
      rewrite <- Hjoin in H. cbn [join] in H.
      rewrite !length_app in H.
      change (List.length field_sep) with 3%nat in H.
      cbn [List.length app] in H. rewrite length_app in H.
      cbn [List.length] in H. lia.
    + intros [H|H]; [discriminate | lia].
  - split; [now left | reflexivity].
Qed.

(** C8 (amended): the normalizer returns a line for every line, and a second
    normalization returns that line unchanged exactly when it holds no 'T' or
    fewer than two occurrences of " - ".  So the normalized form of a
    structured line is kept by a second pass unless what followed the
    timestamp brought both a 'T' and two " - " with it. *)
Theorem format_line_idempotent (line : str) :
  exists out,
    format_line_for_output line = Ok out
    /\ (format_line_for_output out = Ok out
        <-> has_char chr_T out = false
            \/ (count_sub field_sep out < 2)%nat).
Proof.
  eexists. split; [apply format_line_cases | apply format_line_fixed_point].
Qed.

(** ** The position estimator *)

Lemma int_of_float_finite (sign : bool) (m : positive) (e : Z) :
  int_of_float (S754_finite sign m e) = Ok (truncate_finite sign m e).
Proof.
  unfold int_of_float, truncate_finite.
  destruct (0 <=? e) eqn:He.
  - destruct sign; [|reflexivity]. f_equal.
    change (Z.neg m) with (- Z.pos m). ring.
  - apply Z.leb_gt in He. f_equal.
    assert (Hpow : 0 < 2 ^ (- e)) by (apply Z.pow_pos_nonneg; lia).
    destruct sign.
    + change (Z.neg m) with (- Z.pos m).
      rewrite Z.quot_opp_l by lia. f_equal.
      symmetry. apply Z.quot_div_nonneg; lia.
    + symmetry. apply Z.quot_div_nonneg; lia.
Qed.

(** C9 as stated fails: for a target date before the first date the estimate
    is cut toward zero, not floored (-500 for -500.5, where the floor is
    -501); and the product is formed in binary64, so that 49 * (1 / 49) is
    just below 1 and gives 0, where exact arithmetic gives 1. *)
Lemma estimate_position_not_floor :
  estimate_position 1001 (str_of "2024-01-02") (str_of "2024-01-03")
    (str_of "2024-01-05") = -500
  /\ position_as_specified 1001 (str_of "2024-01-02") (str_of "2024-01-03")
       (str_of "2024-01-05") = -501
  /\ estimate_position 49 (str_of "2024-01-02") (str_of "2024-01-01")
       (str_of "2024-02-19") = 0
  /\ position_as_specified 49 (str_of "2024-01-02") (str_of "2024-01-01")
       (str_of "2024-02-19") = 1.
Proof. repeat split; vm_compute; reflexivity. Qed.

(** The exceptions of the float arithmetic and the values without an integer
    part all end in 0, so the estimate needs no case for them. *)
Lemma estimate_position_cases (file_size : Z) (target_date min_date max_date : str) :
  estimate_position file_size target_date min_date max_date =
  match strptime target_date, strptime min_date, strptime max_date with
  | Ok target, Ok min_d, Ok max_d =>
      if days_between min_d max_d =? 0 then 0
      else truncated_product file_size (days_between min_d target)
             (days_between min_d max_d)
  | _, _, _ => 0
  end.
Proof.
  unfold estimate_position.
  destruct (strptime target_date) as [target|]; [|reflexivity].
  destruct (strptime min_date) as [min_d|]; [|reflexivity].
  destruct (strptime max_date) as [max_d|]; [|reflexivity].
  cbn [bind]. destruct (days_between min_d max_d =? 0) eqn:E0; [reflexivity|].
  unfold truncated_product, int_truediv, int_mul_float, float_of_int,
    nearest_binary64, fprec, femax.
  rewrite E0.
  generalize (binary_normalize 53 1024 (days_between min_d target) 0 false).
  generalize (binary_normalize 53 1024 (days_between min_d max_d) 0 false).
  generalize (binary_normalize 53 1024 file_size 0 false).
  intros C B A.
  destruct A as [sa|sa| |sa ma ea], B as [sb|sb| |sb mb eb];
    cbn [bind SFdiv]; try (destruct C; reflexivity).
  all: try (destruct C; cbn [bind SFmul]; try reflexivity).
  all: try (match goal with
            | |- context [SFdiv_core_binary ?p ?e ?a ?b ?c ?d] =>
                destruct (SFdiv_core_binary p e a b c d) as [[mz ez] lz]
            end;
            match goal with
            | |- context [binary_round_aux ?p ?e ?s ?m ?x ?l] =>
                destruct (binary_round_aux p e s m x l)
            end; cbn [bind SFmul int_of_float integer_part]; try reflexivity).
  all: try (match goal with
            | |- context [binary_round_aux ?p ?e ?s ?m ?x ?l] =>
                destruct (binary_round_aux p e s m x l)
            end; cbn [bind int_of_float integer_part]; try reflexivity).
  all: match goal with
       | |- _ = truncate_finite ?s ?m ?e =>
           pose proof (int_of_float_finite s m e) as H;
           unfold int_of_float in H; now injection H
       end.
Qed.

Lemma estimate_position_same_bounds (file_size : Z) (target_date bound : str) :
  estimate_position file_size target_date bound bound = 0.
Proof.
  rewrite estimate_position_cases.
  destruct (strptime target_date); [|reflexivity].
  destruct (strptime bound); [|reflexivity].
  unfold days_between. now rewrite Z.sub_diag.
Qed.

(** *** The sign of the estimate *)

Lemma binary_round_aux_sign (sx : bool) (m e : Z) (l : location) :
  has_sign sx (binary_round_aux 53 1024 sx m e l).
Proof.
  unfold binary_round_aux.
  destruct (shr_fexp 53 1024 m e l) as [mrs' e'].
  destruct (shr_fexp 53 1024 _ e' loc_Exact) as [mrs'' e''].
  destruct (shr_m mrs''); [reflexivity| |exact I].
  destruct (e'' <=? 1024 - 53); reflexivity.
Qed.

Lemma nearest_binary64_sign (z : Z) : has_sign (z <? 0) (nearest_binary64 z).
Proof.
  unfold nearest_binary64, binary_normalize, binary_round.
  destruct z as [|p|p]; [reflexivity| |];
    destruct (shl_align p 0 _) as [mz ez]; apply binary_round_aux_sign.
Qed.

Lemma SFdiv_sign (sa sb : bool) (a b : spec_float) :
  has_sign sa a -> has_sign sb b ->
  has_sign (xorb sa sb) (SFdiv 53 1024 a b).
Proof.
  destruct a as [s|s| |s ma ea], b as [s'|s'| |s' mb eb]; cbn [has_sign SFdiv];
    try (intros -> ->; reflexivity); try (intros; exact I).
  intros -> ->.
  destruct (SFdiv_core_binary 53 1024 (Z.pos ma) ea (Z.pos mb) eb)
    as [[mz ez] lz].
  apply binary_round_aux_sign.
Qed.

Lemma SFmul_sign (sa sb : bool) (a b : spec_float) :
  has_sign sa a -> has_sign sb b ->
  has_sign (xorb sa sb) (SFmul 53 1024 a b).
Proof.
  destruct a as [s|s| |s ma ea], b as [s'|s'| |s' mb eb]; cbn [has_sign SFmul];
    try (intros -> ->; reflexivity); try (intros; exact I).
  intros -> ->. apply binary_round_aux_sign.
Qed.

Lemma truncate_finite_sign (sign : bool) (m : positive) (e : Z) :
  if sign then truncate_finite sign m e <= 0 else 0 <= truncate_finite sign m e.
Proof.
  unfold truncate_finite.
  destruct (Z.leb_spec 0 e) as [He|He].
  - pose proof (Z.pow_nonneg 2 e ltac:(lia)). destruct sign; nia.
  - assert (Hpow : 0 < 2 ^ (- e)) by (apply Z.pow_pos_nonneg; lia).
    destruct sign.
    + change (Z.neg m) with (- Z.pos m). rewrite Z.quot_opp_l by lia.
      pose proof (Z.quot_pos (Z.pos m) (2 ^ (- e)) ltac:(lia) Hpow). lia.
    + apply Z.quot_pos; lia.
Qed.

Lemma integer_part_sign (sign : bool) (x : spec_float) (z : Z) :
  has_sign sign x -> integer_part x = Some z ->
  if sign then z <= 0 else 0 <= z.
Proof.
  destruct x as [s|s| |s m e]; cbn [has_sign integer_part]; try discriminate.
  - intros _ [= <-]. destruct sign; lia.
  - intros -> [= <-]. apply truncate_finite_sign.
Qed.

(** No product without a day count, a range or a file. *)
Lemma truncated_product_zero_days (file_size total_days : Z) :
  truncated_product file_size 0 total_days = 0.
Proof.
  unfold truncated_product. change (nearest_binary64 0) with (S754_zero false).
  destruct (nearest_binary64 total_days), (nearest_binary64 file_size);
    reflexivity.
Qed.

Lemma truncated_product_zero_range (file_size target_days : Z) :
  truncated_product file_size target_days 0 = 0.
Proof.
  unfold truncated_product. change (nearest_binary64 0) with (S754_zero false).
  destruct (nearest_binary64 target_days), (nearest_binary64 file_size);
    reflexivity.
Qed.

Lemma truncated_product_zero_size (target_days total_days : Z) :
  truncated_product 0 target_days total_days = 0.
Proof.
  unfold truncated_product. change (nearest_binary64 0) with (S754_zero false).
  destruct (SFdiv 53 1024 (nearest_binary64 target_days)
              (nearest_binary64 total_days)); reflexivity.
Qed.

(** The product has the sign that exact arithmetic gives it. *)
Lemma truncated_product_sign (file_size target_days total_days : Z) :
  0 <= file_size ->
  (0 <= target_days * total_days ->
   0 <= truncated_product file_size target_days total_days)
  /\ (target_days * total_days <= 0 ->
      truncated_product file_size target_days total_days <= 0).
Proof.
  intros Hfs.
  destruct (Z.eq_dec target_days 0) as [->|Htd];
    [rewrite truncated_product_zero_days; lia|].
  destruct (Z.eq_dec total_days 0) as [->|Htot];
    [rewrite truncated_product_zero_range; lia|].
  pose proof (SFmul_sign _ _ _ _ (nearest_binary64_sign file_size)
                (SFdiv_sign _ _ _ _ (nearest_binary64_sign target_days)
                   (nearest_binary64_sign total_days))) as Hsign.
  unfold truncated_product.
  destruct (integer_part _) as [z|] eqn:Ez; [|lia].
  pose proof (integer_part_sign _ _ _ Hsign Ez) as Hz.
  destruct (Z.ltb_spec file_size 0); [lia|].
  destruct (Z.ltb_spec target_days 0), (Z.ltb_spec total_days 0);
    cbn [xorb] in Hz; split; intros; nia.
Qed.

(** C9 (amended): the estimate is 0 when one of the three dates does not
    parse and 0 when the first and the last date are the same day, in
    particular when the two texts are equal; otherwise it is the integer part
    of a binary64 product: the day counts and the file size are rounded to
    binary64, the day counts divided and the file size multiplied by the
    quotient, each with one rounding to nearest, and the product is cut
    toward zero (so rounded up, not floored, when it is negative), with 0 if
    the product is infinite or not a number.  The result is 0 for a target on
    the first day and for a file of size 0, and, for a file size that is not
    negative, it is never below 0 for a target on the side of the last date
    and never above 0 for a target on the other side of the first date.  A
    date may be written in the decimal digits of any script. *)
Theorem estimate_position_spec (file_size : Z) (target_date min_date max_date : str) :
  estimate_position file_size target_date min_date max_date =
    match strptime target_date, strptime min_date, strptime max_date with
    | Ok target, Ok min_d, Ok max_d =>
        if days_between min_d max_d =? 0 then 0
        else
          match integer_part
                  (SFmul 53 1024 (nearest_binary64 file_size)
                     (SFdiv 53 1024
                        (nearest_binary64 (days_between min_d target))
                        (nearest_binary64 (days_between min_d max_d)))) with
          | Some pos => pos
          | None => 0
          end
    | _, _, _ => 0
    end
  /\ estimate_position file_size target_date min_date min_date = 0
  /\ estimate_position 0 target_date min_date max_date = 0
  /\ (forall target min_d max_d,
        strptime target_date = Ok target ->
        strptime min_date = Ok min_d ->
        strptime max_date = Ok max_d ->
        let target_days := days_between min_d target in
        let total_days := days_between min_d max_d in
        (target_days = 0 ->
         estimate_position file_size target_date min_date max_date = 0)
        /\ (0 <= file_size -> 0 <= target_days * total_days ->
            0 <= estimate_position file_size target_date min_date max_date)
        /\ (0 <= file_size -> target_days * total_days <= 0 ->
            estimate_position file_size target_date min_date max_date <= 0))
  /\ (forall sign m e,
        int_of_float (S754_finite sign m e) = Ok (truncate_finite sign m e)
        /\ integer_part (S754_finite sign m e)
           = Some (if 0 <=? e
                   then (if sign then Z.neg m else Z.pos m) * 2 ^ e
                   else Z.quot (if sign then Z.neg m else Z.pos m)
                          (2 ^ (- e))))
  /\ strptime fullwidth_jan_1 = Ok {| year := 2024; month := 1; day := 1 |}
  /\ estimate_position 1000 jan_2 fullwidth_jan_1 (str_of "2024-01-05") = 250.
Proof.
  split; [apply estimate_position_cases|].
  split; [apply estimate_position_same_bounds|].
  split.
  { rewrite estimate_position_cases.
    destruct (strptime target_date); [|reflexivity].
    destruct (strptime min_date); [|reflexivity].
    destruct (strptime max_date); [|reflexivity].
    rewrite truncated_product_zero_size. now destruct (_ =? 0). }
  split.
  { intros target min_d max_d Ht Hmin Hmax target_days total_days.
    rewrite estimate_position_cases, Ht, Hmin, Hmax.
    fold target_days total_days.
    split; [|split].
    - intros ->. rewrite truncated_product_zero_days. now destruct (_ =? 0).
    - intros Hfs Hs. destruct (_ =? 0); [lia|].
      now apply truncated_product_sign.
    - intros Hfs Hs. destruct (_ =? 0); [lia|].
      now apply truncated_product_sign. }
  split; [intros sign m e; split; [apply int_of_float_finite | reflexivity]|].
  split; vm_compute; reflexivity.
Qed.

(** ** The chunk plan *)

Section Cover.

Variable size : Z.
Hypothesis size_pos : 0 < size.

(** The coverage loop ends: a step count that spans the range is enough
    fuel, and more fuel changes nothing. *)
Lemma cover_fuel (f1 f2 : nat) (start limit : Z) :
  limit - start <= size * Z.of_nat f1 ->
  limit - start <= size * Z.of_nat f2 ->
  cover f1 size start limit = cover f2 size start limit.
Proof.
  revert f2 start. induction f1 as [|f1 IH]; intros f2 start H1 H2.
  - destruct f2; cbn [cover];
      (destruct (start <? limit) eqn:E; [apply Z.ltb_lt in E; lia | reflexivity]).
  - destruct f2 as [|f2]; cbn [cover].
    + destruct (start <? limit) eqn:E; [apply Z.ltb_lt in E; lia | reflexivity].
    + destruct (start <? limit) eqn:E; [|reflexivity].
      apply Z.ltb_lt in E. rewrite (IH f2); [reflexivity | lia | lia].
Qed.

Lemma cover_tiling (fuel : nat) (start limit : Z) :
  limit - start <= size * Z.of_nat fuel ->
  exists chunks, cover fuel size start limit = Some chunks
                 /\ tiling start limit chunks.
Proof.
  revert start. induction fuel as [|fuel IH]; intros start H; cbn [cover].
  - destruct (start <? limit) eqn:E; [apply Z.ltb_lt in E; lia|].
    apply Z.ltb_ge in E. exists []. split; [reflexivity | now constructor].
  - destruct (start <? limit) eqn:E.
    + apply Z.ltb_lt in E.
      destruct (IH (Z.min (start + size) limit)) as [rest [-> Ht]]; [lia|].
      eexists. split; [reflexivity|].
      constructor; [lia | lia | exact Ht].
    + apply Z.ltb_ge in E. exists []. split; [reflexivity | now constructor].
Qed.

End Cover.

Lemma tiling_bounds (a b : Z) (chunks : list chunk) :
  tiling a b chunks ->
  Forall (fun c => a <= fst c /\ fst c < snd c /\ snd c <= b) chunks.
Proof.
  induction 1 as [|a m b rest Ham Hmb _ IH]; constructor.
  - cbn. lia.
  - eapply Forall_impl; [|exact IH]. cbn. intros c Hc. lia.
Qed.

Lemma tiling_covering (a b : Z) (chunks : list chunk) (x : Z) :
  tiling a b chunks ->
  covering x chunks = if (a <=? x) && (x <? b) then 1%nat else 0%nat.
Proof.
  unfold covering.
  induction 1 as [a b Hab|a m b rest Ham Hmb _ IH].
  - cbn. destruct (Z.leb_spec a x), (Z.ltb_spec x b); try reflexivity. lia.
  - cbn [filter]. unfold in_chunk at 1. cbn [fst snd].
    destruct (Z.leb_spec a x), (Z.ltb_spec x m); cbn [andb List.length];
      rewrite IH;
      destruct (Z.leb_spec m x), (Z.ltb_spec x b); cbn [andb];
      try reflexivity; lia.
Qed.

Lemma tiling_ascending (a b : Z) (chunks : list chunk) :
  tiling a b chunks -> ascending chunks.
Proof.
  unfold ascending.
  induction 1 as [|a m b rest Ham Hmb Ht IH]; cbn; constructor.
  - exact IH.
  - apply tiling_bounds in Ht. rewrite Forall_map.
    eapply Forall_impl; [|exact Ht]. cbn. intros c Hc. lia.
Qed.

Lemma covering_app (x : Z) (l1 l2 : list chunk) :
  covering x (l1 ++ l2) = (covering x l1 + covering x l2)%nat.
Proof. unfold covering. now rewrite filter_app, length_app. Qed.

Lemma covering_positive (x : Z) (chunks : list chunk) :
  (exists c, In c chunks /\ in_chunk x c = true) <-> (0 < covering x chunks)%nat.
Proof.
  unfold covering. split.
  - intros [c [Hin Hc]].
    assert (H : In c (filter (in_chunk x) chunks)) by (apply filter_In; auto).
    destruct (filter (in_chunk x) chunks); [contradiction | cbn; lia].
  - intros H. destruct (filter (in_chunk x) chunks) as [|c l] eqn:E; [cbn in H; lia|].
    exists c. apply filter_In. rewrite E. now left.
Qed.

(** Ranges of which no offset lies in two are pairwise disjoint. *)
Lemma covering_disjoint (chunks : list chunk) :
  (forall x, (covering x chunks <= 1)%nat) -> ForallOrdPairs disjoint chunks.
Proof.
  induction chunks as [|c rest IH]; intros H; constructor.
  - apply Forall_forall. intros d Hd x Hc Hx.
    assert (Hpos : (0 < covering x rest)%nat)
      by (apply covering_positive; eauto).
    specialize (H x). unfold covering in *. cbn [filter] in H.
    rewrite Hc in H. cbn in H. lia.
  - apply IH. intros x. specialize (H x). unfold covering in *.
    cbn [filter] in H. destruct (in_chunk x c); cbn in H; lia.
Qed.

Lemma primary_chunk_size_nonneg (size file_size : Z) :
  0 < size -> 0 <= file_size -> 0 <= primary_chunk_size size file_size.
Proof.
  intros Hs Hf. unfold primary_chunk_size.
  assert (0 <= file_size / 2) by (apply Z.div_pos; lia). lia.
Qed.

(** The plan is the primary chunk, then the chain from 0 to its start, then
    the chain from its end to the end of the file; this also holds for an
    estimate beyond the file, where the first chain passes the end of the
    file. *)
Lemma plan_chunks_shape (size file_size estimated_pos : Z) :
  0 < size -> 0 <= file_size ->
  let p_start := primary_start size file_size estimated_pos in
  let p_end := primary_end size file_size estimated_pos in
  exists before after,
    tiling 0 p_start before
    /\ tiling p_end file_size after
    /\ forall fuel,
         Z.max file_size p_start <= size * Z.of_nat fuel ->
         plan_chunks fuel size file_size estimated_pos
         = Some ((p_start, p_end) :: before ++ after).
Proof.
  intros Hs Hfs p_start p_end.
  set (f0 := Z.to_nat (Z.max file_size p_start / size + 1)).
  assert (Hps : 0 <= p_start) by (unfold p_start, primary_start; lia).
  assert (Hf0 : Z.max file_size p_start <= size * Z.of_nat f0).
  { unfold f0.
    pose proof (Z.div_pos (Z.max file_size p_start) size ltac:(lia) Hs).
    rewrite Z2Nat.id by lia.
    pose proof (Z.mul_succ_div_gt (Z.max file_size p_start) size Hs). lia. }
  assert (Hpe : 0 <= p_end).
  { unfold p_end, primary_end. fold p_start.
    pose proof (primary_chunk_size_nonneg size file_size Hs Hfs). lia. }
  destruct (cover_tiling size Hs f0 0 p_start) as [before [Hb Htb]]; [lia|].
  destruct (cover_tiling size Hs f0 p_end file_size) as [after [Ha Hta]]; [lia|].
  exists before, after. split; [exact Htb|]. split; [exact Hta|].
  intros fuel Hfuel. unfold plan_chunks. fold p_start p_end.
  rewrite (cover_fuel size Hs fuel f0 0 p_start), Hb by lia.
  rewrite (cover_fuel size Hs fuel f0 p_end file_size), Ha by lia.
  reflexivity.
Qed.

(** C2 as stated fails: for a file of one byte the primary chunk is the empty
    range (0, 0), which breaks start < end. *)
Lemma plan_chunks_empty_primary :
  exists chunks,
    plan_chunks 1 chunk_size 1 0 = Some chunks
    /\ ~ Forall (chunk_as_specified 1) chunks.
Proof.
  exists [(0, 0); (0, 1)]. split; [reflexivity|].
  intros H. inversion H as [|c l [_ [Hlt _]] _]. cbn in Hlt. lia.
Qed.

(** C2 (amended): for a file size of at least 0 and an estimate for which the
    start of the primary chunk does not pass the end of the file, the plan is
    built (the loops end) and its chunks are pairwise disjoint half-open
    ranges with 0 <= start <= end <= fileSize, every chunk after the primary
    one with start < end, whose union is exactly [0, fileSize). *)
Theorem plan_chunks_partition (size file_size estimated_pos : Z) :
  0 < size -> 0 <= file_size ->
  primary_start size file_size estimated_pos <= file_size ->
  exists chunks,
    (forall fuel, file_size <= size * Z.of_nat fuel ->
       plan_chunks fuel size file_size estimated_pos = Some chunks)
    /\ Forall (fun c => 0 <= fst c /\ fst c <= snd c /\ snd c <= file_size) chunks
    /\ Forall (chunk_as_specified file_size) (tl chunks)
    /\ ForallOrdPairs disjoint chunks
    /\ (forall x, (exists c, In c chunks /\ in_chunk x c = true)
                  <-> 0 <= x < file_size).
Proof.
  intros Hs Hfs Hstart.
  destruct (plan_chunks_shape size file_size estimated_pos Hs Hfs)
    as [before [after [Hb [Ha Hplan]]]].
  set (p_start := primary_start size file_size estimated_pos) in *.
  set (p_end := primary_end size file_size estimated_pos) in *.
  assert (H0 : 0 <= p_start) by (unfold p_start, primary_start; lia).
  assert (H1 : p_start <= p_end).
  { unfold p_end, primary_end. fold p_start.
    pose proof (primary_chunk_size_nonneg size file_size Hs Hfs). lia. }
  assert (H2 : p_end <= file_size) by (unfold p_end, primary_end; lia).
  assert (Hcount : forall x,
             covering x ((p_start, p_end) :: before ++ after)
             = if (0 <=? x) && (x <? file_size) then 1%nat else 0%nat).
  { intros x. change ((p_start, p_end) :: before ++ after)
      with ([(p_start, p_end)] ++ before ++ after).
    rewrite !covering_app, (tiling_covering _ _ _ x Hb), (tiling_covering _ _ _ x Ha).
    unfold covering. cbn [filter]. unfold in_chunk. cbn [fst snd].
    destruct (Z.leb_spec p_start x), (Z.ltb_spec x p_end),
      (Z.leb_spec 0 x), (Z.ltb_spec x p_start),
      (Z.leb_spec p_end x), (Z.ltb_spec x file_size);
      cbn; try reflexivity; lia. }
  exists ((p_start, p_end) :: before ++ after).
  split; [intros fuel Hfuel; apply Hplan; lia|].
  assert (Hrest : Forall (chunk_as_specified file_size) (before ++ after)).
  { apply Forall_app. split.
    - eapply Forall_impl; [|exact (tiling_bounds _ _ _ Hb)].
      unfold chunk_as_specified. intros c Hc. lia.
    - eapply Forall_impl; [|exact (tiling_bounds _ _ _ Ha)].
      unfold chunk_as_specified. intros c Hc. lia. }
  split.
  { constructor; [cbn; lia|].
    eapply Forall_impl; [|exact Hrest].
    unfold chunk_as_specified. intros c Hc. lia. }
  split; [exact Hrest|].
  split.
  { apply covering_disjoint. intros x. rewrite Hcount.
    destruct ((0 <=? x) && (x <? file_size)); lia. }
  intros x. rewrite covering_positive, Hcount.
  destruct (Z.leb_spec 0 x), (Z.ltb_spec x file_size); cbn; lia.
Qed.

Lemma plan_chunks_partition_witness :
  exists chunks,
    (forall fuel, 40 <= chunk_size * Z.of_nat fuel ->
       plan_chunks fuel chunk_size 40 0 = Some chunks)
    /\ Forall (fun c => 0 <= fst c /\ fst c <= snd c /\ snd c <= 40) chunks
    /\ Forall (chunk_as_specified 40) (tl chunks)
    /\ ForallOrdPairs disjoint chunks
    /\ (forall x, (exists c, In c chunks /\ in_chunk x c = true)
                  <-> 0 <= x < 40).
Proof.
  apply (plan_chunks_partition chunk_size 40 0).
  - reflexivity.
  - discriminate.
  - vm_compute. discriminate.
Defined.

(** ** Line reads and the scan loop *)

Lemma take_line_length (bs : bytes) :
  (List.length (take_line bs) <= List.length bs)%nat.
Proof.
  induction bs as [|b bs IH]; cbn; [lia|].
  destruct (is_newline b); cbn; lia.
Qed.

Lemma take_line_nonempty (bs : bytes) :
  bs <> [] -> (0 < List.length (take_line bs))%nat.
Proof.
  destruct bs as [|b bs]; [congruence|]. intros _. cbn.
  destruct (is_newline b); cbn; lia.
Qed.

(** A read never moves back and never passes the end of the data, unless the
    offset was already beyond it, in which case the offset stays. *)
Lemma readline_bounds (content : bytes) (pos : Z) :
  0 <= pos ->
  pos <= snd (readline content pos) <= Z.max pos (len content).
Proof.
  intros Hpos. unfold readline, len. cbn [snd].
  pose proof (take_line_length (skipn (Z.to_nat pos) content)) as H.
  rewrite length_skipn in H. lia.
Qed.

(** Inside the data a read moves forward. *)
Lemma readline_progress (content : bytes) (pos : Z) :
  0 <= pos < len content -> pos < snd (readline content pos).
Proof.
  intros Hpos. unfold readline, len in *. cbn [snd].
  assert (Hne : skipn (Z.to_nat pos) content <> []).
  { intros E. apply (f_equal (@List.length _)) in E.
    rewrite length_skipn in E. cbn in E. lia. }
  pose proof (take_line_nonempty _ Hne). lia.
Qed.

Lemma scan_loop_done (fuel : nat) (content : bytes) (target_date : str)
  (end_ pos : Z) (results : list str) :
  end_ <= pos ->
  scan_loop fuel content target_date end_ pos results = Some results.
Proof.
  intros H. destruct fuel; cbn [scan_loop];
    (destruct (Z.ltb_spec pos end_); [lia | reflexivity]).
Qed.

(** The loop of the scanner never ends when the end of its chunk lies beyond
    the end of the file: at the end of the file a read returns no bytes and
    the offset stays below the end of the chunk. *)
Lemma scan_loop_beyond_eof (fuel : nat) (content : bytes) (target_date : str)
  (end_ pos : Z) (results : list str) :
  0 <= pos -> pos < end_ -> len content < end_ ->
  scan_loop fuel content target_date end_ pos results = None.
Proof.
  revert pos results. induction fuel as [|fuel IH]; intros pos results H0 H1 H2;
    cbn [scan_loop]; destruct (Z.ltb_spec pos end_); try lia; [reflexivity|].
  pose proof (readline_bounds content pos H0) as Hb.
  destruct (readline content pos) as [raw pos']. cbn [snd] in Hb.
  destruct (scan_line target_date (text_of raw) results); apply IH; lia.
Qed.

(** It ends when the end of the chunk lies inside the file. *)
Lemma scan_loop_terminates (fuel : nat) (content : bytes) (target_date : str)
  (end_ pos : Z) (results : list str) :
  0 <= pos -> end_ <= len content -> end_ - pos <= Z.of_nat fuel ->
  exists results',
    scan_loop fuel content target_date end_ pos results = Some results'.
Proof.
  revert pos results. induction fuel as [|fuel IH]; intros pos results H0 H1 H2;
    cbn [scan_loop]; destruct (Z.ltb_spec pos end_); try lia; eauto.
  pose proof (readline_progress content pos ltac:(lia)) as Hp.
  destruct (readline content pos) as [raw pos']. cbn [snd] in Hp.
  destruct (scan_line target_date (text_of raw) results); apply IH; lia.
Qed.

(** ** Fuel

    A result reached with some fuel is reached with any larger amount, so
    [Some] means that the loop ends and [None] for every fuel that it does
    not. *)

Lemma cover_mono (f1 f2 : nat) (size start limit : Z) (chunks : list chunk) :
  cover f1 size start limit = Some chunks -> (f1 <= f2)%nat ->
  cover f2 size start limit = Some chunks.
Proof.
  revert f2 start chunks.
  induction f1 as [|f1 IH]; intros f2 start chunks H Hle.
  - cbn [cover] in H. destruct f2; cbn [cover];
      destruct (start <? limit); congruence.
  - destruct f2 as [|f2]; [lia|]. cbn [cover] in *.
    destruct (start <? limit); [|exact H].
    destruct (cover f1 size (Z.min (start + size) limit) limit) as [more|] eqn:E;
      [|discriminate].
    rewrite (IH f2 _ more E) by lia. exact H.
Qed.

Lemma scan_loop_mono (f1 f2 : nat) (content : bytes) (target_date : str)
  (end_ pos : Z) (results out : list str) :
  scan_loop f1 content target_date end_ pos results = Some out ->
  (f1 <= f2)%nat ->
  scan_loop f2 content target_date end_ pos results = Some out.
Proof.
  revert f2 pos results.
  induction f1 as [|f1 IH]; intros f2 pos results H Hle.
  - cbn [scan_loop] in H. destruct f2; cbn [scan_loop];
      destruct (pos <? end_); congruence.
  - destruct f2 as [|f2]; [lia|]. cbn [scan_loop] in *.
    destruct (pos <? end_); [|exact H].
    destruct (readline content pos) as [raw pos'].
    destruct (scan_line target_date (text_of raw) results);
      apply IH; [exact H | lia | exact H | lia].
Qed.

Lemma find_lines_for_date_mono (f1 f2 : nat) (c : chunk) (content : bytes)
  (target_date : str) (r : result (list str)) :
  find_lines_for_date f1 c content target_date = Some r -> (f1 <= f2)%nat ->
  find_lines_for_date f2 c content target_date = Some r.
Proof.
  unfold find_lines_for_date. destruct c as [start end_].
  destruct (file_seek start) as [pos|e]; [|trivial].
  intros H Hle.
  destruct (scan_loop f1 content target_date end_
              (if 0 <? start then snd (readline content pos) else pos) [])
    as [out|] eqn:E; [|discriminate].
  now rewrite (scan_loop_mono f1 f2 _ _ _ _ _ out E Hle).
Qed.

Lemma starmap_mono (f1 f2 : nat) (chunks : list chunk) (content : bytes)
  (target_date : str) (r : result (list (list str))) :
  starmap f1 chunks content target_date = Some r -> (f1 <= f2)%nat ->
  starmap f2 chunks content target_date = Some r.
Proof.
  revert r. induction chunks as [|c chunks IH]; intros r H Hle; [exact H|].
  cbn [starmap] in *.
  destruct (find_lines_for_date f1 c content target_date) as [x|] eqn:E;
    [|discriminate].
  destruct (starmap f1 chunks content target_date) as [xs|]; [|discriminate].
  rewrite (find_lines_for_date_mono f1 f2 _ _ _ x E Hle), (IH xs eq_refl Hle).
  exact H.
Qed.

Lemma plan_chunks_mono (f1 f2 : nat) (size file_size estimated_pos : Z)
  (chunks : list chunk) :
  plan_chunks f1 size file_size estimated_pos = Some chunks -> (f1 <= f2)%nat ->
  plan_chunks f2 size file_size estimated_pos = Some chunks.
Proof.
  unfold plan_chunks. intros H Hle.
  destruct (cover f1 size 0 _) as [before|] eqn:Eb; [|discriminate].
  destruct (cover f1 size _ file_size) as [after|] eqn:Ea; [|discriminate].
  now rewrite (cover_mono f1 f2 _ _ _ before Eb Hle),
              (cover_mono f1 f2 _ _ _ after Ea Hle).
Qed.

Lemma plan_mono (f1 f2 : nat) (content : bytes) (target_date : str)
  (r : result (list chunk)) :
  plan f1 content target_date = Some r -> (f1 <= f2)%nat ->
  plan f2 content target_date = Some r.
Proof.
  unfold plan. intros H Hle.
  destruct (mmap content) as [mm|e]; [|exact H].
  destruct (find_date_boundaries mm (len content)) as [[first last]|e];
    [|exact H].
  destruct (plan_chunks f1 chunk_size (len content) _) as [chunks|] eqn:E;
    [|discriminate].
  now rewrite (plan_chunks_mono f1 f2 _ _ _ chunks E Hle).
Qed.

Lemma process_file_mono (d : disk) (f1 f2 : nat) (content : bytes)
  (target_date output_file : str) (r : run) :
  process_file d f1 content target_date output_file = Some r -> (f1 <= f2)%nat ->
  process_file d f2 content target_date output_file = Some r.
Proof.
  unfold process_file. intros H Hle.
  destruct (plan f1 content target_date) as [p|] eqn:Ep; [|discriminate].
  rewrite (plan_mono f1 f2 _ _ p Ep Hle).
  destruct p as [chunks|e]; [|exact H].
  destruct (starmap f1 chunks content target_date) as [rs|] eqn:Es;
    [|discriminate].
  now rewrite (starmap_mono f1 f2 _ _ _ rs Es Hle).
Qed.

(** ** The extractor inside the loops *)

Lemma extract_date_total (line : str) :
  exists date, extract_date_from_line line = Ok date.
Proof.
  unfold extract_date_from_line.
  destruct (is_empty line); [eauto|].
  rewrite shape_guard. cbn [bind].
  destruct (date_shaped line); [|eauto].
  destruct (contains [chr_T] (firstn 19 line)); [|eauto].
  destruct (split_char_head chr_T line) as [rest ->]. cbn. eauto.
Qed.

Lemma extract_date_undated (line : str) :
  date_shaped line = false -> extract_date_from_line line = Ok no_date.
Proof.
  intros H. unfold extract_date_from_line.
  destruct (is_empty line); [reflexivity|].
  now rewrite shape_guard, H.
Qed.

(** ** The boundary detector *)

Lemma tail_dates_total (n : nat) (mm : bytes) (pos : Z) (last_date : str) :
  exists date, tail_dates n mm pos last_date = Ok date.
Proof.
  revert pos last_date. induction n as [|n IH]; intros pos last_date;
    cbn [tail_dates]; [eauto|].
  destruct (readline mm pos) as [raw pos'].
  destruct (is_empty (text_of raw)); [eauto|].
  destruct (extract_date_total (text_of raw)) as [date ->]. cbn [bind].
  apply IH.
Qed.

Lemma find_date_boundaries_total (mm : bytes) :
  exists first_date last_date,
    find_date_boundaries mm (len mm) = Ok (first_date, last_date).
Proof.
  unfold find_date_boundaries, mm_seek.
  assert (Hlen : 0 <= len mm) by (unfold len; lia).
  destruct (Z.leb_spec 0 0), (Z.leb_spec 0 (len mm)); try lia. cbn [andb bind].
  destruct (extract_date_total (text_of (fst (readline mm 0)))) as [first ->].
  cbn [bind].
  destruct (Z.leb_spec 0 (Z.max 0 (len mm - 100000))),
    (Z.leb_spec (Z.max 0 (len mm - 100000)) (len mm)); try lia.
  cbn [andb bind].
  destruct (tail_dates_total 100 mm
              (snd (readline mm (Z.max 0 (len mm - 100000)))) no_last_date)
    as [last ->].
  cbn. eauto.
Qed.

(** Where no read yields a date-shaped line, the first non-blank line of the
    tail window already replaces "9999-99-99" by "0000-00-00": the test
    [if date:] holds for every text the extractor returns for such a line. *)
Lemma tail_dates_undated (n : nat) (mm : bytes) (pos : Z) (last_date : str) :
  (forall p, date_shaped (text_of (fst (readline mm p))) = false) ->
  tail_dates n mm pos last_date =
  Ok (match n with
      | O => last_date
      | S _ => if is_empty (text_of (fst (readline mm pos)))
               then last_date else no_date
      end).
Proof.
  intros Hundated. revert pos last_date.
  induction n as [|n IH]; intros pos last_date; [reflexivity|].
  cbn [tail_dates]. specialize (Hundated pos) as Hline.
  destruct (readline mm pos) as [raw pos']. cbn [fst] in *.
  destruct (is_empty (text_of raw)); [reflexivity|].
  rewrite (extract_date_undated _ Hline). cbn [bind is_empty no_date].
  rewrite IH. destruct n; [reflexivity|].
  now destruct (is_empty (text_of (fst (readline mm pos')))).
Qed.

(** ** Which lines a scan reads *)

Lemma scan_line_acc (target_date line : str) (results : list str) :
  scan_line target_date line results =
  match scan_line target_date line [] with
  | Ok lines => Ok (results ++ lines)
  | Raise e => Raise e
  end.
Proof.
  unfold scan_line. destruct (is_empty line); [now rewrite app_nil_r|].
  destruct (extract_date_from_line line) as [date|e]; [|reflexivity].
  cbn [bind]. destruct (str_eqb date target_date); [|now rewrite app_nil_r].
  destruct (format_line_for_output line); reflexivity.
Qed.

(** The results of the loop are the results of the lines at the offsets it
    reads, in the order of the reads. *)
Lemma scan_loop_reads (fuel : nat) (content : bytes) (target_date : str)
  (end_ pos : Z) (results out : list str) :
  scan_loop fuel content target_date end_ pos results = Some out ->
  out = results
        ++ flat_map (line_result content target_date)
             (read_offsets fuel content end_ pos).
Proof.
  revert pos results. induction fuel as [|fuel IH]; intros pos results;
    cbn [scan_loop read_offsets]; destruct (pos <? end_); try discriminate;
    try (intros [= <-]; now rewrite app_nil_r).
  cbn [flat_map]. unfold line_result at 1.
  destruct (readline content pos) as [raw pos']. cbn [fst snd].
  rewrite (scan_line_acc target_date (text_of raw) results).
  destruct (scan_line target_date (text_of raw) []) as [lines|e];
    intros H; apply IH in H; rewrite H.
  - now rewrite app_assoc.
  - reflexivity.
Qed.

Lemma read_offsets_range (fuel : nat) (content : bytes) (end_ pos : Z) :
  0 <= pos ->
  Forall (fun p => pos <= p < end_) (read_offsets fuel content end_ pos).
Proof.
  revert pos. induction fuel as [|fuel IH]; intros pos Hpos;
    cbn [read_offsets]; destruct (Z.ltb_spec pos end_); constructor; try lia.
  pose proof (readline_bounds content pos Hpos) as Hb.
  eapply Forall_impl; [|apply IH; lia]. intros p Hp. cbv beta in Hp. lia.
Qed.

(** The scan of a chunk reads lines only at offsets from [first_read] on and
    before the end of the chunk, and its results are those of these lines. *)
Lemma find_lines_for_date_reads (fuel : nat) (start end_ : Z) (content : bytes)
  (target_date : str) (lines : list str) :
  0 <= start ->
  find_lines_for_date fuel (start, end_) content target_date = Some (Ok lines) ->
  let offsets := read_offsets fuel content end_ (first_read content start) in
  lines = flat_map (line_result content target_date) offsets
  /\ Forall (fun p => first_read content start <= p < end_) offsets.
Proof.
  intros Hstart H offsets. unfold find_lines_for_date, file_seek in H.
  destruct (Z.leb_spec 0 start); [|lia].
  fold (first_read content start) in H.
  destruct (scan_loop fuel content target_date end_ (first_read content start) [])
    as [out|] eqn:E; [|discriminate].
  injection H as <-. split.
  - now apply scan_loop_reads in E.
  - apply read_offsets_range. unfold first_read.
    destruct (0 <? start); [|lia].
    pose proof (readline_bounds content start Hstart). lia.
Qed.

(** A chunk that starts inside the file, not at offset 0, starts to read
    after its own start: what begins exactly there is not read by its scan. *)
Lemma first_read_after_start (content : bytes) (start : Z) :
  0 < start < len content -> start < first_read content start.
Proof.
  intros H. unfold first_read. destruct (Z.ltb_spec 0 start); [|lia].
  apply readline_progress. lia.
Qed.

(** ** The written output *)

Lemma write_lines (lines : list str) (text : str) (n : Z) :
  fold_left (fun acc line => (fst acc ++ line ++ [chr_newline], snd acc + 1))
    lines (text, n)
  = (text ++ lines_text lines, n + len lines).
Proof.
  revert text n. induction lines as [|line lines IH]; intros text n.
  - cbn. now rewrite app_nil_r, Z.add_0_r.
  - cbn [fold_left fst snd]. rewrite IH. unfold lines_text, len.
    cbn [flat_map List.length]. rewrite <- !app_assoc. f_equal. lia.
Qed.

Lemma write_results_from (chunk_results : list (list str)) (text : str) (n : Z) :
  fold_left
    (fun acc result_set =>
       fold_left
         (fun acc line => (fst acc ++ line ++ [chr_newline], snd acc + 1))
         result_set acc)
    chunk_results (text, n)
  = (text ++ lines_text (List.concat chunk_results), n + len (List.concat chunk_results)).
Proof.
  revert text n. induction chunk_results as [|rs rest IH]; intros text n.
  - cbn. now rewrite app_nil_r, Z.add_0_r.
  - cbn [fold_left List.concat]. rewrite write_lines, IH.
    unfold lines_text, len. rewrite flat_map_app, length_app, <- app_assoc.
    f_equal. lia.
Qed.

Lemma write_results_flat (chunk_results : list (list str)) :
  write_results chunk_results
  = (lines_text (List.concat chunk_results), len (List.concat chunk_results)).
Proof. unfold write_results. now rewrite write_results_from. Qed.

Lemma starmap_in_order (fuel : nat) (chunks : list chunk) (content : bytes)
  (target_date : str) (chunk_results : list (list str)) :
  starmap fuel chunks content target_date = Some (Ok chunk_results) ->
  Forall2 (fun c lines => find_lines_for_date fuel c content target_date
                          = Some (Ok lines))
    chunks chunk_results.
Proof.
  revert chunk_results. induction chunks as [|c chunks IH]; intros rs H.
  - cbn in H. injection H as <-. constructor.
  - cbn [starmap] in H.
    destruct (find_lines_for_date fuel c content target_date) as [[x|e]|] eqn:E;
      destruct (starmap fuel chunks content target_date) as [[xs|e']|];
      cbn in H; try discriminate.
    injection H as <-. constructor; [exact E | now apply IH].
Qed.

(** The output step returns [True] exactly when the directory can be made,
    the file opened and the text written; the text is then the lines of the
    chunk results, in their order, and the count their number. *)
Lemma write_output_returned (d : disk) (output_file : str)
  (chunk_results : list (list str)) :
  returned (write_output d output_file chunk_results)
  = writable d output_file (lines_text (List.concat chunk_results)).
Proof.
  unfold write_output, writable, makedirs, open_w.
  rewrite write_results_flat.
  destruct (is_empty (dirname output_file)); [reflexivity|].
  destruct (makedirs_ok d (dirname output_file)); [|reflexivity].
  destruct (open_ok d output_file); [|reflexivity].
  now destruct (write_fault d _).
Qed.

Lemma write_output_written (d : disk) (output_file : str)
  (chunk_results : list (list str)) :
  writable d output_file (lines_text (List.concat chunk_results)) = true ->
  write_output d output_file chunk_results
  = {| returned := true;
       output := Some (lines_text (List.concat chunk_results));
       count := Some (len (List.concat chunk_results)) |}.
Proof.
  unfold write_output, writable, makedirs, open_w.
  rewrite write_results_flat.
  destruct (is_empty (dirname output_file)); [discriminate|].
  destruct (makedirs_ok d (dirname output_file)); [|discriminate].
  destruct (open_ok d output_file); [|discriminate].
  now destruct (write_fault d _).
Qed.

Lemma write_output_true (d : disk) (output_file : str)
  (chunk_results : list (list str)) :
  returned (write_output d output_file chunk_results) = true ->
  write_output d output_file chunk_results
  = {| returned := true;
       output := Some (lines_text (List.concat chunk_results));
       count := Some (len (List.concat chunk_results)) |}.
Proof.
  rewrite write_output_returned. apply write_output_written.
Qed.

(** A call that returns [True] planned its chunks, scanned each of them, and
    wrote the lines of the scans in the order of the plan. *)
Lemma process_file_output (d : disk) (fuel : nat) (content : bytes)
  (target_date output_file : str) (r : run) :
  process_file d fuel content target_date output_file = Some r ->
  returned r = true ->
  exists chunks chunk_results,
    plan fuel content target_date = Some (Ok chunks)
    /\ Forall2 (fun c lines => find_lines_for_date fuel c content target_date
                               = Some (Ok lines))
         chunks chunk_results
    /\ output r = Some (lines_text (List.concat chunk_results))
    /\ count r = Some (len (List.concat chunk_results)).
Proof.
  unfold process_file. intros H Hret.
  destruct (plan fuel content target_date) as [[chunks|e]|]; try discriminate.
  2:{ injection H as <-. discriminate. }
  destruct (starmap fuel chunks content target_date) as [[rs|e]|] eqn:E;
    try discriminate.
  2:{ injection H as <-. discriminate. }
  injection H as <-. rewrite (write_output_true _ _ _ Hret).
  exists chunks, rs. split; [reflexivity|].
  split; [now apply starmap_in_order|]. split; reflexivity.
Qed.

(** ** Runs that return *)

Lemma find_lines_for_date_returns (fuel : nat) (c : chunk) (content : bytes)
  (target_date : str) :
  0 <= fst c -> snd c <= len content -> len content <= Z.of_nat fuel ->
  exists lines, find_lines_for_date fuel c content target_date = Some (Ok lines).
Proof.
  destruct c as [start end_]. cbn [fst snd]. intros H0 H1 H2.
  unfold find_lines_for_date, file_seek.
  destruct (Z.leb_spec 0 start); [|lia].
  fold (first_read content start).
  assert (Hfirst : start <= first_read content start).
  { unfold first_read. destruct (0 <? start); [|lia].
    pose proof (readline_bounds content start H0). lia. }
  destruct (scan_loop_terminates fuel content target_date end_
              (first_read content start) []) as [out ->]; try lia.
  eauto.
Qed.

Lemma starmap_returns (fuel : nat) (chunks : list chunk) (content : bytes)
  (target_date : str) :
  Forall (fun c => 0 <= fst c /\ snd c <= len content) chunks ->
  len content <= Z.of_nat fuel ->
  exists chunk_results,
    starmap fuel chunks content target_date = Some (Ok chunk_results).
Proof.
  intros Hall Hfuel. induction Hall as [|c chunks [H0 H1] _ IH].
  - cbn. eauto.
  - cbn [starmap].
    destruct (find_lines_for_date_returns fuel c content target_date H0 H1 Hfuel)
      as [lines ->].
    destruct IH as [rs ->]. cbn. eauto.
Qed.

Lemma plan_chunks_in_file (size file_size estimated_pos : Z) :
  0 < size -> 0 <= file_size ->
  primary_start size file_size estimated_pos <= file_size ->
  exists chunks,
    (forall fuel, file_size <= size * Z.of_nat fuel ->
       plan_chunks fuel size file_size estimated_pos = Some chunks)
    /\ Forall (fun c => 0 <= fst c /\ snd c <= file_size) chunks.
Proof.
  intros Hs Hfs Hstart.
  destruct (plan_chunks_shape size file_size estimated_pos Hs Hfs)
    as [before [after [Hb [Ha Hplan]]]].
  eexists. split; [intros fuel Hfuel; apply Hplan; lia|].
  assert (H0 : 0 <= primary_start size file_size estimated_pos)
    by (unfold primary_start; lia).
  assert (H1 : 0 <= primary_end size file_size estimated_pos).
  { unfold primary_end.
    pose proof (primary_chunk_size_nonneg size file_size Hs Hfs). lia. }
  constructor.
  - cbn [fst snd]. unfold primary_end. lia.
  - apply Forall_app. split.
    + eapply Forall_impl; [|exact (tiling_bounds _ _ _ Hb)].
      intros c Hc. cbv beta in Hc. lia.
    + eapply Forall_impl; [|exact (tiling_bounds _ _ _ Ha)].
      intros c Hc. cbv beta in Hc. lia.
Qed.

(** On a non-empty file a call returns whenever the estimate keeps the start
    of the primary chunk inside the file: the plan is built, every scan ends,
    and the output step is taken. *)
Lemma process_file_returns (d : disk) (content : bytes)
  (target_date output_file : str) :
  content <> [] ->
  (forall first_date last_date,
     find_date_boundaries content (len content) = Ok (first_date, last_date) ->
     primary_start chunk_size (len content)
       (estimate_position (len content) target_date first_date last_date)
     <= len content) ->
  exists chunk_results,
    process_file d (Z.to_nat (len content)) content target_date output_file
    = Some (write_output d output_file chunk_results).
Proof.
  intros Hne Hest.
  assert (Hlen : 0 <= len content) by (unfold len; lia).
  unfold process_file, plan.
  destruct content as [|b content'] eqn:Ec; [congruence|]. rewrite <- Ec in *.
  assert (Hmap : mmap content = Ok content) by now rewrite Ec.
  rewrite Hmap.
  destruct (find_date_boundaries_total content) as [first [last Hb]].
  rewrite Hb. specialize (Hest first last Hb).
  destruct (plan_chunks_in_file chunk_size (len content)
              (estimate_position (len content) target_date first last)
              ltac:(reflexivity) Hlen Hest) as [chunks [Hplan Hin]].
  rewrite Hplan by (rewrite Z2Nat.id by lia; unfold chunk_size; lia).
  destruct (starmap_returns (Z.to_nat (len content)) chunks content target_date Hin)
    as [rs ->]; [lia|].
  now exists rs.
Qed.

(** ** Whole runs *)

(** C4 as stated fails: an empty file cannot be memory-mapped, so the call
    returns [False] and writes no output file. *)
Lemma process_file_empty_file_fails :
  process_file sound_disk 1 [] jan_1 (output_name jan_1) = Some failed
  /\ returned failed = false
  /\ output failed = None
  /\ count failed = None.
Proof. repeat split. Qed.

(** C4 (amended): on an empty file the call does not succeed, whatever the
    output file and the file system: mapping the file raises, process_file
    returns [False], no output file is written and no count is reported.  The steps behind the mapping would behave as
    described: on empty data the boundary detector gives "0000-00-00" and
    "9999-99-99", the estimate for these is 0, the plan for size 0 is the
    single chunk (0, 0), its scan gives no line, and writing no line gives
    the empty text and count 0. *)
Theorem process_file_empty_file (d : disk) (fuel : nat)
  (target_date output_file : str) :
  mmap [] = Raise ValueError
  /\ process_file d fuel [] target_date output_file = Some failed
  /\ find_date_boundaries [] 0 = Ok (no_date, no_last_date)
  /\ estimate_position 0 target_date no_date no_last_date = 0
  /\ plan_chunks fuel chunk_size 0 0 = Some [(0, 0)]
  /\ find_lines_for_date fuel (0, 0) [] target_date = Some (Ok [])
  /\ write_results [[]] = ([], 0).
Proof.
  split; [reflexivity|]. split; [reflexivity|]. split; [reflexivity|].
  split.
  { rewrite estimate_position_cases.
    destruct (strptime target_date); reflexivity. }
  split; [destruct fuel; reflexivity|].
  split; [|reflexivity].
  unfold find_lines_for_date. cbn. now rewrite scan_loop_done.
Qed.

(** C5: the claim holds for no file with a non-blank undated line in its tail
    window, because the test [if date:] accepts the "0000-00-00" that the
    extractor returns for such a line.  Here no line of the file is
    date-shaped, and the last date is "0000-00-00" instead of
    "9999-99-99". *)
Theorem find_date_boundaries_undated_tail :
  Forall (fun raw => date_shaped (text_of raw) = false) (file_lines undated_file)
  /\ len undated_file <= 100000
  /\ find_date_boundaries undated_file (len undated_file) = Ok (no_date, no_date)
  /\ no_date <> no_last_date.
Proof.
  split; [repeat constructor|]. split; [discriminate|].
  split; [reflexivity | discriminate].
Qed.

(** C1: a record that begins exactly at the start of a chunk is lost.  The
    sample file holds two records of the target date; the plan cuts it at
    offset 40, where the second record begins; the scan of (0, 40) stops
    there and the scan of (40, 80) discards the record as if it were the rest
    of a split line.  Whatever the output file and the file system, the
    output step gets one line where two match; where the output can be
    written, one line is written and the count is 1. *)
Theorem record_at_chunk_start_is_lost :
  validate_date jan_1 = true
  /\ plan 2 same_day_file jan_1 = Some (Ok [(0, 40); (40, 80)])
  /\ find_lines_for_date 2 (0, 40) same_day_file jan_1
     = Some (Ok [str_of "2024-01-01 08:00:00 INFO start"])
  /\ find_lines_for_date 2 (40, 80) same_day_file jan_1 = Some (Ok [])
  /\ (forall d output_file,
        process_file d 2 same_day_file jan_1 output_file
        = Some (write_output d output_file
                  [[str_of "2024-01-01 08:00:00 INFO start"]; []]))
  /\ process_file sound_disk 2 same_day_file jan_1 (output_name jan_1)
     = Some {| returned := true;
               output := Some (str_of ("2024-01-01 08:00:00 INFO start"
                                       ++ newline_lit));
               count := Some 1 |}
  /\ List.length (matching_lines same_day_file jan_1) = 2%nat.
Proof. repeat split. Qed.

Lemma plan_two_day_file (fuel : nat) :
  plan (S fuel) two_day_file jan_3 = Some (Ok [(140, 80); (0, 140)]).
Proof.
  assert (Hb : find_date_boundaries two_day_file (len two_day_file)
               = Ok (jan_1, jan_2)) by reflexivity.
  assert (He : estimate_position (len two_day_file) jan_3 jan_1 jan_2 = 160)
    by (vm_compute; reflexivity).
  unfold plan. change (mmap two_day_file) with (Ok two_day_file).
  cbv iota beta. rewrite Hb, He. cbv iota beta.
  change (len two_day_file) with 80.
  unfold plan_chunks.
  change (primary_start chunk_size 80 160) with 140.
  change (primary_end chunk_size 80 160) with 80.
  assert (Hs : 0 < chunk_size) by reflexivity.
  rewrite (cover_fuel chunk_size Hs (S fuel) 1 0 140),
          (cover_fuel chunk_size Hs (S fuel) 1 80 80);
    try (unfold chunk_size; lia).
  reflexivity.
Qed.

(** C3: the scan does not end when its chunk ends beyond the end of the file.
    For the sample file (dates 2024-01-01 to 2024-01-02, 80 bytes) and the
    target 2024-01-03 the estimate is 160, the plan is (140, 80), (0, 140),
    and the scan of (0, 140) reads at the end of the file for ever: the call
    never returns, whatever the fuel, the output file and the file
    system. *)
Theorem scan_beyond_end_of_file_never_returns :
  validate_date jan_3 = true
  /\ find_date_boundaries two_day_file (len two_day_file) = Ok (jan_1, jan_2)
  /\ estimate_position (len two_day_file) jan_3 jan_1 jan_2 = 160
  /\ plan 1 two_day_file jan_3 = Some (Ok [(140, 80); (0, 140)])
  /\ (forall fuel,
        find_lines_for_date fuel (0, 140) two_day_file jan_3 = None)
  /\ (forall d fuel output_file,
        process_file d fuel two_day_file jan_3 output_file = None).
Proof.
  split; [reflexivity|].
  split; [reflexivity|]. split; [vm_compute; reflexivity|].
  split; [apply plan_two_day_file|].
  assert (Hscan : forall fuel,
             find_lines_for_date fuel (0, 140) two_day_file jan_3 = None).
  { intros fuel. unfold find_lines_for_date. cbn [file_seek Z.leb Z.compare Z.ltb].
    rewrite scan_loop_beyond_eof; [reflexivity | lia | lia |].
    change (len two_day_file) with 80. lia. }
  split; [exact Hscan|].
  intros d [|fuel] output_file; [reflexivity|].
  unfold process_file. rewrite plan_two_day_file.
  cbn [starmap]. rewrite Hscan.
  now destruct (find_lines_for_date (S fuel) (140, 80) two_day_file jan_3).
Qed.

(** * Further properties of the script *)

(** ** The scan of one chunk *)

Lemma find_lines_for_date_beyond_eof (fuel : nat) (start end_ : Z)
  (content : bytes) (target_date : str) :
  0 <= start < end_ -> len content < end_ ->
  find_lines_for_date fuel (start, end_) content target_date = None.
Proof.
  intros Hs He. unfold find_lines_for_date, file_seek.
  destruct (Z.leb_spec 0 start); [|lia].
  fold (first_read content start).
  assert (Hfirst : 0 <= first_read content start < end_).
  { unfold first_read. destruct (0 <? start); [|lia].
    pose proof (readline_bounds content start ltac:(lia)). lia. }
  now rewrite scan_loop_beyond_eof by lia.
Qed.

(** X1: the scan of a chunk with 0 <= start < end returns, for some amount of
    fuel, exactly when the end of the chunk does not lie beyond the end of
    the file; it then returns a list of lines and raises nothing. *)
Theorem find_lines_for_date_returns_iff (start end_ : Z) (content : bytes)
  (target_date : str) :
  0 <= start < end_ ->
  ((exists fuel lines,
       find_lines_for_date fuel (start, end_) content target_date
       = Some (Ok lines))
   <-> end_ <= len content)
  /\ (forall fuel e,
        find_lines_for_date fuel (start, end_) content target_date
        <> Some (Raise e)).
Proof.
  intros Hs. split; [split|].
  - intros [fuel [lines H]].
    destruct (Z_le_gt_dec end_ (len content)) as [Hle|Hgt]; [exact Hle|].
    rewrite find_lines_for_date_beyond_eof in H by lia. discriminate.
  - intros Hle. exists (Z.to_nat (len content)).
    apply find_lines_for_date_returns; cbn [fst snd]; lia.
  - intros fuel e. unfold find_lines_for_date, file_seek.
    destruct (Z.leb_spec 0 start); [|lia].
    destruct (scan_loop fuel content target_date end_ _ []); discriminate.
Qed.

Lemma find_lines_for_date_returns_iff_witness :
  ((exists fuel lines,
       find_lines_for_date fuel (0, 40) same_day_file jan_1 = Some (Ok lines))
   <-> 40 <= len same_day_file)
  /\ (forall fuel e,
        find_lines_for_date fuel (0, 40) same_day_file jan_1
        <> Some (Raise e)).
Proof.
  apply (find_lines_for_date_returns_iff 0 40 same_day_file jan_1). lia.
Defined.

Lemma str_eqb_eq (a b : str) : str_eqb a b = true -> a = b.
Proof. unfold str_eqb. now destruct (list_eq_dec N.eq_dec a b). Qed.

Lemma line_result_in (content : bytes) (target_date : str) (pos : Z)
  (out : str) :
  In out (line_result content target_date pos) ->
  let line := text_of (fst (readline content pos)) in
  line <> []
  /\ extract_date_from_line line = Ok target_date
  /\ format_line_for_output line = Ok out.
Proof.
  unfold line_result, scan_line. cbv zeta.
  destruct (text_of (fst (readline content pos))) as [|c line] eqn:E;
    [contradiction|].
  cbn [is_empty].
  destruct (extract_date_from_line (c :: line)) as [date|e]; [|contradiction].
  cbn [bind]. destruct (str_eqb date target_date) eqn:Ed; [|contradiction].
  apply str_eqb_eq in Ed. subst date.
  destruct (format_line_for_output (c :: line)) as [f|e]; [|contradiction].
  cbn. intros [<-|[]]. repeat split. discriminate.
Qed.

(** X2: every line that the scan of a chunk returns is the normalized form of
    a non-blank line of the target date, read at an offset that lies at or
    after the start of the chunk and before its end. *)
Theorem find_lines_for_date_sound (fuel : nat) (start end_ : Z)
  (content : bytes) (target_date : str) (lines : list str) :
  0 <= start ->
  find_lines_for_date fuel (start, end_) content target_date = Some (Ok lines) ->
  forall out, In out lines ->
  exists pos,
    start <= pos < end_
    /\ text_of (fst (readline content pos)) <> []
    /\ extract_date_from_line (text_of (fst (readline content pos)))
       = Ok target_date
    /\ format_line_for_output (text_of (fst (readline content pos))) = Ok out.
Proof.
  intros Hs H out Hin.
  destruct (find_lines_for_date_reads fuel start end_ content target_date lines
              Hs H) as [Hlines Hrange].
  rewrite Hlines in Hin. apply in_flat_map in Hin as [pos [Hpos Hout]].
  rewrite Forall_forall in Hrange. specialize (Hrange pos Hpos).
  apply line_result_in in Hout. exists pos. split; [|exact Hout].
  assert (start <= first_read content start); [|lia].
  unfold first_read. destruct (0 <? start); [|lia].
  pose proof (readline_bounds content start Hs). lia.
Qed.

Lemma find_lines_for_date_sound_witness :
  exists pos,
    0 <= pos < 40
    /\ text_of (fst (readline same_day_file pos)) <> []
    /\ extract_date_from_line (text_of (fst (readline same_day_file pos)))
       = Ok jan_1
    /\ format_line_for_output (text_of (fst (readline same_day_file pos)))
       = Ok (str_of "2024-01-01 08:00:00 INFO start").
Proof.
  apply (find_lines_for_date_sound 2 0 40 same_day_file jan_1
           [str_of "2024-01-01 08:00:00 INFO start"]);
    [lia | reflexivity | now left].
Defined.

(** ** Whole calls of process_file *)

Lemma tiling_last (a b : Z) (chunks : list chunk) :
  tiling a b chunks -> a < b -> exists s', In (s', b) chunks /\ a <= s' < b.
Proof.
  induction 1 as [a b Hab|a m b rest Ham Hmb Ht IH]; intros Hlt; [lia|].
  destruct (Z.eq_dec m b) as [->|Hne].
  - exists a. split; [now left | lia].
  - destruct IH as [s' [Hin Hs']]; [lia|].
    exists s'. split; [now right | lia].
Qed.

Lemma starmap_none (fuel : nat) (chunks : list chunk) (content : bytes)
  (target_date : str) (c : chunk) :
  In c chunks ->
  find_lines_for_date fuel c content target_date = None ->
  starmap fuel chunks content target_date = None.
Proof.
  induction chunks as [|c' chunks IH]; intros Hin Hnone; [contradiction|].
  cbn [starmap]. destruct Hin as [->|Hin].
  - now rewrite Hnone.
  - rewrite (IH Hin Hnone).
    now destruct (find_lines_for_date fuel c' content target_date).
Qed.

(** Whatever the fuel, a plan that is built has the shape of
    [plan_chunks_shape]. *)
Lemma plan_chunks_some_shape (fuel : nat) (size file_size estimated_pos : Z)
  (chunks : list chunk) :
  0 < size -> 0 <= file_size ->
  plan_chunks fuel size file_size estimated_pos = Some chunks ->
  exists before after,
    tiling 0 (primary_start size file_size estimated_pos) before
    /\ tiling (primary_end size file_size estimated_pos) file_size after
    /\ chunks = (primary_start size file_size estimated_pos,
                 primary_end size file_size estimated_pos) :: before ++ after.
Proof.
  intros Hs Hfs H.
  destruct (plan_chunks_shape size file_size estimated_pos Hs Hfs)
    as [before [after [Hb [Ha Hplan]]]].
  exists before, after. split; [exact Hb|]. split; [exact Ha|].
  set (bound := Z.max file_size (primary_start size file_size estimated_pos)) in *.
  set (f0 := Z.to_nat (bound / size + 1)).
  assert (Hf0 : bound <= size * Z.of_nat (Nat.max fuel f0)).
  { assert (Hb0 : 0 <= bound) by (unfold bound; lia).
    pose proof (Z.div_pos bound size Hb0 Hs).
    pose proof (Z.mul_succ_div_gt bound size Hs).
    assert (bound <= size * Z.of_nat f0)
      by (unfold f0; rewrite Z2Nat.id by lia; lia).
    assert (Z.of_nat f0 <= Z.of_nat (Nat.max fuel f0)) by lia.
    nia. }
  specialize (Hplan (Nat.max fuel f0) Hf0).
  rewrite (plan_chunks_mono fuel (Nat.max fuel f0) _ _ _ chunks H) in Hplan
    by lia.
  congruence.
Qed.

Lemma plan_chunks_starts (fuel : nat) (size file_size estimated_pos : Z)
  (chunks : list chunk) :
  0 < size -> 0 <= file_size ->
  plan_chunks fuel size file_size estimated_pos = Some chunks ->
  Forall (fun c => 0 <= fst c) chunks.
Proof.
  intros Hs Hfs H.
  destruct (plan_chunks_some_shape fuel size file_size estimated_pos chunks
              Hs Hfs H) as [before [after [Hb [Ha ->]]]].
  assert (H1 : 0 <= primary_end size file_size estimated_pos).
  { unfold primary_end, primary_start.
    pose proof (primary_chunk_size_nonneg size file_size Hs Hfs). lia. }
  constructor; [cbn; unfold primary_start; lia|].
  apply Forall_app. split.
  - eapply Forall_impl; [|exact (tiling_bounds _ _ _ Hb)].
    intros c Hc. cbv beta in Hc. lia.
  - eapply Forall_impl; [|exact (tiling_bounds _ _ _ Ha)].
    intros c Hc. cbv beta in Hc. lia.
Qed.

Lemma starmap_never_raises (fuel : nat) (chunks : list chunk) (content : bytes)
  (target_date : str) (e : exn) :
  Forall (fun c => 0 <= fst c) chunks ->
  starmap fuel chunks content target_date <> Some (Raise e).
Proof.
  induction 1 as [|c chunks Hc _ IH]; [discriminate|].
  cbn [starmap]. destruct c as [start end_]. cbn [fst] in Hc.
  unfold find_lines_for_date at 1, file_seek.
  destruct (Z.leb_spec 0 start); [|lia].
  destruct (scan_loop fuel content target_date end_ _ []); [|discriminate].
  destruct (starmap fuel chunks content target_date) as [[rs|e']|];
    cbn; congruence.
Qed.

Lemma plan_nonempty (fuel : nat) (content : bytes) (target_date : str) :
  content <> [] ->
  exists first_date last_date,
    find_date_boundaries content (len content) = Ok (first_date, last_date)
    /\ plan fuel content target_date
       = match plan_chunks fuel chunk_size (len content)
                 (estimate_position (len content) target_date
                    first_date last_date) with
         | Some chunks => Some (Ok chunks)
         | None => None
         end.
Proof.
  intros Hne. destruct (find_date_boundaries_total content) as [first [last Hb]].
  exists first, last. split; [exact Hb|].
  unfold plan. destruct content; [congruence|].
  cbn [mmap is_empty]. now rewrite Hb.
Qed.

(** A call on a non-empty file that returns went through every step: the
    boundary dates were read, the chunks planned from their estimate, every
    chunk scanned, and the output step taken on the results of the scans in
    the order of the plan. *)
Lemma process_file_steps (d : disk) (fuel : nat) (content : bytes)
  (target_date output_file : str) (r : run) :
  content <> [] ->
  process_file d fuel content target_date output_file = Some r ->
  exists first_date last_date chunks chunk_results,
    find_date_boundaries content (len content) = Ok (first_date, last_date)
    /\ plan_chunks fuel chunk_size (len content)
         (estimate_position (len content) target_date first_date last_date)
       = Some chunks
    /\ plan fuel content target_date = Some (Ok chunks)
    /\ starmap fuel chunks content target_date = Some (Ok chunk_results)
    /\ r = write_output d output_file chunk_results.
Proof.
  intros Hne H.
  destruct (plan_nonempty fuel content target_date Hne)
    as [first [last [Hb Hplan]]].
  exists first, last.
  unfold process_file in H. rewrite Hplan in H. rewrite Hplan.
  destruct (plan_chunks fuel chunk_size (len content) _) as [chunks|] eqn:Ec;
    [|discriminate].
  assert (Hstarts : Forall (fun c => 0 <= fst c) chunks).
  { eapply (plan_chunks_starts fuel chunk_size (len content));
      [reflexivity | unfold len; lia | exact Ec]. }
  destruct (starmap fuel chunks content target_date) as [[rs|e]|] eqn:Es;
    [|exfalso; now apply (starmap_never_raises _ _ _ _ e Hstarts) in Es
     |discriminate].
  injection H as <-. exists chunks, rs. repeat split; auto.
Qed.


Lemma plan_chunks_unique (f1 f2 : nat) (size file_size estimated_pos : Z)
  (c1 c2 : list chunk) :
  plan_chunks f1 size file_size estimated_pos = Some c1 ->
  plan_chunks f2 size file_size estimated_pos = Some c2 ->
  c1 = c2.
Proof.
  intros H1 H2.
  apply (plan_chunks_mono f1 (Nat.max f1 f2)) in H1; [|lia].
  apply (plan_chunks_mono f2 (Nat.max f1 f2)) in H2; [|lia].
  congruence.
Qed.

(** C10: on every non-empty file the plan is the primary chunk, computed from
    the estimate for the boundary dates of the file, then the chunks that
    lead from offset 0 to its start in ascending order, then the chunks that
    lead from its end to the end of the file in ascending order.  A call that
    returns has scanned these chunks and handed the results of the scans, in
    the order of the plan, to the output step, and a call returns whenever
    the primary chunk starts inside the file.  The output step writes every
    line of every result, followed by a newline, in the order of the results
    and of the lines in each, and counts each line, without sorting or
    dropping any; it returns [True] with that text and that count exactly
    when the directory can be made, the file opened and the text written. *)
Theorem plan_order_and_output_order (d : disk) (content : bytes)
  (target_date output_file : str) :
  content <> [] ->
  exists first_date last_date prefix suffix,
    let file_size := len content in
    let estimated_pos :=
      estimate_position file_size target_date first_date last_date in
    let p_start := primary_start chunk_size file_size estimated_pos in
    let p_end := primary_end chunk_size file_size estimated_pos in
    let chunks := (p_start, p_end) :: prefix ++ suffix in
    find_date_boundaries content file_size = Ok (first_date, last_date)
    /\ tiling 0 p_start prefix /\ ascending prefix
    /\ tiling p_end file_size suffix /\ ascending suffix
    /\ (forall fuel,
          Z.max file_size p_start <= chunk_size * Z.of_nat fuel ->
          plan_chunks fuel chunk_size file_size estimated_pos = Some chunks
          /\ plan fuel content target_date = Some (Ok chunks))
    /\ (forall fuel r,
          process_file d fuel content target_date output_file = Some r ->
          exists chunk_results,
            Forall2
              (fun c lines =>
                 find_lines_for_date fuel c content target_date
                 = Some (Ok lines))
              chunks chunk_results
            /\ r = write_output d output_file chunk_results)
    /\ (p_start <= file_size ->
        exists chunk_results,
          process_file d (Z.to_nat file_size) content target_date output_file
          = Some (write_output d output_file chunk_results))
    /\ (forall chunk_results,
          let lines := List.concat chunk_results in
          write_results chunk_results = (lines_text lines, len lines)
          /\ returned (write_output d output_file chunk_results)
             = writable d output_file (lines_text lines)
          /\ (writable d output_file (lines_text lines) = true ->
              write_output d output_file chunk_results
              = {| returned := true;
                   output := Some (lines_text lines);
                   count := Some (len lines) |})).
Proof.
  intros Hne.
  assert (Hlen : 0 <= len content) by (unfold len; lia).
  assert (Hs : 0 < chunk_size) by reflexivity.
  destruct (find_date_boundaries_total content) as [first [last Hb]].
  destruct (plan_chunks_shape chunk_size (len content)
              (estimate_position (len content) target_date first last) Hs Hlen)
    as [prefix [suffix [Hp [Hsuf Hshape]]]].
  exists first, last, prefix, suffix. cbv zeta.
  set (est := estimate_position (len content) target_date first last) in *.
  set (p_start := primary_start chunk_size (len content) est) in *.
  set (p_end := primary_end chunk_size (len content) est) in *.
  assert (Hplan : forall fuel,
             plan fuel content target_date
             = match plan_chunks fuel chunk_size (len content) est with
               | Some chunks => Some (Ok chunks)
               | None => None
               end).
  { intros fuel.
    destruct (plan_nonempty fuel content target_date Hne)
      as [first' [last' [Hb' ->]]].
    rewrite Hb in Hb'. now injection Hb' as <- <-. }
  assert (Hfuel : exists f0, Z.max (len content) p_start
                             <= chunk_size * Z.of_nat f0).
  { exists (Z.to_nat (Z.max (len content) p_start)).
    rewrite Z2Nat.id by lia. unfold chunk_size. lia. }
  split; [exact Hb|].
  split; [exact Hp|]. split; [exact (tiling_ascending _ _ _ Hp)|].
  split; [exact Hsuf|]. split; [exact (tiling_ascending _ _ _ Hsuf)|].
  split.
  { intros fuel Hf. rewrite Hplan, (Hshape fuel Hf). now split. }
  split.
  { intros fuel r Hr.
    destruct (process_file_steps d fuel content target_date output_file r
                Hne Hr)
      as [first' [last' [chunks [rs [Hb' [Ec [_ [Hstar ->]]]]]]]].
    rewrite Hb in Hb'. injection Hb' as <- <-. fold est in Ec.
    destruct Hfuel as [f0 Hf0].
    rewrite (plan_chunks_unique _ _ _ _ _ _ _ Ec (Hshape f0 Hf0)) in Hstar.
    exists rs. split; [now apply starmap_in_order | reflexivity]. }
  split.
  { intros Hstart.
    apply (process_file_returns d content target_date output_file Hne).
    intros first' last' Hb'. rewrite Hb in Hb'. now injection Hb' as <- <-. }
  intros rs. split; [apply write_results_flat|].
  split; [apply write_output_returned | apply write_output_written].
Qed.

Lemma plan_order_and_output_order_witness :
  exists first_date last_date prefix suffix,
    let file_size := len same_day_file in
    let estimated_pos :=
      estimate_position file_size jan_1 first_date last_date in
    let p_start := primary_start chunk_size file_size estimated_pos in
    let p_end := primary_end chunk_size file_size estimated_pos in
    let chunks := (p_start, p_end) :: prefix ++ suffix in
    find_date_boundaries same_day_file file_size = Ok (first_date, last_date)
    /\ tiling 0 p_start prefix /\ ascending prefix
    /\ tiling p_end file_size suffix /\ ascending suffix
    /\ (forall fuel,
          Z.max file_size p_start <= chunk_size * Z.of_nat fuel ->
          plan_chunks fuel chunk_size file_size estimated_pos = Some chunks
          /\ plan fuel same_day_file jan_1 = Some (Ok chunks))
    /\ (forall fuel r,
          process_file sound_disk fuel same_day_file jan_1 (output_name jan_1) = Some r ->
          exists chunk_results,
            Forall2
              (fun c lines =>
                 find_lines_for_date fuel c same_day_file jan_1
                 = Some (Ok lines))
              chunks chunk_results
            /\ r = write_output sound_disk (output_name jan_1) chunk_results)
    /\ (p_start <= file_size ->
        exists chunk_results,
          process_file sound_disk (Z.to_nat file_size) same_day_file jan_1 (output_name jan_1)
          = Some (write_output sound_disk (output_name jan_1) chunk_results))
    /\ (forall chunk_results,
          let lines := List.concat chunk_results in
          write_results chunk_results = (lines_text lines, len lines)
          /\ returned (write_output sound_disk (output_name jan_1) chunk_results)
             = writable sound_disk (output_name jan_1) (lines_text lines)
          /\ (writable sound_disk (output_name jan_1) (lines_text lines) = true ->
              write_output sound_disk (output_name jan_1) chunk_results
              = {| returned := true;
                   output := Some (lines_text lines);
                   count := Some (len lines) |})).
Proof.
  apply (plan_order_and_output_order sound_disk same_day_file jan_1
           (output_name jan_1)).
  discriminate.
Defined.



(** X4: on a non-empty file, process_file returns (for some amount of fuel)
    exactly when the start of the primary chunk, computed from the estimate
    for the detected boundary dates, does not lie beyond the end of the file;
    otherwise the scan of the last prefix chunk never ends.  The file system
    of the output has no part in it. *)
Theorem process_file_returns_iff (d : disk) (content : bytes)
  (target_date output_file : str) (first_date last_date : str) :
  content <> [] ->
  find_date_boundaries content (len content) = Ok (first_date, last_date) ->
  ((exists fuel r,
      process_file d fuel content target_date output_file = Some r)
   <-> primary_start chunk_size (len content)
         (estimate_position (len content) target_date first_date last_date)
       <= len content).
Proof.
  intros Hne Hb.
  set (est := estimate_position (len content) target_date first_date last_date).
  assert (Hlen : 0 <= len content) by (unfold len; lia).
  split.
  - intros [fuel [r H]].
    destruct (Z_le_gt_dec (primary_start chunk_size (len content) est)
                (len content)) as [Hle|Hgt]; [exact Hle|exfalso].
    destruct (plan_nonempty fuel content target_date Hne)
      as [first [last [Hb' Hplan]]].
    rewrite Hb in Hb'. injection Hb' as <- <-. fold est in Hplan.
    unfold process_file in H. rewrite Hplan in H.
    destruct (plan_chunks fuel chunk_size (len content) est) as [chunks|] eqn:Ec;
      [|discriminate].
    destruct (plan_chunks_some_shape fuel chunk_size (len content) est chunks
                ltac:(reflexivity) Hlen Ec) as [before [after [Htb [_ ->]]]].
    destruct (tiling_last _ _ _ Htb ltac:(lia)) as [s' [Hin Hs']].
    rewrite (starmap_none fuel _ content target_date (s', primary_start chunk_size (len content) est))
      in H; [discriminate | right; apply in_or_app; now left|].
    apply find_lines_for_date_beyond_eof; lia.
  - intros Hle.
    destruct (process_file_returns d content target_date output_file Hne)
      as [rs Hr].
    + intros first last Hb'. rewrite Hb in Hb'. now injection Hb' as <- <-.
    + eauto.
Qed.

Lemma process_file_returns_iff_witness :
  (exists fuel r,
     process_file sound_disk fuel two_day_file jan_3 (output_name jan_3) = Some r)
  <-> primary_start chunk_size (len two_day_file)
        (estimate_position (len two_day_file) jan_3 jan_1 jan_2)
      <= len two_day_file.
Proof.
  apply (process_file_returns_iff sound_disk two_day_file jan_3
           (output_name jan_3) jan_1 jan_2).
  - discriminate.
  - reflexivity.
Defined.

(** ** The lines of a file *)

Lemma take_line_split (bs : bytes) :
  bs = take_line bs ++ skipn (List.length (take_line bs)) bs.
Proof.
  induction bs as [|b bs IH]; [reflexivity|].
  cbn [take_line]. destruct (is_newline b); [reflexivity|].
  cbn. f_equal. exact IH.
Qed.

Lemma take_line_skipn (k : nat) (bs : bytes) :
  (k < List.length (take_line bs))%nat ->
  take_line (skipn k bs) = skipn k (take_line bs).
Proof.
  revert k. induction bs as [|b bs IH]; intros k Hk; [cbn in Hk; lia|].
  destruct k as [|k]; [reflexivity|].
  cbn [take_line] in *. destruct (is_newline b); cbn in Hk; [lia|].
  cbn [skipn]. apply IH. lia.
Qed.

Lemma lines_from_cons (current bs : bytes) :
  bs <> [] ->
  lines_from current bs =
  (rev current ++ take_line bs)
    :: lines_from [] (skipn (List.length (take_line bs)) bs).
Proof.
  revert current. induction bs as [|b bs IH]; intros current Hne; [congruence|].
  cbn [lines_from take_line]. destruct (is_newline b).
  - reflexivity.
  - destruct bs as [|b' bs'].
    + cbn. reflexivity.
    + rewrite IH by discriminate. cbn [rev List.length skipn].
      now rewrite <- app_assoc.
Qed.

Lemma file_lines_cons (bs : bytes) :
  bs <> [] ->
  file_lines bs =
  take_line bs :: file_lines (skipn (List.length (take_line bs)) bs).
Proof. intros H. unfold file_lines. now rewrite lines_from_cons. Qed.

Lemma locate_ge (pos : Z) (lines : list bytes) :
  Forall (fun pl => pos <= fst pl) (locate pos lines).
Proof.
  revert pos. induction lines as [|l lines IH]; intros pos; constructor.
  - cbn. lia.
  - eapply Forall_impl; [|apply IH]. intros pl H. cbv beta in H.
    unfold len in H. lia.
Qed.

Lemma filter_all_false {A : Type} (f : A -> bool) (l : list A) :
  Forall (fun x => f x = false) l -> filter f l = [].
Proof.
  induction 1 as [|x l Hx _ IH]; [reflexivity|]. cbn. now rewrite Hx.
Qed.

Lemma filter_all_true {A : Type} (f : A -> bool) (l : list A) :
  Forall (fun x => f x = true) l -> filter f l = l.
Proof.
  induction 1 as [|x l Hx _ IH]; [reflexivity|]. cbn. now rewrite Hx, IH.
Qed.

(** From a line start on, the loop reads at the starts of the lines that
    follow, up to the end of the chunk. *)
Lemma read_offsets_lines (fuel : nat) (content : bytes) (end_ pos : Z) :
  0 <= pos -> end_ <= len content ->
  (List.length (skipn (Z.to_nat pos) content) <= fuel)%nat ->
  read_offsets fuel content end_ pos =
  filter (fun p => p <? end_)
    (List.map fst (locate pos (file_lines (skipn (Z.to_nat pos) content)))).
Proof.
  revert pos. induction fuel as [|fuel IH]; intros pos Hpos Hend Hfuel.
  - assert (E : skipn (Z.to_nat pos) content = [])
      by (destruct (skipn (Z.to_nat pos) content); [reflexivity | cbn in Hfuel; lia]).
    rewrite E. cbn. now destruct (pos <? end_).
  - cbn [read_offsets]. destruct (Z.ltb_spec pos end_) as [Hlt|Hge].
    + assert (Hne : skipn (Z.to_nat pos) content <> []).
      { intros E. apply (f_equal (@List.length _)) in E.
        rewrite length_skipn in E. unfold len in Hend. cbn in E. lia. }
      rewrite (file_lines_cons _ Hne). cbn [locate List.map fst filter].
      destruct (Z.ltb_spec pos end_); [|lia]. f_equal.
      unfold readline. cbn [snd].
      pose proof (take_line_nonempty _ Hne) as Hl.
      pose proof (take_line_length (skipn (Z.to_nat pos) content)) as Hl'.
      rewrite IH.
      * unfold len at 1 2. rewrite skipn_skipn.
        replace (Z.to_nat (pos + Z.of_nat (List.length
                   (take_line (skipn (Z.to_nat pos) content)))))
          with (List.length (take_line (skipn (Z.to_nat pos) content))
                + Z.to_nat pos)%nat by lia.
        reflexivity.
      * unfold len. lia.
      * exact Hend.
      * unfold len.
        replace (Z.to_nat (pos + Z.of_nat (List.length
                   (take_line (skipn (Z.to_nat pos) content)))))
          with (List.length (take_line (skipn (Z.to_nat pos) content))
                + Z.to_nat pos)%nat by lia.
        rewrite <- skipn_skipn, length_skipn. lia.
    + symmetry. apply filter_all_false. rewrite Forall_map.
      eapply Forall_impl; [|apply locate_ge]. intros pl H. cbv beta in H.
      apply Z.ltb_ge. lia.
Qed.

(** Once the loop has returned, more fuel adds no read. *)
Lemma read_offsets_complete (f1 f2 : nat) (content : bytes) (target_date : str)
  (end_ pos : Z) (results out : list str) :
  scan_loop f1 content target_date end_ pos results = Some out ->
  (f1 <= f2)%nat ->
  read_offsets f2 content end_ pos = read_offsets f1 content end_ pos.
Proof.
  revert f2 pos results. induction f1 as [|f1 IH]; intros f2 pos results H Hle.
  - cbn [scan_loop] in H. destruct f2; cbn [read_offsets];
      destruct (pos <? end_); try discriminate; reflexivity.
  - destruct f2 as [|f2]; [lia|]. cbn [scan_loop read_offsets] in *.
    destruct (pos <? end_); [|reflexivity]. f_equal.
    destruct (readline content pos) as [raw pos']. cbn [snd].
    destruct (scan_line target_date (text_of raw) results);
      eapply IH; try exact H; lia.
Qed.

(** The line starts that follow the line holding byte [k] are the line starts
    after [k]: a read from the middle of a line, or from its first byte, ends
    at the start of the next line. *)
Lemma skip_line_starts (n : nat) (bs : bytes) (base : Z) (k : nat) :
  (List.length bs <= n)%nat -> (k < List.length bs)%nat ->
  List.map fst
    (locate (base + Z.of_nat (k + List.length (take_line (skipn k bs))))
       (file_lines (skipn (k + List.length (take_line (skipn k bs))) bs)))
  = filter (fun p => base + Z.of_nat k <? p)
      (List.map fst (locate base (file_lines bs))).
Proof.
  revert bs base k. induction n as [|n IH]; intros bs base k Hn Hk; [lia|].
  assert (Hne : bs <> []) by (destruct bs; [cbn in Hk; lia | discriminate]).
  pose proof (take_line_nonempty bs Hne) as Hl1.
  pose proof (take_line_split bs) as Hsplit.
  set (l1 := take_line bs) in *.
  set (rest := skipn (List.length l1) bs) in *.
  assert (Hlen : List.length bs = (List.length l1 + List.length rest)%nat)
    by (rewrite Hsplit at 1; apply length_app).
  rewrite (file_lines_cons bs Hne). fold l1 rest.
  cbn [locate List.map fst filter].
  destruct (Z.ltb_spec (base + Z.of_nat k) base); [lia|].
  destruct (Nat.lt_ge_cases k (List.length l1)) as [Hlt|Hge].
  - rewrite (take_line_skipn k bs Hlt). fold l1. rewrite length_skipn.
    replace (k + (List.length l1 - k))%nat with (List.length l1) by lia.
    fold rest. unfold len. symmetry. apply filter_all_true.
    rewrite Forall_map. eapply Forall_impl; [|apply locate_ge].
    intros pl Hpl. cbv beta in Hpl. apply Z.ltb_lt. lia.
  - set (k2 := (k - List.length l1)%nat).
    assert (Hskip : skipn k bs = skipn k2 rest).
    { unfold rest. rewrite skipn_skipn. f_equal. unfold k2. lia. }
    rewrite Hskip.
    set (m := List.length (take_line (skipn k2 rest))).
    assert (Hskip' : skipn (k + m) bs = skipn (k2 + m) rest).
    { unfold rest. rewrite skipn_skipn. f_equal. unfold k2. lia. }
    rewrite Hskip'.
    specialize (IH rest (base + len l1) k2 ltac:(lia) ltac:(unfold k2; lia)).
    fold m in IH. unfold len in *.
    replace (base + Z.of_nat (k + m))
      with (base + Z.of_nat (List.length l1) + Z.of_nat (k2 + m))
      by (unfold k2; lia).
    rewrite IH. apply filter_ext. intros p. f_equal. unfold k2. lia.
Qed.

Lemma first_read_line_starts (content : bytes) (start : Z) :
  0 < start < len content ->
  List.map fst
    (locate (first_read content start)
       (file_lines (skipn (Z.to_nat (first_read content start)) content)))
  = filter (fun p => start <? p) (line_starts content).
Proof.
  intros Hs. unfold first_read, line_starts, located_lines, readline, len in *.
  destruct (Z.ltb_spec 0 start) as [_|Hle]; [|lia]. cbn [snd].
  pose proof (skip_line_starts (List.length content) content 0 (Z.to_nat start)
                (Nat.le_refl _) ltac:(lia)) as Hk.
  rewrite !Z.add_0_l, Z2Nat.id in Hk by lia.
  rewrite <- Hk. f_equal.
  replace (Z.to_nat (start + Z.of_nat (List.length
             (take_line (skipn (Z.to_nat start) content)))))
    with (Z.to_nat start
          + List.length (take_line (skipn (Z.to_nat start) content)))%nat by lia.
  f_equal. lia.
Qed.

Lemma line_starts_in_file (content : bytes) :
  Forall (fun p => 0 <= p < len content) (line_starts content).
Proof.
  unfold line_starts, located_lines.
  assert (H : forall n bs base, (List.length bs <= n)%nat ->
             Forall (fun p => base <= p < base + len bs)
               (List.map fst (locate base (file_lines bs)))).
  { induction n as [|n IH]; intros bs base Hn.
    - destruct bs; [constructor | cbn in Hn; lia].
    - destruct bs as [|b bs']; [constructor|].
      set (bs := b :: bs') in *.
      assert (Hne : bs <> []) by discriminate.
      pose proof (take_line_nonempty bs Hne) as Hl1.
      pose proof (take_line_split bs) as Hsplit.
      apply (f_equal (@List.length _)) in Hsplit. rewrite length_app in Hsplit.
      rewrite (file_lines_cons bs Hne). cbn [locate List.map fst].
      constructor; [unfold len; lia|].
      eapply Forall_impl; [|apply IH; lia].
      intros p Hp. cbv beta in Hp. unfold len in *. lia. }
  specialize (H (List.length content) content 0 (Nat.le_refl _)).
  eapply Forall_impl; [|exact H]. intros p Hp. cbv beta in Hp. lia.
Qed.

(** A read at the start of a line returns that line. *)
Lemma readline_located (n : nat) (pre suf : bytes) :
  (List.length suf <= n)%nat ->
  Forall (fun pl => fst (readline (pre ++ suf) (fst pl)) = snd pl)
    (locate (len pre) (file_lines suf)).
Proof.
  revert pre suf. induction n as [|n IH]; intros pre suf Hn.
  - destruct suf; [constructor | cbn in Hn; lia].
  - destruct suf as [|b suf']; [constructor|].
    set (suf := b :: suf') in *.
    assert (Hne : suf <> []) by discriminate.
    pose proof (take_line_nonempty suf Hne) as Hl1.
    pose proof (take_line_split suf) as Hsplit.
    rewrite (file_lines_cons suf Hne). cbn [locate]. constructor.
    + cbn [fst snd]. unfold readline, len. cbn [fst].
      rewrite Nat2Z.id, skipn_app, skipn_all, Nat.sub_diag. reflexivity.
    + specialize (IH (pre ++ take_line suf)
                    (skipn (List.length (take_line suf)) suf)).
      rewrite <- app_assoc, <- Hsplit in IH.
      replace (len (pre ++ take_line suf)) with (len pre + len (take_line suf))
        in IH by (unfold len; rewrite length_app; lia).
      apply IH.
      apply (f_equal (@List.length _)) in Hsplit. rewrite length_app in Hsplit.
      lia.
Qed.

Lemma line_result_formatted (content : bytes) (target_date : str) (pos : Z)
  (raw : bytes) :
  fst (readline content pos) = raw ->
  line_result content target_date pos = formatted target_date raw.
Proof.
  intros <-. unfold line_result, formatted, line_matches, scan_line.
  destruct (is_empty (text_of (fst (readline content pos)))); [reflexivity|].
  destruct (extract_date_from_line _) as [date|e]; [|reflexivity].
  cbn [bind negb andb]. destruct (str_eqb date target_date); [|reflexivity].
  destruct (format_line_for_output _); reflexivity.
Qed.

Lemma flat_map_located (content : bytes) (target_date : str) (P : Z -> bool) :
  flat_map (line_result content target_date) (filter P (line_starts content))
  = flat_map (fun pl => if P (fst pl) then formatted target_date (snd pl) else [])
      (located_lines content).
Proof.
  unfold line_starts.
  pose proof (readline_located (List.length content) [] content (Nat.le_refl _))
    as H.
  change (len []) with 0 in H. cbn [app] in H. fold (located_lines content) in H.
  induction H as [|pl pairs Hpl _ IH]; [reflexivity|].
  cbn [List.map filter flat_map]. destruct (P (fst pl)).
  - cbn [flat_map]. now rewrite IH, (line_result_formatted _ _ _ _ Hpl).
  - exact IH.
Qed.

Lemma filter_both {A : Type} (f g : A -> bool) (l : list A) :
  filter g (filter f l) = filter (fun x => f x && g x) l.
Proof.
  induction l as [|x l IH]; [reflexivity|].
  cbn. destruct (f x); cbn; [destruct (g x)|]; now rewrite IH.
Qed.

Lemma skipn_beyond {A : Type} (n : nat) (l : list A) :
  (List.length l <= n)%nat -> skipn n l = [].
Proof.
  intros H. apply length_zero_iff_nil. rewrite length_skipn. lia.
Qed.

Lemma flat_map_nil {A B : Type} (f : A -> list B) (l : list A) :
  Forall (fun x => f x = []) l -> flat_map f l = [].
Proof.
  induction 1 as [|x l Hx _ IH]; [reflexivity|]. cbn. now rewrite Hx, IH.
Qed.

(** The scan of a chunk that ends inside the file returns, in file order, the
    normalized text of the lines that count for the target date and begin
    before the end of the chunk and, unless the chunk starts at offset 0,
    after its start. *)
Lemma scan_lines_exact (fuel : nat) (start end_ : Z) (content : bytes)
  (target_date : str) (lines : list str) :
  0 <= start -> end_ <= len content ->
  find_lines_for_date fuel (start, end_) content target_date = Some (Ok lines) ->
  lines = flat_map
            (fun pl => if scans (start, end_) (fst pl)
                       then formatted target_date (snd pl) else [])
            (located_lines content).
Proof.
  intros Hs He H. unfold find_lines_for_date, file_seek in H.
  destruct (Z.leb_spec 0 start) as [_|Hlt]; [|lia].
  fold (first_read content start) in H.
  destruct (scan_loop fuel content target_date end_ (first_read content start) [])
    as [out|] eqn:E; [|discriminate].
  injection H as <-.
  assert (Hfirst : start <= first_read content start).
  { unfold first_read. destruct (0 <? start); [|lia].
    pose proof (readline_bounds content start Hs). lia. }
  rewrite (scan_loop_reads _ _ _ _ _ _ _ E). cbn [app].
  rewrite <- (read_offsets_complete fuel (Nat.max fuel (List.length content))
                _ _ _ _ _ _ E) by lia.
  rewrite read_offsets_lines;
    [|lia | exact He | rewrite length_skipn; lia].
  unfold scans. cbn [fst snd].
  destruct (Z.ltb_spec 0 start) as [Hpos|Hzero].
  - destruct (Z_lt_ge_dec start (len content)) as [Hin|Hout].
    + rewrite first_read_line_starts, filter_both by lia.
      apply flat_map_located.
    + rewrite skipn_beyond by (unfold len in *; lia). cbn.
      symmetry. apply flat_map_nil.
      pose proof (line_starts_in_file content) as Hl.
      unfold line_starts in Hl. rewrite Forall_map in Hl.
      eapply Forall_impl; [|exact Hl]. intros pl Hpl. cbv beta in Hpl.
      destruct (Z.ltb_spec start (fst pl)); [lia | reflexivity].
  - assert (start = 0) by lia. subst start.
    unfold first_read. cbn [Z.ltb Z.compare Z.to_nat skipn].
    fold (located_lines content). fold (line_starts content).
    rewrite (flat_map_located content target_date (fun p => p <? end_)).
    reflexivity.
Qed.

(** X5: the scan of a chunk (start, end) with 0 <= start that ends inside the
    file returns, and returns exactly, in file order, the normalized text of
    the lines of the file that count for the target date and begin before
    the end of the chunk and, unless the chunk starts at offset 0, strictly
    after its start. *)
Theorem find_lines_for_date_exact (start end_ : Z) (content : bytes)
  (target_date : str) :
  0 <= start -> end_ <= len content ->
  exists lines,
    (forall fuel, len content <= Z.of_nat fuel ->
       find_lines_for_date fuel (start, end_) content target_date
       = Some (Ok lines))
    /\ lines = flat_map
                 (fun pl => if scans (start, end_) (fst pl)
                            then formatted target_date (snd pl) else [])
                 (located_lines content).
Proof.
  intros Hs He.
  destruct (find_lines_for_date_returns (Z.to_nat (len content)) (start, end_)
              content target_date Hs He) as [lines H].
  { unfold len. lia. }
  exists lines. split.
  - intros fuel Hfuel.
    apply (find_lines_for_date_mono (Z.to_nat (len content))); [exact H | lia].
  - now apply (scan_lines_exact (Z.to_nat (len content))).
Qed.

Lemma find_lines_for_date_exact_witness :
  exists lines,
    (forall fuel, len same_day_file <= Z.of_nat fuel ->
       find_lines_for_date fuel (40, 80) same_day_file jan_1 = Some (Ok lines))
    /\ lines = flat_map
                 (fun pl => if scans (40, 80) (fst pl)
                            then formatted jan_1 (snd pl) else [])
                 (located_lines same_day_file).
Proof.
  apply (find_lines_for_date_exact 40 80 same_day_file jan_1).
  - lia.
  - vm_compute. discriminate.
Defined.

(** ** Which lines a plan reads *)

Lemma plan_chunks_covering (fuel : nat) (size file_size estimated_pos : Z)
  (chunks : list chunk) (x : Z) :
  0 < size -> 0 <= file_size ->
  primary_start size file_size estimated_pos <= file_size ->
  plan_chunks fuel size file_size estimated_pos = Some chunks ->
  Forall (fun c => 0 <= fst c /\ snd c <= file_size) chunks
  /\ covering x chunks = if (0 <=? x) && (x <? file_size) then 1%nat else 0%nat.
Proof.
  intros Hs Hfs Hstart H.
  destruct (plan_chunks_some_shape fuel size file_size estimated_pos chunks
              Hs Hfs H) as [before [after [Hb [Ha ->]]]].
  set (p_start := primary_start size file_size estimated_pos) in *.
  set (p_end := primary_end size file_size estimated_pos) in *.
  assert (H0 : 0 <= p_start) by (unfold p_start, primary_start; lia).
  assert (H1 : p_start <= p_end).
  { unfold p_end, primary_end. fold p_start.
    pose proof (primary_chunk_size_nonneg size file_size Hs Hfs). lia. }
  assert (H2 : p_end <= file_size) by (unfold p_end, primary_end; lia).
  split.
  - constructor; [cbn; lia|]. apply Forall_app. split.
    + eapply Forall_impl; [|exact (tiling_bounds _ _ _ Hb)].
      intros c Hc. cbv beta in Hc. lia.
    + eapply Forall_impl; [|exact (tiling_bounds _ _ _ Ha)].
      intros c Hc. cbv beta in Hc. lia.
  - change ((p_start, p_end) :: before ++ after)
      with ([(p_start, p_end)] ++ before ++ after).
    rewrite !covering_app, (tiling_covering _ _ _ x Hb), (tiling_covering _ _ _ x Ha).
    unfold covering. cbn [filter]. unfold in_chunk. cbn [fst snd].
    destruct (Z.leb_spec p_start x), (Z.ltb_spec x p_end),
      (Z.leb_spec 0 x), (Z.ltb_spec x p_start),
      (Z.leb_spec p_end x), (Z.ltb_spec x file_size);
      cbn; try reflexivity; lia.
Qed.

Lemma scans_in_chunk (c : chunk) (pos : Z) :
  0 <= fst c -> 0 <= pos ->
  scans c pos
  = in_chunk pos c && negb ((0 <? pos) && (fst c =? pos) && (pos <? snd c)).
Proof.
  destruct c as [s' e]. unfold scans, in_chunk. cbn [fst snd]. intros Hs Hp.
  destruct (Z.ltb_spec 0 s'), (Z.ltb_spec s' pos), (Z.ltb_spec pos e),
    (Z.leb_spec s' pos), (Z.ltb_spec 0 pos), (Z.eqb_spec s' pos);
    cbn; try reflexivity; lia.
Qed.

Lemma filter_one {A : Type} (f : A -> bool) (l : list A) :
  List.length (filter f l) = 1%nat -> exists x, filter f l = [x] /\ f x = true.
Proof.
  intros H. destruct (filter f l) as [|x [|y r]] eqn:E; try discriminate.
  exists x. split; [reflexivity|].
  assert (Hin : In x (filter f l)) by (rewrite E; now left).
  now apply filter_In in Hin.
Qed.

Lemma existsb_filter {A : Type} (f g : A -> bool) (l : list A) :
  (forall x, g x = true -> f x = true) ->
  existsb g l = existsb g (filter f l).
Proof.
  intros Himp. induction l as [|x l IH]; [reflexivity|].
  cbn. destruct (f x) eqn:Ef; cbn; rewrite IH; [reflexivity|].
  destruct (g x) eqn:Eg; [|reflexivity].
  apply Himp in Eg. congruence.
Qed.

(** In a plan that stays inside the file, the line at an offset of the file
    is read by the scan of one chunk, or of none if the offset is the start
    of a chunk other than offset 0. *)
Lemma plan_scan_count (fuel : nat) (size file_size estimated_pos : Z)
  (chunks : list chunk) (pos : Z) :
  0 < size -> 0 <= file_size ->
  primary_start size file_size estimated_pos <= file_size ->
  plan_chunks fuel size file_size estimated_pos = Some chunks ->
  0 <= pos < file_size ->
  scan_count chunks pos = if begins_chunk chunks pos then 0%nat else 1%nat.
Proof.
  intros Hs Hfs Hstart H Hpos.
  destruct (plan_chunks_covering fuel size file_size estimated_pos chunks pos
              Hs Hfs Hstart H) as [Hin Hcov].
  destruct (Z.leb_spec 0 pos), (Z.ltb_spec pos file_size); try lia.
  cbn [andb] in Hcov. unfold covering in Hcov.
  destruct (filter_one _ _ Hcov) as [c0 [Hc0 Hc0in]].
  unfold scan_count, begins_chunk.
  rewrite (filter_ext_in (fun c => scans c pos)
             (fun c => in_chunk pos c
                       && negb ((0 <? pos) && (fst c =? pos) && (pos <? snd c)))).
  2:{ intros c Hc. rewrite Forall_forall in Hin.
      apply scans_in_chunk; [apply (Hin c Hc) | lia]. }
  rewrite <- filter_both, Hc0.
  rewrite (existsb_filter (in_chunk pos)), Hc0.
  2:{ intros c Hc. unfold in_chunk.
      destruct (Z.eqb_spec (fst c) pos), (Z.ltb_spec pos (snd c)),
        (Z.ltb_spec 0 pos); try discriminate.
      destruct (Z.leb_spec (fst c) pos); [reflexivity | lia]. }
  cbn. destruct ((0 <? pos) && (fst c0 =? pos) && (pos <? snd c0)); reflexivity.
Qed.

(** X6: in a plan whose primary chunk starts inside the file, no line is read
    by the scans of two chunks, and the line at an offset of the file is read
    by none exactly when the offset is the start of a chunk other than
    offset 0. *)
Theorem plan_reads_each_line_at_most_once (fuel : nat)
  (size file_size estimated_pos : Z) (chunks : list chunk) (pos : Z) :
  0 < size -> 0 <= file_size ->
  primary_start size file_size estimated_pos <= file_size ->
  plan_chunks fuel size file_size estimated_pos = Some chunks ->
  0 <= pos < file_size ->
  (scan_count chunks pos <= 1)%nat
  /\ (scan_count chunks pos = 0%nat <-> begins_chunk chunks pos = true).
Proof.
  intros Hs Hfs Hstart H Hpos.
  rewrite (plan_scan_count fuel size file_size estimated_pos chunks pos
             Hs Hfs Hstart H Hpos).
  destruct (begins_chunk chunks pos); split; try lia; split; congruence.
Qed.

Lemma plan_reads_each_line_at_most_once_witness :
  Nat.le (scan_count [(0, 40); (40, 80)] 40) 1
  /\ (scan_count [(0, 40); (40, 80)] 40 = 0%nat
      <-> begins_chunk [(0, 40); (40, 80)] 40 = true).
Proof.
  apply (plan_reads_each_line_at_most_once 1 chunk_size 80 0).
  - reflexivity.
  - discriminate.
  - vm_compute. discriminate.
  - reflexivity.
  - lia.
Defined.

(** ** What a call extracts *)

Lemma flat_map_app_perm {A B : Type} (g h : A -> list B) (l : list A) :
  Permutation (flat_map (fun a => g a ++ h a) l) (flat_map g l ++ flat_map h l).
Proof.
  induction l as [|a l IH]; [constructor|].
  cbn [flat_map]. rewrite <- !app_assoc. apply Permutation_app_head.
  transitivity (h a ++ flat_map g l ++ flat_map h l).
  - now apply Permutation_app_head.
  - apply Permutation_app_swap_app.
Qed.

Lemma flat_map_swap {A B C : Type} (f : A -> B -> list C)
  (la : list A) (lb : list B) :
  Permutation (flat_map (fun a => flat_map (f a) lb) la)
              (flat_map (fun b => flat_map (fun a => f a b) la) lb).
Proof.
  induction la as [|a la IH].
  - cbn. rewrite flat_map_nil; [constructor|]. now apply Forall_forall.
  - cbn [flat_map].
    transitivity (flat_map (f a) lb
                  ++ flat_map (fun b => flat_map (fun a' => f a' b) la) lb).
    + now apply Permutation_app_head.
    + symmetry. apply flat_map_app_perm.
Qed.

Lemma flat_map_if {A B : Type} (f : A -> bool) (out : list B) (l : list A) :
  flat_map (fun a => if f a then out else []) l
  = flat_map (fun _ => out) (filter f l).
Proof.
  induction l as [|a l IH]; [reflexivity|].
  cbn. destruct (f a); cbn; now rewrite IH.
Qed.

Lemma starmap_exact (fuel : nat) (chunks : list chunk) (content : bytes)
  (target_date : str) (chunk_results : list (list str)) :
  Forall (fun c => 0 <= fst c /\ snd c <= len content) chunks ->
  Forall2 (fun c lines => find_lines_for_date fuel c content target_date
                          = Some (Ok lines)) chunks chunk_results ->
  List.concat chunk_results
  = flat_map
      (fun c => flat_map
                  (fun pl => if scans c (fst pl)
                             then formatted target_date (snd pl) else [])
                  (located_lines content))
      chunks.
Proof.
  intros Hin H. induction H as [|c lines chunks rs Hc _ IH]; [reflexivity|].
  inversion Hin as [|c' l' [H0 H1] Hin']; subst.
  cbn [List.concat flat_map]. rewrite (IH Hin'). f_equal.
  destruct c as [start end_]. cbn [fst snd] in H0, H1.
  now apply (scan_lines_exact fuel).
Qed.

(** X7: on a non-empty file, when the start of the primary chunk lies inside
    the file, process_file returns.  It returns [True] exactly when the
    output step goes through, and its output then holds, each once and
    followed by a newline, the normalized lines of the file that count for
    the target date, without those that begin exactly at the start of a
    planned chunk other than offset 0; the reported count is their
    number. *)
Theorem process_file_extracts (d : disk) (content : bytes)
  (target_date output_file : str) (first_date last_date : str) :
  content <> [] ->
  find_date_boundaries content (len content) = Ok (first_date, last_date) ->
  primary_start chunk_size (len content)
    (estimate_position (len content) target_date first_date last_date)
  <= len content ->
  exists chunks lines r,
    plan (Z.to_nat (len content)) content target_date = Some (Ok chunks)
    /\ Permutation lines (extracted chunks target_date content)
    /\ process_file d (Z.to_nat (len content)) content target_date output_file
       = Some r
    /\ returned r = writable d output_file (lines_text lines)
    /\ (returned r = true ->
        r = {| returned := true;
               output := Some (lines_text lines);
               count := Some (len lines) |}).
Proof.
  intros Hne Hb Hstart.
  set (fuel := Z.to_nat (len content)).
  assert (Hlen : 0 <= len content) by (unfold len; lia).
  destruct (process_file_returns d content target_date output_file Hne)
    as [rs0 Hr].
  { intros first last Hb'. rewrite Hb in Hb'. now injection Hb' as <- <-. }
  fold fuel in Hr.
  destruct (process_file_steps d fuel content target_date output_file _ Hne Hr)
    as [first [last [chunks [rs [Hb' [Ec [Hplan [Hstar Hrun]]]]]]]].
  rewrite Hb in Hb'. injection Hb' as <- <-.
  pose proof (starmap_in_order _ _ _ _ _ Hstar) as Hscans.
  exists chunks, (List.concat rs), (write_output d output_file rs).
  split; [exact Hplan|].
  assert (Hs : 0 < chunk_size) by reflexivity.
  split.
  2:{ split; [now rewrite Hr, Hrun|].
      split; [apply write_output_returned | apply write_output_true]. }
  destruct (plan_chunks_covering fuel chunk_size (len content) _ chunks 0
              Hs Hlen Hstart Ec) as [Hin _].
  rewrite (starmap_exact fuel chunks content target_date rs Hin Hscans).
  etransitivity; [apply flat_map_swap|].
  unfold extracted.
  pose proof (line_starts_in_file content) as Hl.
  unfold line_starts in Hl. rewrite Forall_map in Hl.
  induction Hl as [|pl pairs Hpl _ IH]; [constructor|].
  cbn [flat_map]. apply Permutation_app; [|exact IH].
  rewrite flat_map_if.
  pose proof (plan_scan_count fuel chunk_size (len content) _ chunks (fst pl)
                Hs Hlen Hstart Ec Hpl) as Hn.
  unfold scan_count in Hn.
  destruct (begins_chunk chunks (fst pl)).
  - destruct (filter (fun c => scans c (fst pl)) chunks); [constructor|].
    discriminate.
  - destruct (filter_one _ _ Hn) as [c0 [-> _]]. cbn. now rewrite app_nil_r.
Qed.

Lemma process_file_extracts_witness :
  exists chunks lines r,
    plan (Z.to_nat (len same_day_file)) same_day_file jan_1 = Some (Ok chunks)
    /\ Permutation lines (extracted chunks jan_1 same_day_file)
    /\ process_file sound_disk (Z.to_nat (len same_day_file)) same_day_file
         jan_1 (output_name jan_1)
       = Some r
    /\ returned r = writable sound_disk (output_name jan_1) (lines_text lines)
    /\ (returned r = true ->
        r = {| returned := true;
               output := Some (lines_text lines);
               count := Some (len lines) |}).
Proof.
  apply (process_file_extracts sound_disk same_day_file jan_1
           (output_name jan_1) jan_1 jan_1).
  - discriminate.
  - reflexivity.
  - vm_compute. discriminate.
Defined.

(** ** The boundary detector on the lines of the file *)

Lemma locate_lines (pos : Z) (lines : list bytes) :
  List.map snd (locate pos lines) = lines.
Proof.
  revert pos. induction lines as [|l lines IH]; intros pos; [reflexivity|].
  cbn. now rewrite IH.
Qed.

(** [skip_line_starts] with the lines kept beside their offsets. *)
Lemma skip_line_located (n : nat) (bs : bytes) (base : Z) (k : nat) :
  (List.length bs <= n)%nat -> (k < List.length bs)%nat ->
  locate (base + Z.of_nat (k + List.length (take_line (skipn k bs))))
    (file_lines (skipn (k + List.length (take_line (skipn k bs))) bs))
  = filter (fun pl => base + Z.of_nat k <? fst pl) (locate base (file_lines bs)).
Proof.
  revert bs base k. induction n as [|n IH]; intros bs base k Hn Hk; [lia|].
  assert (Hne : bs <> []) by (destruct bs; [cbn in Hk; lia | discriminate]).
  pose proof (take_line_nonempty bs Hne) as Hl1.
  pose proof (take_line_split bs) as Hsplit.
  set (l1 := take_line bs) in *.
  set (rest := skipn (List.length l1) bs) in *.
  assert (Hlen : List.length bs = (List.length l1 + List.length rest)%nat)
    by (rewrite Hsplit at 1; apply length_app).
  rewrite (file_lines_cons bs Hne). fold l1 rest.
  cbn [locate fst filter].
  destruct (Z.ltb_spec (base + Z.of_nat k) base); [lia|].
  destruct (Nat.lt_ge_cases k (List.length l1)) as [Hlt|Hge].
  - rewrite (take_line_skipn k bs Hlt). fold l1. rewrite length_skipn.
    replace (k + (List.length l1 - k))%nat with (List.length l1) by lia.
    fold rest. unfold len. symmetry. apply filter_all_true.
    eapply Forall_impl; [|apply locate_ge].
    intros pl Hpl. cbv beta in Hpl. apply Z.ltb_lt. lia.
  - set (k2 := (k - List.length l1)%nat).
    assert (Hskip : skipn k bs = skipn k2 rest).
    { unfold rest. rewrite skipn_skipn. f_equal. unfold k2. lia. }
    rewrite Hskip.
    set (m := List.length (take_line (skipn k2 rest))).
    assert (Hskip' : skipn (k + m) bs = skipn (k2 + m) rest).
    { unfold rest. rewrite skipn_skipn. f_equal. unfold k2. lia. }
    rewrite Hskip'.
    specialize (IH rest (base + len l1) k2 ltac:(lia) ltac:(unfold k2; lia)).
    fold m in IH. unfold len in *.
    replace (base + Z.of_nat (k + m))
      with (base + Z.of_nat (List.length l1) + Z.of_nat (k2 + m))
      by (unfold k2; lia).
    rewrite IH. apply filter_ext. intros p. f_equal. unfold k2. lia.
Qed.

(** The lines that follow the line holding offset [pos]. *)
Lemma lines_after_read (content : bytes) (pos : Z) :
  0 <= pos < len content ->
  file_lines (skipn (Z.to_nat (snd (readline content pos))) content)
  = List.map snd (filter (fun pl => pos <? fst pl) (located_lines content)).
Proof.
  intros Hpos. unfold located_lines, readline, len in *. cbn [snd].
  pose proof (skip_line_located (List.length content) content 0 (Z.to_nat pos)
                (Nat.le_refl _) ltac:(lia)) as Hk.
  rewrite !Z.add_0_l, Z2Nat.id in Hk by lia.
  rewrite <- Hk, locate_lines. f_equal.
  replace (Z.to_nat (pos + Z.of_nat (List.length
             (take_line (skipn (Z.to_nat pos) content)))))
    with (Z.to_nat pos
          + List.length (take_line (skipn (Z.to_nat pos) content)))%nat by lia.
  reflexivity.
Qed.

(** The loop over the tail reads the lines that follow its first offset, at
    most [n] of them. *)
Lemma tail_dates_lines (n : nat) (mm : bytes) (pos : Z) (last_date : str) :
  0 <= pos ->
  tail_dates n mm pos last_date =
  Ok (last_dated (firstn n (file_lines (skipn (Z.to_nat pos) mm))) last_date).
Proof.
  revert pos last_date. induction n as [|n IH]; intros pos last_date Hpos;
    [reflexivity|].
  cbn [tail_dates]. unfold readline.
  destruct (skipn (Z.to_nat pos) mm) as [|b suf'] eqn:E; [reflexivity|].
  set (suf := b :: suf') in *.
  assert (Hne : suf <> []) by discriminate.
  rewrite (file_lines_cons suf Hne). cbn [firstn last_dated].
  destruct (is_empty (text_of (take_line suf))); [reflexivity|].
  destruct (extract_date_total (text_of (take_line suf))) as [date ->].
  cbn [bind]. rewrite IH by (unfold len; lia).
  unfold len.
  replace (Z.to_nat (pos + Z.of_nat (List.length (take_line suf))))
    with (List.length (take_line suf) + Z.to_nat pos)%nat by lia.
  now rewrite <- skipn_skipn, E.
Qed.

Lemma first_line_read (content : bytes) :
  fst (readline content 0) = hd [] (file_lines content).
Proof.
  unfold readline. cbn [fst Z.to_nat skipn].
  destruct content as [|b content']; [reflexivity|].
  now rewrite file_lines_cons by discriminate.
Qed.

Lemma find_date_boundaries_lines (mm : bytes) :
  mm <> [] ->
  exists first_date,
    extract_date_from_line (text_of (hd [] (file_lines mm))) = Ok first_date
    /\ find_date_boundaries mm (len mm)
       = Ok (first_date, last_dated (firstn 100 (tail_window mm)) no_last_date).
Proof.
  intros Hne.
  assert (Hlen : 0 < len mm) by (destruct mm; [congruence | unfold len; cbn; lia]).
  destruct (extract_date_total (text_of (hd [] (file_lines mm)))) as [first Hf].
  exists first. split; [exact Hf|].
  unfold find_date_boundaries, mm_seek.
  destruct (Z.leb_spec 0 0), (Z.leb_spec 0 (len mm)); try lia. cbn [andb bind].
  rewrite first_line_read, Hf. cbn [bind].
  destruct (Z.leb_spec 0 (Z.max 0 (len mm - 100000))),
    (Z.leb_spec (Z.max 0 (len mm - 100000)) (len mm)); try lia.
  cbn [andb bind].
  rewrite tail_dates_lines by (pose proof (readline_bounds mm _ H1); lia).
  rewrite lines_after_read by lia. reflexivity.
Qed.

Lemma last_dated_source (lines : list bytes) (last_date : str) :
  last_dated lines last_date = last_date
  \/ exists raw,
       In raw lines
       /\ extract_date_from_line (text_of raw) = Ok (last_dated lines last_date).
Proof.
  revert last_date. induction lines as [|raw rest IH]; intros last_date;
    [now left|].
  cbn [last_dated]. destruct (is_empty (text_of raw)); [now left|].
  destruct (extract_date_from_line (text_of raw)) as [date|e] eqn:E; [|now left].
  destruct (is_empty date) eqn:Ed.
  - destruct (IH last_date) as [H|[raw' [Hin H]]]; [now left|].
    right. exists raw'. split; [now right | exact H].
  - destruct (IH date) as [H|[raw' [Hin H]]].
    + right. exists raw. split; [now left | now rewrite H].
    + right. exists raw'. split; [now right | exact H].
Qed.

(** X8: on a non-empty file the boundary detector never raises.  Its first
    date is what the extractor gives for the first line of the file.  Its
    last date depends only on the first 100 lines that begin after offset
    max(0, size - 100000), read up to the first blank one: it is
    "9999-99-99" or what the extractor gives for one of these lines, namely
    for the last of them for which that text is not empty. *)
Theorem find_date_boundaries_reads_tail_lines (mm : bytes) :
  mm <> [] ->
  exists first_date last_date,
    find_date_boundaries mm (len mm) = Ok (first_date, last_date)
    /\ extract_date_from_line (text_of (hd [] (file_lines mm))) = Ok first_date
    /\ last_date = last_dated (firstn 100 (tail_window mm)) no_last_date
    /\ (last_date = no_last_date
        \/ exists raw,
             In raw (firstn 100 (tail_window mm))
             /\ extract_date_from_line (text_of raw) = Ok last_date).
Proof.
  intros Hne.
  destruct (find_date_boundaries_lines mm Hne) as [first [Hf Hb]].
  exists first, (last_dated (firstn 100 (tail_window mm)) no_last_date).
  split; [exact Hb|]. split; [exact Hf|]. split; [reflexivity|].
  apply last_dated_source.
Qed.

Lemma find_date_boundaries_reads_tail_lines_witness :
  exists first_date last_date,
    find_date_boundaries two_day_file (len two_day_file)
    = Ok (first_date, last_date)
    /\ extract_date_from_line (text_of (hd [] (file_lines two_day_file)))
       = Ok first_date
    /\ last_date = last_dated (firstn 100 (tail_window two_day_file)) no_last_date
    /\ (last_date = no_last_date
        \/ exists raw,
             In raw (firstn 100 (tail_window two_day_file))
             /\ extract_date_from_line (text_of raw) = Ok last_date).
Proof.
  apply (find_date_boundaries_reads_tail_lines two_day_file). discriminate.
Defined.

Lemma last_dated_undated_from_no_date (lines : list bytes) :
  Forall (fun raw => date_shaped (text_of raw) = false) lines ->
  last_dated lines no_date = no_date.
Proof.
  induction 1 as [|raw rest Hraw _ IH]; [reflexivity|].
  cbn [last_dated]. destruct (is_empty (text_of raw)); [reflexivity|].
  now rewrite (extract_date_undated _ Hraw).
Qed.

Lemma last_dated_undated (lines : list bytes) (last_date : str) :
  Forall (fun raw => date_shaped (text_of raw) = false) lines ->
  last_dated lines last_date =
  match lines with
  | [] => last_date
  | raw :: _ => if is_empty (text_of raw) then last_date else no_date
  end.
Proof.
  intros H. destruct H as [|raw rest Hraw Hrest]; [reflexivity|].
  cbn [last_dated]. destruct (is_empty (text_of raw)); [reflexivity|].
  rewrite (extract_date_undated _ Hraw). cbn [is_empty no_date].
  now apply last_dated_undated_from_no_date.
Qed.

Lemma in_firstn {A : Type} (n : nat) (l : list A) (x : A) :
  In x (firstn n l) -> In x l.
Proof.
  intros H. rewrite <- (firstn_skipn n l). apply in_or_app. now left.
Qed.

Lemma tail_window_lines (content : bytes) (raw : bytes) :
  In raw (tail_window content) -> In raw (file_lines content).
Proof.
  unfold tail_window, located_lines. intros H.
  apply in_map_iff in H as [pl [<- Hpl]]. apply filter_In in Hpl as [Hpl _].
  rewrite <- (locate_lines 0 (file_lines content)). now apply in_map.
Qed.

(** X9: for a non-empty file none of whose lines is date-shaped, both dates
    of the boundary detector are "0000-00-00", unless the tail window is
    empty or begins with a blank line, in which case the last date stays
    "9999-99-99": the test [if date:] lets the extractor's "0000-00-00"
    through. *)
Theorem find_date_boundaries_undated_file (mm : bytes) :
  mm <> [] ->
  Forall (fun raw => date_shaped (text_of raw) = false) (file_lines mm) ->
  find_date_boundaries mm (len mm) =
  Ok (no_date,
      match tail_window mm with
      | [] => no_last_date
      | raw :: _ => if is_empty (text_of raw) then no_last_date else no_date
      end).
Proof.
  intros Hne Hundated.
  destruct (find_date_boundaries_lines mm Hne) as [first [Hf ->]].
  assert (Hfirst : first = no_date).
  { pose proof (file_lines_cons mm Hne) as Hfl.
    rewrite Hfl in Hf. cbn [hd] in Hf.
    assert (Hraw : date_shaped (text_of (take_line mm)) = false).
    { rewrite Forall_forall in Hundated. apply Hundated. rewrite Hfl. now left. }
    rewrite (extract_date_undated _ Hraw) in Hf. congruence. }
  subst first. f_equal. f_equal.
  assert (Hwin : Forall (fun raw => date_shaped (text_of raw) = false)
                   (firstn 100 (tail_window mm))).
  { apply Forall_forall. intros raw Hin. rewrite Forall_forall in Hundated.
    apply Hundated, tail_window_lines. now apply (in_firstn 100). }
  rewrite (last_dated_undated _ _ Hwin).
  now destruct (tail_window mm).
Qed.

Lemma find_date_boundaries_undated_file_witness :
  find_date_boundaries undated_file (len undated_file) =
  Ok (no_date,
      match tail_window undated_file with
      | [] => no_last_date
      | raw :: _ => if is_empty (text_of raw) then no_last_date else no_date
      end).
Proof.
  apply (find_date_boundaries_undated_file undated_file).
  - discriminate.
  - repeat constructor.
Defined.

(** ** The sizes of the chunks *)

Lemma cover_sizes (fuel : nat) (size start limit : Z) (chunks : list chunk) :
  cover fuel size start limit = Some chunks ->
  Forall (fun c => snd c - fst c <= size) chunks.
Proof.
  revert start chunks. induction fuel as [|fuel IH]; intros start chunks;
    cbn [cover]; destruct (start <? limit); try discriminate;
    try (intros [= <-]; constructor).
  destruct (cover fuel size (Z.min (start + size) limit) limit) as [more|] eqn:E;
    [|discriminate].
  intros [= <-]. constructor; [cbn; lia | now apply (IH _ _ E)].
Qed.

(** X10: in every plan the primary chunk is at most twice the step and at
    most half the file long, and every other chunk is non-empty and at most
    one step long. *)
Theorem plan_chunk_sizes (fuel : nat) (size file_size estimated_pos : Z)
  (chunks : list chunk) :
  0 < size -> 0 <= file_size ->
  plan_chunks fuel size file_size estimated_pos = Some chunks ->
  exists primary rest,
    chunks = primary :: rest
    /\ snd primary - fst primary <= Z.min (2 * size) (file_size / 2)
    /\ Forall (fun c => 0 < snd c - fst c <= size) rest.
Proof.
  intros Hs Hfs H.
  destruct (plan_chunks_some_shape fuel size file_size estimated_pos chunks
              Hs Hfs H) as [before [after [Hb [Ha Hshape]]]].
  unfold plan_chunks in H.
  destruct (cover fuel size 0 _) as [before'|] eqn:Eb; [|discriminate].
  destruct (cover fuel size _ file_size) as [after'|] eqn:Ea; [|discriminate].
  injection H as H. rewrite <- H in Hshape. injection Hshape as Hrest.
  eexists _, _. split; [symmetry; exact H|]. split.
  - cbn [fst snd]. unfold primary_end, primary_chunk_size. lia.
  - rewrite Hrest.
    assert (Hsz : Forall (fun c => snd c - fst c <= size) (before ++ after)).
    { rewrite <- Hrest. apply Forall_app. split; eapply cover_sizes; eassumption. }
    assert (Hpos : Forall (fun c => fst c < snd c) (before ++ after)).
    { apply Forall_app. split.
      - eapply Forall_impl; [|exact (tiling_bounds _ _ _ Hb)].
        intros c Hc. cbv beta in Hc. lia.
      - eapply Forall_impl; [|exact (tiling_bounds _ _ _ Ha)].
        intros c Hc. cbv beta in Hc. lia. }
    rewrite Forall_forall in *. intros c Hc.
    specialize (Hsz c Hc). specialize (Hpos c Hc). lia.
Qed.

Lemma plan_chunk_sizes_witness :
  exists primary rest,
    [(0, 40); (40, 80)] = primary :: rest
    /\ snd primary - fst primary <= Z.min (2 * chunk_size) (80 / 2)
    /\ Forall (fun c => 0 < snd c - fst c <= chunk_size) rest.
Proof.
  apply (plan_chunk_sizes 1 chunk_size 80 0).
  - reflexivity.
  - discriminate.
  - reflexivity.
Defined.

(** ** The normalizer on well-formed records *)

Lemma starts_with_self (p q : str) : starts_with p (p ++ q) = true.
Proof.
  induction p as [|a p IH]; [reflexivity|]. cbn. now rewrite N.eqb_refl.
Qed.

(** A text that lacks the first character of [sub] holds no occurrence of
    it, and none that begins in it. *)
Lemma find_sub_first (c : codepoint) (sub' pre post : str) :
  has_char c pre = false ->
  find_sub (c :: sub') (pre ++ (c :: sub') ++ post) = Some (pre, post).
Proof.
  induction pre as [|a pre IH]; intros H.
  - cbn [app]. change (c :: sub' ++ post) with ((c :: sub') ++ post).
    destruct ((c :: sub') ++ post) as [|b x] eqn:E; [discriminate|].
    cbn [find_sub]. rewrite <- E, starts_with_self.
    now rewrite skipn_app, skipn_all, Nat.sub_diag.
  - cbn [has_char existsb] in H. apply orb_false_elim in H as [Hca Hpre].
    cbn [app find_sub starts_with]. rewrite Hca. cbn [andb].
    specialize (IH Hpre). cbn [app] in IH. now rewrite IH.
Qed.

Lemma split_loop_three (fuel : nat) (sep x a rest b c : str) :
  (3 <= fuel)%nat ->
  find_sub sep x = Some (a, rest) ->
  find_sub sep rest = Some (b, c) ->
  split_loop fuel sep 2 x = [a; b; c].
Proof.
  intros Hf Ha Hb. destruct fuel as [|[|[|fuel]]]; try lia.
  cbn [split_loop]. change (2 =? 0) with false. cbv iota. rewrite Ha.
  change (2 - 1 =? 0) with false. cbv iota. rewrite Hb. reflexivity.
Qed.

Lemma replace_loop_nil (fuel : nat) (c : codepoint) (old' new : str) :
  replace_loop fuel (c :: old') new [] = [].
Proof. destruct fuel; reflexivity. Qed.

Lemma plain_chars (x : str) :
  plain x = true ->
  has_char chr_space x = false /\ has_char chr_T x = false
  /\ has_char chr_dot x = false.
Proof.
  unfold plain. intros H. apply negb_true_iff in H.
  apply orb_false_elim in H as [H H3]. apply orb_false_elim in H as [H1 H2].
  auto.
Qed.

Lemma subst_char_app (c d : codepoint) (x y : str) :
  subst_char c d (x ++ y) = subst_char c d x ++ subst_char c d y.
Proof. apply map_app. Qed.

(** X11: a record of the form date 'T' time ".0000 - " level " - " message,
    where the date and the time hold no space, 'T' or dot and the level holds
    no space, is normalized to date, time, level and message separated by
    single spaces; the message is kept as it is, whatever it holds. *)
Theorem format_line_well_formed (date time level message : str) :
  plain date = true -> plain time = true ->
  has_char chr_space level = false ->
  format_line_for_output
    (date ++ [chr_T] ++ time ++ zero_fraction ++ field_sep
       ++ level ++ field_sep ++ message)
  = Ok (date ++ [chr_space] ++ time ++ [chr_space] ++ level
          ++ [chr_space] ++ message).
Proof.
  intros Hd Ht Hl.
  apply plain_chars in Hd as [Hd1 [Hd2 Hd3]].
  apply plain_chars in Ht as [Ht1 [Ht2 Ht3]].
  set (ts := date ++ [chr_T] ++ time ++ zero_fraction).
  set (line := date ++ [chr_T] ++ time ++ zero_fraction ++ field_sep
                 ++ level ++ field_sep ++ message).
  assert (Hline : line = ts ++ field_sep ++ (level ++ field_sep ++ message)).
  { unfold line, ts. now rewrite <- !app_assoc. }
  assert (Hts : has_char chr_space ts = false).
  { unfold ts. now rewrite !has_char_app, Hd1, Ht1. }
  assert (H1 : find_sub field_sep line
               = Some (ts, level ++ field_sep ++ message)).
  { rewrite Hline. unfold field_sep. now apply find_sub_first. }
  assert (H2 : find_sub field_sep (level ++ field_sep ++ message)
               = Some (level, message)).
  { unfold field_sep. now apply find_sub_first. }
  assert (HT : has_char chr_T line = true).
  { unfold line. rewrite !has_char_app. cbn. now rewrite !orb_true_r. }
  assert (Hsplit : split_loop (S (List.length line)) field_sep 2 line
                   = [ts; level; message]).
  { apply (split_loop_three (S (List.length line)) field_sep line ts
             (level ++ field_sep ++ message) level message);
      [|exact H1 | exact H2].
    rewrite Hline, !length_app. cbn. lia. }
  rewrite format_line_cases, Hsplit, HT. f_equal.
  assert (Hsub : subst_char chr_T chr_space ts
                 = (date ++ [chr_space] ++ time) ++ zero_fraction ++ []).
  { unfold ts. rewrite !subst_char_app, (subst_char_id _ _ date Hd2),
      (subst_char_id _ _ time Ht2), app_nil_r, <- !app_assoc. reflexivity. }
  rewrite Hsub. unfold replace, zero_fraction at 1.
  cbn [replace_loop]. unfold zero_fraction. unfold chr_dot in Hd3, Ht3.
  rewrite find_sub_first
    by (rewrite !has_char_app, Hd3, Ht3; reflexivity).
  rewrite replace_loop_nil, app_nil_r, <- !app_assoc. reflexivity.
Qed.

Lemma format_line_well_formed_witness :
  format_line_for_output
    (str_of "2024-12-01" ++ [chr_T] ++ str_of "02:49:15" ++ zero_fraction
       ++ field_sep ++ str_of "INFO" ++ field_sep ++ str_of "disk - 93% used")
  = Ok (str_of "2024-12-01" ++ [chr_space] ++ str_of "02:49:15" ++ [chr_space]
          ++ str_of "INFO" ++ [chr_space] ++ str_of "disk - 93% used").
Proof.
  apply (format_line_well_formed (str_of "2024-12-01") (str_of "02:49:15")
           (str_of "INFO") (str_of "disk - 93% used")); reflexivity.
Defined.

(** ** The date extractor: what it returns *)

Lemma extract_date_value (line : str) :
  extract_date_from_line line =
  Ok (if date_shaped line then
        if has_char chr_T (firstn 19 line) then before_first chr_T line
        else firstn 10 line
      else no_date).
Proof.
  unfold extract_date_from_line.
  destruct (is_empty line) eqn:Hempty.
  - destruct line; [reflexivity | discriminate].
  - rewrite shape_guard. cbn [bind].
    destruct (date_shaped line); [|reflexivity].
    rewrite contains_char.
    destruct (has_char chr_T (firstn 19 line)); [|reflexivity].
    destruct (split_char_head chr_T line) as [rest ->]. reflexivity.
Qed.

Lemma before_first_prefix (c : codepoint) (x : str) :
  before_first c x = firstn (List.length (before_first c x)) x.
Proof.
  induction x as [|a x IH]; [reflexivity|].
  cbn. destruct (a =? c)%N; [reflexivity|]. cbn. now rewrite <- IH.
Qed.

Lemma before_first_clean (c : codepoint) (x : str) :
  has_char c (before_first c x) = false.
Proof.
  induction x as [|a x IH]; [reflexivity|].
  cbn [before_first]. destruct (a =? c)%N eqn:E; [reflexivity|].
  unfold has_char in *. cbn [existsb]. now rewrite N.eqb_sym, E, IH.
Qed.

Lemma before_first_short (c : codepoint) (n : nat) (x : str) :
  has_char c (firstn n x) = true ->
  (List.length (before_first c x) < n)%nat.
Proof.
  revert n. induction x as [|a x IH]; intros n H.
  - now destruct n.
  - destruct n as [|n]; [discriminate|].
    unfold has_char in *. cbn [firstn existsb before_first] in *.
    rewrite (N.eqb_sym c a) in H.
    destruct (a =? c)%N; cbn [orb List.length] in *; [lia|].
    specialize (IH n H). lia.
Qed.

Lemma has_char_firstn (c : codepoint) (n m : nat) (x : str) :
  (n <= m)%nat -> has_char c (firstn m x) = false ->
  has_char c (firstn n x) = false.
Proof.
  intros Hnm H. rewrite <- (firstn_skipn n (firstn m x)) in H.
  rewrite has_char_app in H. apply orb_false_elim in H as [H _].
  now rewrite firstn_firstn, Nat.min_l in H.
Qed.

(** X12: the date extractor returns either "0000-00-00" or, for a
    date-shaped line, a prefix of the line that is at most 18 characters
    long and holds no 'T'; the text it returns is empty exactly when a
    date-shaped line begins with 'T'. *)
Theorem extract_date_is_prefix (line : str) :
  exists date,
    extract_date_from_line line = Ok date
    /\ (date = no_date
        \/ (date_shaped line = true
            /\ date = firstn (List.length date) line
            /\ (List.length date <= 18)%nat
            /\ has_char chr_T date = false))
    /\ (date = [] <-> date_shaped line = true /\ hd_error line = Some chr_T).
Proof.
  eexists. split; [apply extract_date_value|].
  destruct (date_shaped line) eqn:Hshape.
  2:{ split; [now left|]. split; [discriminate | intros [H _]; discriminate]. }
  assert (Hlen : (10 <= List.length line)%nat).
  { unfold date_shaped in Hshape. apply andb_prop in Hshape as [H _].
    now apply Nat.leb_le. }
  destruct (has_char chr_T (firstn 19 line)) eqn:HT.
  - split.
    + right. split; [reflexivity|]. split; [apply before_first_prefix|].
      split; [|apply before_first_clean].
      pose proof (before_first_short _ _ _ HT). lia.
    + destruct line as [|a line]; [cbn in Hlen; lia|].
      cbn [before_first hd_error]. destruct (N.eqb_spec a chr_T) as [->|Hne].
      * split; auto.
      * split; [discriminate | intros [_ [= H]]; congruence].
  - split.
    + right. split; [reflexivity|].
      rewrite length_firstn, Nat.min_l by lia.
      split; [reflexivity|]. split; [lia|].
      apply (has_char_firstn chr_T 10 19); [lia | exact HT].
    + split.
      * intros H. apply (f_equal (@List.length _)) in H.
        rewrite length_firstn in H. cbn [List.length] in H. lia.
      * intros [_ Hhd]. destruct line as [|a line]; [discriminate|].
        injection Hhd as ->. cbn in HT. discriminate.
Qed.

(** ** main *)




Lemma eqb_not_slash (c other : codepoint) :
  (c =? other)%N = true -> (chr_slash =? other)%N = false ->
  (chr_slash =? c)%N = false.
Proof. intros H%N.eqb_eq. now subst. Qed.




Lemma has_char_rev (c : codepoint) (x : str) :
  has_char c (rev x) = has_char c x.
Proof.
  induction x as [|a x IH]; [reflexivity|].
  cbn [rev]. rewrite has_char_app, IH. unfold has_char. cbn [existsb].
  rewrite orb_false_r. apply orb_comm.
Qed.




(** ** Calls with a failed estimate *)

Lemma primary_start_of_zero (size file_size : Z) :
  0 < size -> 0 <= file_size -> primary_start size file_size 0 = 0.
Proof.
  intros Hs Hfs. unfold primary_start.
  pose proof (primary_chunk_size_nonneg size file_size Hs Hfs) as H.
  assert (0 <= primary_chunk_size size file_size / 2) by (apply Z.div_pos; lia).
  lia.
Qed.

Lemma estimate_position_unparsed (file_size : Z) (target_date min_date max_date : str) :
  is_ok (strptime target_date) && is_ok (strptime min_date)
    && is_ok (strptime max_date) = false ->
  estimate_position file_size target_date min_date max_date = 0.
Proof.
  intros H. rewrite estimate_position_cases.
  destruct (strptime target_date); [|reflexivity].
  destruct (strptime min_date); [|reflexivity].
  destruct (strptime max_date); [discriminate | reflexivity].
Qed.

(** X14: a failed estimate does not stop a call.  On a non-empty file, when
    one of the target date and the two detected boundary dates does not
    parse (as the sentinels "0000-00-00" and "9999-99-99" never do) or the
    two boundary dates are the same text, the estimate is 0, the primary
    chunk starts at offset 0, every scan ends and process_file returns with
    the outcome of the output step. *)
Theorem process_file_with_failed_estimate (d : disk) (content : bytes)
  (target_date output_file first_date last_date : str) :
  content <> [] ->
  find_date_boundaries content (len content) = Ok (first_date, last_date) ->
  is_ok (strptime target_date) && is_ok (strptime first_date)
    && is_ok (strptime last_date) = false
  \/ first_date = last_date ->
  is_ok (strptime no_date) = false
  /\ is_ok (strptime no_last_date) = false
  /\ estimate_position (len content) target_date first_date last_date = 0
  /\ exists rest chunk_results,
       plan (Z.to_nat (len content)) content target_date
       = Some (Ok ((0, primary_end chunk_size (len content) 0) :: rest))
       /\ process_file d (Z.to_nat (len content)) content target_date
            output_file
          = Some (write_output d output_file chunk_results)
       /\ returned (write_output d output_file chunk_results)
          = writable d output_file (lines_text (List.concat chunk_results)).
Proof.
  intros Hne Hb Hcase.
  assert (Hlen : 0 <= len content) by (unfold len; lia).
  assert (Hs : 0 < chunk_size) by reflexivity.
  assert (Hest : estimate_position (len content) target_date first_date last_date
                 = 0).
  { destruct Hcase as [H| ->];
      [now apply estimate_position_unparsed
      | apply estimate_position_same_bounds]. }
  split; [reflexivity|]. split; [reflexivity|]. split; [exact Hest|].
  destruct (process_file_returns d content target_date output_file Hne)
    as [rs0 Hr].
  { intros first last Hb'. rewrite Hb in Hb'. injection Hb' as <- <-.
    rewrite Hest, primary_start_of_zero by assumption. exact Hlen. }
  destruct (process_file_steps d _ content target_date output_file _ Hne Hr)
    as [first [last [chunks [rs [Hb' [Ec [Hplan [_ Hrun]]]]]]]].
  rewrite Hb in Hb'. injection Hb' as <- <-. rewrite Hest in Ec.
  destruct (plan_chunks_some_shape _ _ _ _ _ Hs Hlen Ec)
    as [before [after [_ [_ Hshape]]]].
  rewrite primary_start_of_zero in Hshape by assumption.
  exists (before ++ after), rs. rewrite Hplan, Hshape, Hr, Hrun.
  split; [reflexivity|]. split; [reflexivity|]. apply write_output_returned.
Qed.

Lemma process_file_with_failed_estimate_witness :
  is_ok (strptime no_date) = false
  /\ is_ok (strptime no_last_date) = false
  /\ estimate_position (len undated_file) jan_1 no_date no_date = 0
  /\ exists rest chunk_results,
       plan (Z.to_nat (len undated_file)) undated_file jan_1
       = Some (Ok ((0, primary_end chunk_size (len undated_file) 0) :: rest))
       /\ process_file sound_disk (Z.to_nat (len undated_file)) undated_file
            jan_1 (output_name jan_1)
          = Some (write_output sound_disk (output_name jan_1) chunk_results)
       /\ returned (write_output sound_disk (output_name jan_1) chunk_results)
          = writable sound_disk (output_name jan_1)
              (lines_text (List.concat chunk_results)).
Proof.
  apply (process_file_with_failed_estimate sound_disk undated_file jan_1
           (output_name jan_1) no_date no_date).
  - discriminate.
  - reflexivity.
  - now left.
Defined.

(** ** Lines without a date *)

(** X15: for a target date that validate_date accepts, a line counts for the
    date only if it is date-shaped; a scan and a whole call therefore never
    return a blank line or a line on which the extractor falls back to
    "0000-00-00". *)
Theorem valid_target_matches_dated_lines_only (target_date : str) (raw : bytes) :
  validate_date target_date = true ->
  line_matches target_date raw = true ->
  text_of raw <> []
  /\ date_shaped (text_of raw) = true
  /\ formatted target_date raw <> [].
Proof.
  intros Hvalid Hmatch. unfold formatted. rewrite Hmatch.
  unfold line_matches in Hmatch. cbv zeta in Hmatch.
  apply andb_prop in Hmatch as [Hne Hdate].
  split; [now destruct (text_of raw)|].
  split.
  - rewrite extract_date_value in Hdate.
    destruct (date_shaped (text_of raw)); [reflexivity|].
    apply str_eqb_eq in Hdate. subst target_date. discriminate.
  - rewrite format_line_cases. discriminate.
Qed.

Lemma valid_target_matches_dated_lines_only_witness :
  text_of (bytes_of "2024-01-01T08:00:00.0000 - INFO - start") <> []
  /\ date_shaped (text_of (bytes_of "2024-01-01T08:00:00.0000 - INFO - start"))
     = true
  /\ formatted jan_1 (bytes_of "2024-01-01T08:00:00.0000 - INFO - start") <> [].
Proof.
  apply (valid_target_matches_dated_lines_only jan_1
           (bytes_of "2024-01-01T08:00:00.0000 - INFO - start")); reflexivity.
Defined.

(** ** Newlines in what is read and written *)

Lemma inner_newline_cons (a : N) (x : list N) :
  inner_newline (a :: x) =
  match x with
  | [] => false
  | _ :: _ => (10 =? a)%N || inner_newline x
  end.
Proof. unfold inner_newline. destruct x; reflexivity. Qed.

Lemma inner_newline_tail (a : N) (x : list N) :
  inner_newline (a :: x) = false -> inner_newline x = false.
Proof.
  rewrite inner_newline_cons. destruct x; [reflexivity|].
  intros H. now apply orb_false_elim in H.
Qed.

Lemma inner_newline_head (a b : N) (x : list N) :
  inner_newline (a :: b :: x) = false -> a <> 10%N.
Proof.
  rewrite inner_newline_cons. intros H. apply orb_false_elim in H as [H _].
  apply N.eqb_neq in H. congruence.
Qed.

Lemma inner_newline_push (a : N) (x : list N) :
  (a <> 10%N \/ x = []) -> inner_newline x = false ->
  inner_newline (a :: x) = false.
Proof.
  intros Ha Hx. rewrite inner_newline_cons. destruct x as [|b x]; [reflexivity|].
  destruct Ha as [Ha|Ha]; [|discriminate].
  rewrite Hx, orb_false_r. apply N.eqb_neq. congruence.
Qed.

(** Decoding puts no newline before the last character when no newline byte
    comes before the last byte: a newline byte is never part of a longer
    sequence, and no longer sequence decodes to a newline. *)
Lemma decode_ignore_newline (n : nat) (bs : list N) :
  (List.length bs <= n)%nat ->
  inner_newline bs = false -> inner_newline (decode_ignore bs) = false.
Proof.
  revert bs. induction n as [|n IH]; intros bs Hn Hbs.
  - destruct bs; [reflexivity | cbn in Hn; lia].
  - destruct bs as [|b0 r1]; [reflexivity|].
    assert (Hr1 : inner_newline r1 = false) by (eapply inner_newline_tail; eauto).
    assert (IH1 : inner_newline (decode_ignore r1) = false)
      by (apply IH; [cbn [List.length] in *; lia | exact Hr1]).
    cbn [decode_ignore].
    destruct (N.ltb_spec b0 128).
    { apply inner_newline_push; [|exact IH1].
      destruct r1 as [|b1 r2]; [now right|].
      left. eapply inner_newline_head; eauto. }
    destruct (N.ltb_spec b0 194); [exact IH1|].
    destruct r1 as [|b1 r2];
      [repeat match goal with |- context [if ?b then _ else _] => destruct b end;
       reflexivity|].
    assert (Hr2 : inner_newline r2 = false) by (eapply inner_newline_tail; eauto).
    assert (IH2 : inner_newline (decode_ignore r2) = false)
      by (apply IH; [cbn [List.length] in *; lia | exact Hr2]).
    destruct (N.ltb_spec b0 224).
    { destruct (is_cont b1) eqn:Hc; [|exact IH1].
      apply inner_newline_push; [left; lia | exact IH2]. }
    destruct (N.ltb_spec b0 240).
    { destruct (second_of_3 b0 b1) eqn:Hc; [|exact IH1].
      destruct r2 as [|b2 r3]; [reflexivity|].
      destruct (is_cont b2); [|exact IH2].
      apply inner_newline_push.
      - left. unfold second_of_3, is_cont in Hc.
        destruct (N.leb_spec 128 b1), (N.ltb_spec b1 160), (N.eqb_spec b0 224);
          cbn in Hc; try discriminate; lia.
      - apply IH; [cbn [List.length] in *; lia|]. eapply inner_newline_tail; eauto. }
    destruct (N.ltb_spec b0 245); [|exact IH1].
    destruct (second_of_4 b0 b1) eqn:Hc; [|exact IH1].
    destruct r2 as [|b2 r3]; [reflexivity|].
    destruct (is_cont b2); [|exact IH2].
    destruct r3 as [|b3 r4]; [reflexivity|].
    assert (Hr3 : inner_newline (b3 :: r4) = false)
      by (eapply inner_newline_tail; eauto).
    destruct (is_cont b3); [|apply IH; [cbn [List.length] in *; lia | exact Hr3]].
    apply inner_newline_push.
    + left. unfold second_of_4, is_cont in Hc.
      destruct (N.leb_spec 128 b1), (N.ltb_spec b1 144), (N.eqb_spec b0 240);
        cbn in Hc; try discriminate; lia.
    + apply IH; [cbn [List.length] in *; lia|]. eapply inner_newline_tail; eauto.
Qed.

Lemma take_line_inner_newline (bs : bytes) :
  inner_newline (List.map Byte.to_N (take_line bs)) = false.
Proof.
  induction bs as [|b bs IH]; [reflexivity|].
  cbn [take_line]. unfold is_newline. destruct (N.eqb_spec (Byte.to_N b) 10).
  - reflexivity.
  - cbn [List.map]. apply inner_newline_push; [now left | exact IH].
Qed.

Lemma has_char_lstrip (c : codepoint) (x : str) :
  has_char c x = false -> has_char c (lstrip x) = false.
Proof.
  induction x as [|a x IH]; [reflexivity|].
  intros H. cbn [lstrip]. destruct (is_space a); [|exact H].
  apply IH. unfold has_char in *. cbn [existsb] in H.
  now apply orb_false_elim in H.
Qed.

Lemma inner_newline_lstrip (x : str) :
  inner_newline x = false -> inner_newline (lstrip x) = false.
Proof.
  induction x as [|a x IH]; [reflexivity|].
  intros H. cbn [lstrip]. destruct (is_space a); [|exact H].
  apply IH. now apply inner_newline_tail in H.
Qed.

(** Stripped text holds no newline if the text held none before its last
    character. *)
Lemma strip_no_newline (x : str) :
  inner_newline x = false -> has_char 10%N (strip x) = false.
Proof.
  intros H. apply inner_newline_lstrip in H. unfold strip.
  rewrite has_char_rev.
  destruct (lstrip x) as [|a y] eqn:E; [reflexivity|].
  assert (Hne : a :: y <> []) by discriminate.
  unfold inner_newline in H.
  rewrite (app_removelast_last 0%N Hne), rev_app_distr.
  cbn [rev app lstrip].
  match goal with
  | |- context [is_space ?t] => destruct (is_space t) eqn:Hs
  end.
  - apply has_char_lstrip. rewrite has_char_rev. exact H.
  - unfold has_char at 1. cbn [existsb].
    match goal with
    | |- (?e || existsb _ (rev ?b))%bool = false =>
        change ((e || has_char 10%N (rev b))%bool = false)
    end.
    rewrite has_char_rev, H, orb_false_r.
    match goal with
    | |- (10 =? ?z)%N = false =>
        destruct (N.eqb_spec 10 z) as [Heq|]; [|reflexivity];
        rewrite <- Heq in Hs; discriminate
    end.
Qed.

Lemma text_of_line_no_newline (content : bytes) (pos : Z) :
  has_char 10%N (text_of (fst (readline content pos))) = false.
Proof.
  unfold text_of, decode, readline. cbn [fst].
  apply strip_no_newline.
  apply (decode_ignore_newline _ _ (Nat.le_refl _)).
  apply take_line_inner_newline.
Qed.

Lemma has_char_subst_other (c a d : codepoint) (x : str) :
  c <> d -> has_char c x = false -> has_char c (subst_char a d x) = false.
Proof.
  intros Hd. induction x as [|b x IH]; [reflexivity|].
  unfold has_char, subst_char in *. cbn [List.map existsb].
  intros H. apply orb_false_elim in H as [Hb Hx].
  rewrite (IH Hx), orb_false_r.
  destruct (b =? a)%N; [now apply N.eqb_neq | exact Hb].
Qed.

(** The normalizer adds no newline. *)
Lemma format_line_no_newline (line out : str) :
  has_char 10%N line = false ->
  format_line_for_output line = Ok out ->
  has_char 10%N out = false.
Proof.
  intros Hline H. rewrite format_line_cases in H.
  pose proof (split_loop_join (S (List.length line)) field_sep 2 line) as Hjoin.
  remember (split_loop (S (List.length line)) field_sep 2 line) as parts
    eqn:Eparts.
  clear Eparts.
  assert (Hout : out = match parts with
                       | [part0; part1; part2] =>
                           if has_char chr_T line then
                             replace zero_fraction []
                               (subst_char chr_T chr_space part0)
                               ++ [chr_space] ++ part1 ++ [chr_space] ++ part2
                           else line
                       | _ => line
                       end) by congruence.
  clear H. subst out.
  destruct parts as [|p0 [|p1 [|p2 [|p3 rest]]]]; try exact Hline.
  destruct (has_char chr_T line); [|exact Hline].
  cbn [join] in Hjoin. rewrite <- Hjoin in Hline.
  rewrite !has_char_app in Hline.
  apply orb_false_elim in Hline as [H0 Hline].
  apply orb_false_elim in Hline as [_ Hline].
  apply orb_false_elim in Hline as [H1 Hline].
  apply orb_false_elim in Hline as [_ H2].
  rewrite !has_char_app, H1, H2. unfold replace, zero_fraction.
  rewrite replace_loop_delete_absent
    by (apply has_char_subst_other; [discriminate | exact H0]).
  reflexivity.
Qed.

Lemma newlines_lines_text (lines : list str) :
  Forall (fun line => has_char 10%N line = false) lines ->
  newlines (lines_text lines) = len lines.
Proof.
  unfold newlines, len, lines_text.
  induction 1 as [|line lines Hline _ IH]; [reflexivity|].
  cbn [flat_map List.length]. rewrite !count_occ_app.
  assert (Hzero : count_occ N.eq_dec line chr_newline = 0%nat).
  { apply count_occ_not_In. intros Hin.
    unfold has_char in Hline.
    assert (Hex : existsb (N.eqb 10) line = true)
      by (apply existsb_exists; exists chr_newline; split;
          [exact Hin | reflexivity]).
    congruence. }
  match goal with
  | |- Z.of_nat (?a + ?b + ?c) = _ =>
      assert (Ha : a = 0%nat) by exact Hzero;
      assert (Hb : b = 1%nat)
        by (cbn; destruct (N.eq_dec chr_newline chr_newline); congruence);
      rewrite Ha, Hb; change (Z.of_nat (S c) = Z.of_nat (S (List.length lines)))
  end.
  rewrite !Nat2Z.inj_succ. f_equal. exact IH.
Qed.

(** X16: the count that a call reports is the number of lines of the output
    file it wrote: no written line holds a newline of its own, whatever
    bytes the file holds. *)
Theorem process_file_count_is_line_count (d : disk) (fuel : nat)
  (content : bytes) (target_date output_file : str) (r : run) :
  process_file d fuel content target_date output_file = Some r ->
  returned r = true ->
  exists text n,
    output r = Some text /\ count r = Some n /\ n = newlines text.
Proof.
  intros Hr Hret.
  destruct (process_file_output d fuel content target_date output_file r
              Hr Hret)
    as [chunks [rs [Hplan [Hscans [Hout Hcount]]]]].
  exists (lines_text (List.concat rs)), (len (List.concat rs)).
  split; [exact Hout|]. split; [exact Hcount|].
  symmetry. apply newlines_lines_text.
  assert (Hstarts : Forall (fun c => 0 <= fst c) chunks).
  { unfold plan in Hplan. destruct (mmap content) as [mm|]; [|discriminate].
    destruct (find_date_boundaries mm (len content)) as [[first last]|];
      [|discriminate].
    destruct (plan_chunks fuel chunk_size (len content) _) as [cs|] eqn:Ec;
      [|discriminate].
    injection Hplan as <-.
    eapply (plan_chunks_starts fuel chunk_size (len content));
      [reflexivity | unfold len; lia | exact Ec]. }
  clear Hplan Hout Hcount Hr.
  induction Hscans as [|c lines chunks rs Hc _ IH]; [constructor|].
  inversion Hstarts as [|c' l' H0 Hrest]; subst.
  cbn [List.concat]. apply Forall_app. split; [|now apply IH].
  destruct c as [start end_]. cbn [fst] in H0.
  destruct (find_lines_for_date_reads fuel start end_ content target_date lines
              H0 Hc) as [-> _].
  apply Forall_forall. intros out Hin.
  apply in_flat_map in Hin as [pos [_ Hin]].
  apply line_result_in in Hin as [_ [_ Hfmt]].
  apply (format_line_no_newline _ _ (text_of_line_no_newline content pos) Hfmt).
Qed.

Lemma process_file_count_is_line_count_witness :
  exists text n,
    output {| returned := true;
              output := Some (str_of ("2024-01-01 08:00:00 INFO start"
                                      ++ newline_lit));
              count := Some 1 |} = Some text
    /\ count {| returned := true;
                output := Some (str_of ("2024-01-01 08:00:00 INFO start"
                                        ++ newline_lit));
                count := Some 1 |} = Some n
    /\ n = newlines text.
Proof.
  apply (process_file_count_is_line_count sound_disk 2 same_day_file jan_1
           (output_name jan_1));
    reflexivity.
Defined.
